(** * Olivetti Programma 101 emulator: registers and key dispatch

    A shallow embedding of [emulator.py] (version 1.5): the [Register]
    class, the eight module-level registers, [print_result] and the body of
    [loop], followed by the properties of the key-dispatch state machine.

    Python objects are modelled as the code has them: every [Register]
    holds a reference to a numpy array of 24 shorts that lives in a store,
    so that [A.reg = M.reg] shares one array between two registers; text is
    a list of Unicode code points, so that [len(pressed_key)] counts
    characters; exceptions that the code does not catch end the run. *)

From Stdlib Require Import ZArith NArith Ascii String Bool Lia.
From Stdlib Require Import DecimalPos DecimalZ.
From stdpp Require Import base list.

#[local] Open Scope Z_scope.

(** ** Python text *)

(** A Python [str] is a sequence of code points. *)
Abbreviation pystr := (list N).

Definition chr (a : ascii) : N := N_of_ascii a.

(** [lit] embeds an ASCII literal of the source. *)
Definition lit (s : string) : pystr := map N_of_ascii (list_ascii_of_string s).

Definition len (s : pystr) : Z := Z.of_nat (length s).

Fixpoint str_eqb (s t : pystr) : bool :=
  match s, t with
  | [], [] => true
  | c :: s', d :: t' => N.eqb c d && str_eqb s' t'
  | _, _ => false
  end.

Fixpoint startswith (s prefix : pystr) : bool :=
  match prefix, s with
  | [], _ => true
  | p :: prefix', c :: s' => N.eqb p c && startswith s' prefix'
  | _ :: _, [] => false
  end.

(** [s.find(sub)], counting from offset [i]: the lowest index at which
    [sub] occurs, or [-1]. *)
Fixpoint find_from (s sub : pystr) (i : Z) : Z :=
  if startswith s sub then i
  else match s with
       | [] => -1
       | _ :: s' => find_from s' sub (i + 1)
       end.

Definition str_find (s sub : pystr) : Z := find_from s sub 0.

(** [sub in s] is the substring test; the empty string is in every string. *)
Definition str_in (sub s : pystr) : bool := 0 <=? str_find s sub.

(** Slices [s[:j]] and [s[i:]]: a negative bound counts from the end, and
    every bound is clamped to the string. *)
Definition slice_bound (s : pystr) (i : Z) : nat :=
  Z.to_nat (Z.max 0 (Z.min (len s) (if i <? 0 then i + len s else i))).

Definition slice_to (s : pystr) (j : Z) : pystr := take (slice_bound s j) s.
Definition slice_from (s : pystr) (i : Z) : pystr := drop (slice_bound s i) s.

(** [s.replace(c, '')] for a one-character [c]. *)
Definition remove_char (c : N) (s : pystr) : pystr :=
  List.filter (fun x => negb (N.eqb x c)) s.

(** [c.isdigit()] on the ASCII output of [str]. *)
Definition isdigit (c : N) : bool := (48 <=? c)%N && (c <=? 57)%N.

Definition digit_value (c : N) : Z := Z.of_N c - 48.

(** [str(n)] for an [int]. *)
Fixpoint str_of_uint (u : Decimal.uint) : pystr :=
  match u with
  | Decimal.Nil => []
  | Decimal.D0 u => chr "0" :: str_of_uint u
  | Decimal.D1 u => chr "1" :: str_of_uint u
  | Decimal.D2 u => chr "2" :: str_of_uint u
  | Decimal.D3 u => chr "3" :: str_of_uint u
  | Decimal.D4 u => chr "4" :: str_of_uint u
  | Decimal.D5 u => chr "5" :: str_of_uint u
  | Decimal.D6 u => chr "6" :: str_of_uint u
  | Decimal.D7 u => chr "7" :: str_of_uint u
  | Decimal.D8 u => chr "8" :: str_of_uint u
  | Decimal.D9 u => chr "9" :: str_of_uint u
  end.

Definition str_of_int (z : Z) : pystr :=
  match Z.to_int z with
  | Decimal.Pos u => str_of_uint u
  | Decimal.Neg u => chr "-" :: str_of_uint u
  end.

(** The number written by a run of decimal digits, most significant first. *)
Definition digits_value (ds : pystr) : Z :=
  fold_left (fun acc c => 10 * acc + digit_value c) ds 0.

Definition all_digits (s : pystr) : bool := forallb isdigit s.

(** An optional leading sign: [(negative, rest)]. *)
Definition split_sign (s : pystr) : bool * pystr :=
  match s with
  | c :: s' =>
      if N.eqb c (chr "-") then (true, s')
      else if N.eqb c (chr "+") then (false, s')
      else (false, s)
  | [] => (false, [])
  end.

(** [int(s)] on text made of signs, digits and points (all that [str] of a
    short and the sign character can contribute): an optional sign, then
    one digit or more, and nothing else; [None] is [ValueError]. *)
Definition int_of_str (s : pystr) : option Z :=
  let '(neg, body) := split_sign s in
  match body with
  | [] => None
  | _ :: _ =>
      if all_digits body
      then Some (if neg then - digits_value body else digits_value body)
      else None
  end.

(** A parsed decimal literal: sign, the digits read as one number, and how
    many of them stand after the point. *)
Record decimal := Decimal { dec_neg : bool; dec_digits : Z; dec_scale : nat }.

(** The literal accepted by [float(s)] on the same alphabet: an optional
    sign, digits with at most one point among them, and one digit at
    least; [None] is [ValueError]. *)
Definition decimal_of_str (s : pystr) : option decimal :=
  let '(neg, body) := split_sign s in
  let k := str_find body (lit ".") in
  let '(ipart, fpart) :=
    if k <? 0 then (body, [])
    else (take (Z.to_nat k) body, drop (S (Z.to_nat k)) body) in
  if all_digits ipart && all_digits fpart
     && negb (Nat.eqb (length ipart + length fpart) 0)
  then Some (Decimal neg (digits_value (ipart ++ fpart)) (length fpart))
  else None.

(** ** Python numbers *)

(** The interpreter's binary64 arithmetic is not part of the emulator: the
    model takes it as an interface.  Text is parsed by [decimal_of_str]
    before it reaches [float_of_decimal], so which strings [float] accepts
    is decided in the model, and only the rounding is left to the
    interface. *)
Class PyFloat := {
  pyfloat : Type;
  float_of_decimal : decimal -> pyfloat;      (* float(text) *)
  float_of_int : Z -> pyfloat;                (* an int operand of a float operation *)
  int_truediv : Z -> Z -> pyfloat;            (* a / b on two ints, b <> 0 *)
  fadd : pyfloat -> pyfloat -> pyfloat;
  fsub : pyfloat -> pyfloat -> pyfloat;
  fmul : pyfloat -> pyfloat -> pyfloat;
  fdiv : pyfloat -> pyfloat -> pyfloat;       (* divisor <> 0 *)
  fmod : pyfloat -> pyfloat -> pyfloat;       (* divisor <> 0 *)
  fpow : pyfloat -> pyfloat -> pyfloat;
  fabs : pyfloat -> pyfloat;
  fis_zero : pyfloat -> bool;                 (* x == 0 *)
  fis_neg : pyfloat -> bool;                  (* x < 0 *)
  str_of_float : pyfloat -> pystr             (* str(x) *)
}.

(** An instance to evaluate the model with on integer inputs, where no
    float is ever computed: every operation returns the one value. *)
Definition integer_only : PyFloat := {|
  pyfloat := unit;
  float_of_decimal _ := tt;
  float_of_int _ := tt;
  int_truediv _ _ := tt;
  fadd _ _ := tt;
  fsub _ _ := tt;
  fmul _ _ := tt;
  fdiv _ _ := tt;
  fmod _ _ := tt;
  fpow _ _ := tt;
  fabs _ := tt;
  fis_zero _ := false;
  fis_neg _ := false;
  str_of_float _ := lit "nan"
|}.

Inductive exn :=
  | IndexError
  | ValueError
  | ZeroDivisionError
  | TypeError
  | SyntaxError
  | NameError
  | EOFError
  | Exception (msg : pystr).

(** ** The module's state *)

(** Registers max length: 22 digits, float position and sign. *)
Definition REG_LEN_MAX : nat := 24.

(** A numpy array of shorts. *)
Abbreviation ndarray := (list Z).

(** Arithmetic on shorts, and the store of an int into a short, keep the
    low 16 bits. *)
Definition wrap16 (v : Z) : Z := (v + 32768) mod 65536 - 32768.

(** The attributes of a [Register] object: [reg] refers to an array of the
    store, it does not hold one. *)
Record Register := mkRegister { reg : nat; float_active : bool }.

(** The module-level names bound to [Register()] instances. *)
Inductive name := M | A | R | B | C | D | E | F.

Definition name_eqb (x y : name) : bool :=
  match x, y with
  | M, M | A, A | R, R | B, B | C, C | D, D | E, E | F, F => true
  | _, _ => false
  end.

Record bank := Bank {
  reg_M : Register; reg_A : Register; reg_R : Register; reg_B : Register;
  reg_C : Register; reg_D : Register; reg_E : Register; reg_F : Register
}.

Definition lookup_register (b : bank) (x : name) : Register :=
  match x with
  | M => reg_M b | A => reg_A b | R => reg_R b | B => reg_B b
  | C => reg_C b | D => reg_D b | E => reg_E b | F => reg_F b
  end.

Definition update_register (b : bank) (x : name) (r : Register) : bank :=
  let '(Bank m a r0 b0 c d e f) := b in
  match x with
  | M => Bank r a r0 b0 c d e f
  | A => Bank m r r0 b0 c d e f
  | R => Bank m a r b0 c d e f
  | B => Bank m a r0 r c d e f
  | C => Bank m a r0 b0 r d e f
  | D => Bank m a r0 b0 c r e f
  | E => Bank m a r0 b0 c d r f
  | F => Bank m a r0 b0 c d e r
  end.

(** [n_digits] starts as the int [0]; the [d] key rebinds it to the text
    that [input()] returns. *)
Inductive setting := SInt (z : Z) | SStr (s : pystr).

(** What the program writes: a line of text, the dump of one array by
    [print_registers] (numpy's layout of it is not modelled), and the
    entry into the debugger. *)
Inductive event :=
  | Print (line : pystr)
  | PrintArray (label : pystr) (cells : ndarray)
  | Breakpoint.

Record world := World {
  store : list ndarray;
  registers : bank;
  previous_key : pystr;
  previous_key_backup : pystr;
  n_digits : setting;
  stdin : list pystr;
  stdout : list event
}.

Definition with_store (h : list ndarray) (w : world) : world :=
  World h (registers w) (previous_key w) (previous_key_backup w)
        (n_digits w) (stdin w) (stdout w).

Definition with_registers (b : bank) (w : world) : world :=
  World (store w) b (previous_key w) (previous_key_backup w)
        (n_digits w) (stdin w) (stdout w).

Definition with_previous_key (k : pystr) (w : world) : world :=
  World (store w) (registers w) k (previous_key_backup w)
        (n_digits w) (stdin w) (stdout w).

Definition with_previous_key_backup (k : pystr) (w : world) : world :=
  World (store w) (registers w) (previous_key w) k
        (n_digits w) (stdin w) (stdout w).

Definition with_n_digits (n : setting) (w : world) : world :=
  World (store w) (registers w) (previous_key w) (previous_key_backup w)
        n (stdin w) (stdout w).

Definition with_stdin (i : list pystr) (w : world) : world :=
  World (store w) (registers w) (previous_key w) (previous_key_backup w)
        (n_digits w) i (stdout w).

Definition with_stdout (o : list event) (w : world) : world :=
  World (store w) (registers w) (previous_key w) (previous_key_backup w)
        (n_digits w) (stdin w) o.

(** ** Computations: state, output and exceptions *)

Inductive result (X : Type) :=
  | Ret (x : X) (w : world)
  | Raise (e : exn) (w : world).
Arguments Ret {X} x w.
Arguments Raise {X} e w.

Definition Py (X : Type) : Type := world -> result X.

Definition ret {X} (x : X) : Py X := fun w => Ret x w.
Definition raise {X} (e : exn) : Py X := fun w => Raise e w.

Definition bind {X Y} (m : Py X) (k : X -> Py Y) : Py Y :=
  fun w => match m w with
           | Ret x w' => k x w'
           | Raise e w' => Raise e w'
           end.

(** [try: body except: handler], for the one exception class [catches]
    accepts. *)
Definition try_except {X} (body : Py X) (catches : exn -> bool)
    (handler : Py X) : Py X :=
  fun w => match body w with
           | Ret x w' => Ret x w'
           | Raise e w' => if catches e then handler w' else Raise e w'
           end.

Declare Scope py_scope.
Delimit Scope py_scope with py.
Notation "x <- m ;; k" := (bind m (fun x => k))
  (at level 100, m at next level, right associativity) : py_scope.
Notation "m ;; k" := (bind m (fun _ => k))
  (at level 100, right associativity) : py_scope.
#[local] Open Scope py_scope.

Definition get {X} (f : world -> X) : Py X := fun w => Ret (f w) w.
Definition modify (f : world -> world) : Py unit := fun w => Ret tt (f w).

Definition print (line : pystr) : Py unit :=
  modify (fun w => with_stdout (stdout w ++ [Print line]) w).

(** [input()]: the next line of the console, [EOFError] at its end. *)
Definition input : Py pystr :=
  fun w => match stdin w with
           | line :: rest => Ret line (with_stdin rest w)
           | [] => Raise EOFError w
           end.

(** ** class Register *)

(** The array [self.reg] refers to.  A reference always comes from
    [np.zeros] or from another register, so it is in the store; outside of
    it the model reads the empty array. *)
Definition array_of (self : name) (w : world) : ndarray :=
  default [] (store w !! reg (lookup_register (registers w) self)).

(** [self.reg[i]] for an index [i >= 0]: [IndexError] outside the array. *)
Definition getitem (self : name) (i : nat) : Py Z :=
  fun w => match array_of self w !! i with
           | Some v => Ret v w
           | None => Raise IndexError w
           end.

(** [self.reg[i] = v] for a short [v]: in place, in the array every
    register that refers to it sees; [IndexError] outside the array. *)
Definition setitem (self : name) (i : nat) (v : Z) : Py unit :=
  fun w =>
    let l := reg (lookup_register (registers w) self) in
    let a := array_of self w in
    if (i <? length a)%nat
    then Ret tt (with_store (<[l := <[i := v]> a]> (store w)) w)
    else Raise IndexError w.

(** [self.reg[i] = n] for a Python int [n], which the store converts to a
    short. *)
Definition setitem_int (self : name) (i : nat) (n : Z) : Py unit :=
  setitem self i (wrap16 n).

Definition get_float_active (self : name) : Py bool :=
  get (fun w => float_active (lookup_register (registers w) self)).

Definition set_float_active (self : name) (b : bool) : Py unit :=
  modify (fun w =>
    let r := lookup_register (registers w) self in
    with_registers (update_register (registers w) self (mkRegister (reg r) b)) w).

(** [self.reg = <the array at l>] *)
Definition set_reg (self : name) (l : nat) : Py unit :=
  modify (fun w =>
    let r := lookup_register (registers w) self in
    with_registers
      (update_register (registers w) self (mkRegister l (float_active r))) w).

(** [np.zeros((REG_LEN_MAX), dtype='short')]: a new array, at a new place
    of the store. *)
Definition np_zeros : Py nat :=
  fun w => Ret (length (store w))
               (with_store (store w ++ [replicate REG_LEN_MAX 0]) w).

(** Number of digits after the floating point. *)
Definition float_pos (self : name) : Py Z := getitem self 22.

Definition set_float_pos (self : name) (pos : Z) : Py unit :=
  setitem_int self 22 pos.

(** Sign of the register. Default is +. *)
Definition sign (self : name) : Py pystr :=
  s <- getitem self 23 ;;
  ret (if s =? 0 then lit "+" else lit "-").

(** Set register sign. 1 corresponds to -. *)
Definition set_sign (self : name) (value : pystr) : Py unit :=
  setitem self 23 (if str_eqb value (lit "-") then 1 else 0).

(** Return True if register is full. *)
Definition is_full (self : name) : Py bool :=
  top <- getitem self 21 ;;
  pos <- float_pos self ;;
  ret (negb ((top =? 0) && negb (pos =? 21))).

(** The indices of [range(REG_LEN_MAX-3, 0, -1)]: 21, 20, ..., 1. *)
Definition shift_range : list nat := rev (seq 1 (REG_LEN_MAX - 3)).

Fixpoint for_each {X} (xs : list X) (body : X -> Py unit) : Py unit :=
  match xs with
  | [] => ret tt
  | x :: xs' => body x ;; for_each xs' body
  end.

(** Shift all digits in a register right by 1. *)
Definition shift (self : name) : Py unit :=
  for_each shift_range (fun i =>
    v <- getitem self (i - 1) ;;
    setitem self i v) ;;
  fa <- get_float_active self ;;
  if fa then
    pos <- float_pos self ;;
    set_float_pos self (pos + 1)
  else ret tt.

(** Erase a register. *)
Definition erase (self : name) : Py unit :=
  l <- np_zeros ;;
  set_reg self l ;;
  set_float_active self false ;;
  set_sign self (lit "+").

Section Emulator.

Context {FL : PyFloat}.

(** A value of [read_register]: an [int] or a [float]. *)
Inductive pyval :=
  | VInt (z : Z)
  | VFloat (x : pyfloat).

Definition to_float (v : pyval) : pyfloat :=
  match v with
  | VInt z => float_of_int z
  | VFloat x => x
  end.

Definition is_zero (v : pyval) : bool :=
  match v with
  | VInt z => z =? 0
  | VFloat x => fis_zero x
  end.

Definition str (v : pyval) : pystr :=
  match v with
  | VInt z => str_of_int z
  | VFloat x => str_of_float x
  end.

Definition py_add (a b : pyval) : pyval :=
  match a, b with
  | VInt x, VInt y => VInt (x + y)
  | _, _ => VFloat (fadd (to_float a) (to_float b))
  end.

Definition py_sub (a b : pyval) : pyval :=
  match a, b with
  | VInt x, VInt y => VInt (x - y)
  | _, _ => VFloat (fsub (to_float a) (to_float b))
  end.

Definition py_mul (a b : pyval) : pyval :=
  match a, b with
  | VInt x, VInt y => VInt (x * y)
  | _, _ => VFloat (fmul (to_float a) (to_float b))
  end.

(** [a / b]: true division, a float also on two ints. *)
Definition py_truediv (a b : pyval) : Py pyval :=
  if is_zero b then raise ZeroDivisionError
  else ret (match a, b with
            | VInt x, VInt y => VFloat (int_truediv x y)
            | _, _ => VFloat (fdiv (to_float a) (to_float b))
            end).

(** [a % b]: on ints the result has the sign of the divisor, as [Z.modulo]. *)
Definition py_mod (a b : pyval) : Py pyval :=
  if is_zero b then raise ZeroDivisionError
  else ret (match a, b with
            | VInt x, VInt y => VInt (x mod y)
            | _, _ => VFloat (fmod (to_float a) (to_float b))
            end).

(** [v < 0] *)
Definition py_negative (v : pyval) : bool :=
  match v with
  | VInt z => z <? 0
  | VFloat x => fis_neg x
  end.

(** [v ** 0.5] *)
Definition py_sqrt (v : pyval) : pyval :=
  VFloat (fpow (to_float v) (float_of_decimal (Decimal false 5 1))).

Definition py_abs (v : pyval) : pyval :=
  match v with
  | VInt z => VInt (Z.abs z)
  | VFloat x => VFloat (fabs x)
  end.

(** Convert register array to the corresponding value. *)
Definition read_register (self : name) : Py pyval :=
  a <- get (array_of self) ;;
  (* Convert array representation to string. *)
  let reg_value := concat (map str_of_int (take 22 a)) in
  (* Add sign and reverse it. *)
  sg <- sign self ;;
  let reg_value := rev (reg_value ++ sg) in
  fa <- get_float_active self ;;
  if fa then
    pos <- float_pos self ;;
    let reg_value :=
      slice_to reg_value (wrap16 (- pos)) ++ lit "."
      ++ slice_from reg_value (wrap16 (- pos)) in
    match decimal_of_str reg_value with
    | Some d => ret (VFloat (float_of_decimal d))
    | None => raise ValueError
    end
  else
    match int_of_str reg_value with
    | Some z => ret (VInt z)
    | None => raise ValueError
    end.

(** [self.float_pos > n_digits]: a short against an int, or against the
    text the [d] key left, which raises. *)
Definition gt_n_digits (pos : Z) : Py bool :=
  n <- get n_digits ;;
  match n with
  | SInt z => ret (z <? pos)
  | SStr _ => raise TypeError
  end.

Definition write_digits (self : name) (value : pystr) : Py unit :=
  for_each (imap (fun i x => (i, x)) (rev value)) (fun '(i, x) =>
    if isdigit x then setitem_int self i (digit_value x) else raise ValueError).

(** Convert value to register array representation. *)
Definition write_register (self : name) (v : pyval) : Py unit :=
  try_except
    (let value := str v in
     match value with
     | [] => raise IndexError
     | c0 :: _ =>
         set_sign self [c0] ;;
         let value := if isdigit c0 then value else slice_from value 1 in
         value <-
           (if str_in (lit ".") value then
              set_float_pos self (str_find (rev value) (lit ".")) ;;
              pos <- float_pos self ;;
              over <- gt_n_digits pos ;;
              value <-
                (if over then
                   n <- get n_digits ;;
                   match n with
                   | SInt z =>
                       let value := slice_to value (- pos + z) in  (* truncate *)
                       set_float_pos self z ;;
                       ret value
                   | SStr _ => raise TypeError
                   end
                 else ret value) ;;
              set_float_active self true ;;
              ret (remove_char (chr ".") value)
            else ret value) ;;
         (* Write each digit at the matching index in the register. *)
         write_digits self value
     end)
    (fun e => match e with IndexError => true | _ => false end)
    (raise (Exception (lit "Value too big for register."))).

(** ** Module-level functions *)

(** [int(s)] *)
Definition int (s : pystr) : Py Z :=
  match int_of_str s with
  | Some z => ret z
  | None => raise ValueError
  end.

(** Print the content of all the registers. *)
Definition print_registers : Py unit :=
  for_each
    [(lit "M:", M); (lit "A:", A); (lit "R:", R); (lit "B:", B);
     (lit "C:", C); (lit "D:", D); (lit "E:", E); (lit "F:", F)]
    (fun '(label, x) =>
       a <- get (array_of x) ;;
       modify (fun w => with_stdout (stdout w ++ [PrintArray label a]) w)).

Definition breakpoint : Py unit :=
  modify (fun w => with_stdout (stdout w ++ [Breakpoint]) w).

(** The line [print_result] writes for [value] when [n_digits] is the
    int [n]: the text of the value, then one ["0"] for each step of
    [range(n - str(value)[::-1].find('.'))]. *)
Definition format_result (value : pystr) (n : Z) : pystr :=
  value ++ replicate (Z.to_nat (n - str_find (rev value) (lit "."))) (chr "0").

(** Print result and fill zeros. *)
Definition print_result (value : pyval) : Py unit :=
  n <- get n_digits ;;
  match n with
  | SInt z => print (format_result (str value) z)
  | SStr _ => raise TypeError
  end.

(** The keys outside ASCII, by code point. *)
Definition key_times : pystr := [215%N].    (* U+00D7 multiplication sign *)
Definition key_divide : pystr := [247%N].   (* U+00F7 division sign *)
Definition key_sqrt : pystr := [8730%N].    (* U+221A square root *)
Definition key_lozenge : pystr := [9674%N]. (* U+25CA lozenge *)
Definition key_down : pystr := [8595%N].    (* U+2193 downwards arrow *)
Definition key_up : pystr := [8593%N].      (* U+2191 upwards arrow *)
Definition key_updown : pystr := [8597%N].  (* U+2195 up down arrow *)

(** The global a one-letter identifier is bound to, when it is bound to a
    register. *)
Definition global_register (ident : pystr) : option name :=
  if str_eqb ident (lit "M") then Some M
  else if str_eqb ident (lit "A") then Some A
  else if str_eqb ident (lit "R") then Some R
  else if str_eqb ident (lit "B") then Some B
  else if str_eqb ident (lit "C") then Some C
  else if str_eqb ident (lit "D") then Some D
  else if str_eqb ident (lit "E") then Some E
  else if str_eqb ident (lit "F") then Some F
  else None.

Definition is_letter (c : N) : bool :=
  ((65 <=? c) && (c <=? 90) || (97 <=? c) && (c <=? 122) || (c =? 95))%N.

Definition is_identifier (s : pystr) : bool :=
  match s with
  | [] => false
  | c :: s' => is_letter c && forallb (fun x => is_letter x || isdigit x) s'
  end.

(** The object an interpolated identifier denotes when [exec] runs the
    statement built around it.  The code interpolates [previous_key], which
    its guards make a substring of ['ARBCDEF'], and once [pressed_key],
    which is ['*'] there: one capital of the eight names a register, text
    that is no identifier (the empty text, ['*']) does not parse, and any
    other identifier among these is unbound. *)
Definition resolve (ident : pystr) : Py name :=
  match global_register ident with
  | Some x => ret x
  | None => if is_identifier ident then raise NameError else raise SyntaxError
  end.

(** How the body of the [while] leaves a branch: [continue], or on to the
    statements after the [if] chain. *)
Inductive flow := Continue | Next.

(** [not n_digits] *)
Definition not_n_digits (n : setting) : bool :=
  match n with
  | SInt z => z =? 0
  | SStr s => match s with [] => true | _ => false end
  end.

(** The [if]/[elif] chain of [loop], for a one-character [pressed_key]. *)
Definition dispatch (pressed_key : pystr) : Py flow :=
  previous <- get previous_key ;;
  (* Process key: 0, 1, 2, 3, 4, 5, 6, 7, 8, 9. *)
  if str_in pressed_key (lit "0123456789") then
    (if str_in previous (lit "0123456789,") then
       full <- is_full M ;;
       if negb full then  (* add digit to M register *)
         shift M ;;
         digit <- int pressed_key ;;
         setitem_int M 0 digit
       else print (lit "error: M.reg is full")
     else
       erase M ;;  (* erase M register *)
       digit <- int pressed_key ;;
       setitem_int M 0 digit) ;;
    ret Next
  (* Process key: ,. *)
  else if str_eqb pressed_key (lit ",") then
    if str_in previous (lit "0123456789") then
      set_float_active M true ;; ret Next
    else ret Continue  (* ignore key *)
  (* Process key: sign -. *)
  else if str_eqb pressed_key (lit "_") then
    set_sign M (lit "-") ;; ret Next
  (* Process key: +. *)
  else if str_eqb pressed_key (lit "+") then
    m <- read_register M ;;
    a <- read_register A ;;
    write_register A (py_add m a) ;; ret Next
  (* Process key: operator -. *)
  else if str_eqb pressed_key (lit "-") then
    m <- read_register M ;;
    a <- read_register A ;;
    write_register A (py_sub m a) ;; ret Next
  (* Process key: multiplication. *)
  else if str_eqb pressed_key key_times then
    m <- read_register M ;;
    a <- read_register A ;;
    let value := py_mul m a in
    write_register A value ;;
    write_register R value ;;
    print_result value ;; ret Next
  (* Process key: division. *)
  else if str_eqb pressed_key key_divide then
    quotient <-
      try_except
        (m <- read_register M ;;
         a <- read_register A ;;
         value <- py_truediv m a ;;
         n <- get n_digits ;;
         (if not_n_digits n then
            m <- read_register M ;;
            a <- read_register A ;;
            remainder <- py_mod m a ;;
            write_register R remainder
          else ret tt) ;;
         ret (Some value))
        (fun e => match e with ZeroDivisionError => true | _ => false end)
        (print (lit "error: division by zero") ;; ret None) ;;
    match quotient with
    | None => ret Continue
    | Some value =>
        write_register A value ;;
        print_result value ;; ret Next
    end
  (* Process key: square root. *)
  else if str_eqb pressed_key key_sqrt then
    value <- read_register M ;;
    if py_negative value then
      print (lit "error: squared root of negative number") ;; ret Continue
    else
      let value := py_sqrt value in
      write_register A value ;;
      write_register M (py_mul (VInt 2) value) ;;
      print_result value ;; ret Next
  (* Process key: lozenge. *)
  else if str_eqb pressed_key key_lozenge then
    (if str_in previous (lit "BCDEF") then  (* print selected register *)
       x <- resolve previous ;;
       value <- read_register x ;;
       print (str value)
     else  (* print M register by default *)
       value <- read_register M ;;
       print_result value) ;;
    ret Next
  (* Process key: *. *)
  else if str_eqb pressed_key (lit "*") then
    (if str_in previous (lit "ARBCDEF") then  (* print selected register *)
       x <- resolve previous ;;
       value <- read_register x ;;
       print (str value) ;;
       if negb (str_eqb pressed_key (lit "R")) then  (* erase register if not R *)
         y <- resolve pressed_key ;;
         erase y
       else ret tt
     else
       value <- read_register M ;;
       print_result value) ;;
    ret Next
  (* Process key: r. *)
  else if str_eqb pressed_key (lit "r") then
    erase M ;; erase A ;; erase R ;; erase B ;;
    erase C ;; erase D ;; erase E ;; erase F ;;
    ret Next
  (* Process key: u. *)
  else if str_eqb pressed_key (lit "u") then
    backup <- get previous_key_backup ;;
    modify (with_previous_key backup) ;; ret Next
  (* Process key: down. *)
  else if str_eqb pressed_key key_down then
    l <- get (fun w => reg (lookup_register (registers w) M)) ;;
    set_reg A l ;; ret Next
  (* Process key: up. *)
  else if str_eqb pressed_key key_up && str_in previous (lit "BCDEF") then
    l <- get (fun w => reg (lookup_register (registers w) M)) ;;
    x <- resolve previous ;;
    set_reg x l ;; ret Next
  (* Process key: up down. *)
  else if str_eqb pressed_key key_updown then
    (if str_eqb previous (lit "A") then
       a <- read_register A ;;
       write_register A (py_abs a)
     else if str_in previous (lit "BCDEF") then
       value <- read_register A ;;
       (* the statement handed to [exec] closes one parenthesis too many *)
       raise SyntaxError
     else ret tt) ;;
    ret Next
  (* Process key d. *)
  else if str_eqb pressed_key (lit "d") then
    line <- input ;;
    modify (with_n_digits (SStr line)) ;; ret Next
  (* Debug key. *)
  else if str_eqb pressed_key (lit "P") then
    print_registers ;;
    breakpoint ;; ret Next
  else ret Next.

(** One turn of [while True]. *)
Definition loop_body : Py unit :=
  (* Get input key from user. *)
  pressed_key <- input ;;
  if negb (len pressed_key =? 1) then ret tt  (* skip invalid input *)
  else
    f <- dispatch pressed_key ;;
    match f with
    | Continue => ret tt
    | Next =>
        modify (with_previous_key pressed_key) ;;  (* update previous key *)
        current <- get previous_key ;;
        modify (with_previous_key_backup current)
    end.

(** The first [turns] turns of the main loop. *)
Fixpoint loop (turns : nat) : Py unit :=
  match turns with
  | O => ret tt
  | S n => loop_body ;; loop n
  end.

End Emulator.

(** The state the module body leaves: eight registers, each on an array of
    its own, and an empty context. *)
Definition initial_world (keys : list pystr) : world :=
  World (replicate 8 (replicate REG_LEN_MAX 0))
        (Bank (mkRegister 0 false) (mkRegister 1 false) (mkRegister 2 false)
              (mkRegister 3 false) (mkRegister 4 false) (mkRegister 5 false)
              (mkRegister 6 false) (mkRegister 7 false))
        [] [] (SInt 0) keys [].

(** ** Vocabulary of the properties *)

(** The key of the decimal digit [d]. *)
Definition digit_key (d : Z) : pystr := str_of_int d.

(** The character of the decimal digit [d]. *)
Definition digit_char (d : Z) : N := N.of_nat (48 + Z.to_nat d).

(** The integer a sequence of decimal digits forms, first digit most
    significant. *)
Definition number (ds : list Z) : Z :=
  fold_left (fun acc d => 10 * acc + d) ds 0.

(** A context that is one character, and that character a digit. *)
Definition is_digit_key (k : pystr) : bool :=
  match k with
  | [c] => isdigit c
  | _ => false
  end.

(** The keys the [if] chain of [loop] tests [pressed_key] against. *)
Definition dispatched (k : pystr) : bool :=
  str_in k (lit "0123456789")
  || str_eqb k (lit ",") || str_eqb k (lit "_") || str_eqb k (lit "+")
  || str_eqb k (lit "-") || str_eqb k key_times || str_eqb k key_divide
  || str_eqb k key_sqrt || str_eqb k key_lozenge || str_eqb k (lit "*")
  || str_eqb k (lit "r") || str_eqb k (lit "u") || str_eqb k key_down
  || str_eqb k key_up || str_eqb k key_updown || str_eqb k (lit "d")
  || str_eqb k (lit "P").

(** [self.reg] refers to the array [a]. *)
Definition points_to (self : name) (a : ndarray) (w : world) : Prop :=
  store w !! reg (lookup_register (registers w) self) = Some a.

(** M after the digits [ds] were keyed in, the last one at index 0: no
    float, sign [+], and a digit or a comma as the context. *)
Definition entered (ds : list Z) (w : world) : Prop :=
  points_to M (rev ds ++ replicate (REG_LEN_MAX - length ds) 0) w
  /\ float_active (lookup_register (registers w) M) = false
  /\ str_in (previous_key w) (lit "0123456789,") = true.

(** The context in which a digit key starts a number: a key that is
    neither a digit nor the comma, or the empty context of the start of the
    program, when M is still the zero register. *)
Definition fresh_context (w : world) : Prop :=
  str_in (previous_key w) (lit "0123456789,") = false
  \/ (previous_key w = []
      /\ points_to M (replicate REG_LEN_MAX 0) w
      /\ float_active (lookup_register (registers w) M) = false).

(** The copy [shift] makes cell by cell, on the array itself. *)
Definition copy_cells (indices : list nat) (a : ndarray) : ndarray :=
  fold_left (fun a i => <[i := default 0 (a !! (i - 1)%nat)]> a) indices a.

(** The start of the program, but with [k] as the key processed last. *)
Definition context_world (k : pystr) (keys : list pystr) : world :=
  with_previous_key k (with_previous_key_backup k (initial_world keys)).

Section Run.

Context {FL : PyFloat}.

(** The program run on the console lines [keys], one turn per line (the
    [d] key, which reads a second line, is not among the keys of the runs
    below). *)
Definition run (keys : list pystr) : result unit :=
  loop (length keys) (initial_world keys).

(** The world a computation stops in, whether it returns or raises. *)
Definition final {X} (r : result X) : world :=
  match r with
  | Ret _ w => w
  | Raise _ w => w
  end.

(** What [read_register] gives in a world: the value, or the exception. *)
Definition reads (self : name) (w : world) : exn + pyval :=
  match read_register self w with
  | Ret v _ => inr v
  | Raise e _ => inl e
  end.

End Run.

(** ** Version 1.2 (emulator - modified.py)

    The older file has the same [Register] class but for [erase] and
    [write_register], fewer keys, and no [continue] after the length test:
    every one-character line becomes [previous_key]. *)
Module Modified.
Section Emulator.

Context {FL : PyFloat}.

(** Erase a register. *)
Definition erase (self : name) : Py unit :=
  l <- np_zeros ;;
  set_reg self l ;;
  set_float_active self false.

(** Convert value to register array representation. *)
Definition write_register (self : name) (v : pyval) : Py unit :=
  let value := str v in
  match value with
  | [] => raise IndexError
  | c0 :: _ =>
      set_sign self [c0] ;;
      let value := if isdigit c0 then value else slice_from value 1 in
      value <-
        (if str_in (lit ".") value then
           set_float_pos self (str_find (rev value) (lit ".")) ;;
           set_float_active self true ;;
           ret (remove_char (chr ".") value)
         else ret value) ;;
      (* Write each digit at the matching index in the register. *)
      write_digits self value
  end.

(** The [if]/[elif] chain of [main], for a one-character [pressed_key]. *)
Definition dispatch (pressed_key : pystr) : Py unit :=
  previous <- get previous_key ;;
  (* Process key: 0, 1, 2, 3, 4, 5, 6, 7, 8, 9. *)
  if str_in pressed_key (lit "0123456789") then
    if str_in previous (lit "0123456789,") then
      full <- is_full M ;;
      if negb full then  (* add digit to M register *)
        shift M ;;
        digit <- int pressed_key ;;
        setitem_int M 0 digit
      else print (lit "error: M.reg is full")
    else
      erase M ;;  (* erase M register *)
      digit <- int pressed_key ;;
      setitem_int M 0 digit
  (* Process key: ,. *)
  else if str_eqb pressed_key (lit ",") && str_in previous (lit "0123456789") then
    set_float_active M true
  (* Process key: lozenge. *)
  else if str_eqb pressed_key key_lozenge then
    if str_in previous (lit "MBCDEF") then  (* print selected register *)
      x <- resolve previous ;;
      value <- read_register x ;;
      print (str value)
    else  (* print M register by default *)
      value <- read_register M ;;
      print (str value)
  (* Process key: down. *)
  else if str_eqb pressed_key key_down then
    l <- get (fun w => reg (lookup_register (registers w) M)) ;;
    set_reg A l
  (* Process key: up. *)
  else if str_eqb pressed_key key_up && str_in previous (lit "BCDEF") then
    l <- get (fun w => reg (lookup_register (registers w) M)) ;;
    x <- resolve previous ;;
    set_reg x l
  (* Debug key. *)
  else if str_eqb pressed_key (lit "P") then
    print_registers ;;
    breakpoint
  else ret tt.

(** One turn of [while True]. *)
Definition main_body : Py unit :=
  (* Get input key from user. *)
  pressed_key <- input ;;
  if negb (len pressed_key =? 1) then ret tt  (* skip invalid input *)
  else
    dispatch pressed_key ;;
    modify (with_previous_key pressed_key).  (* update previous key *)

(** The first [turns] turns of [main]. *)
Fixpoint main (turns : nat) : Py unit :=
  match turns with
  | O => ret tt
  | S n => main_body ;; main n
  end.

End Emulator.
End Modified.

(** ** Vocabulary of the further properties *)

Section ReadArray.

Context {FL : PyFloat}.

(** What [read_register] computes from the array and the float flag. *)
Definition read_array (a : ndarray) (active : bool) : exn + pyval :=
  match a !! 23%nat with
  | None => inl IndexError
  | Some s =>
      let reg_value :=
        rev (concat (map str_of_int (take 22 a))
             ++ (if s =? 0 then lit "+" else lit "-")) in
      if active then
        match a !! 22%nat with
        | None => inl IndexError
        | Some pos =>
            match decimal_of_str
                    (slice_to reg_value (wrap16 (- pos)) ++ lit "."
                     ++ slice_from reg_value (wrap16 (- pos))) with
            | Some d => inr (VFloat (float_of_decimal d))
            | None => inl ValueError
            end
        end
      else
        match int_of_str reg_value with
        | Some z => inr (VInt z)
        | None => inl ValueError
        end
  end.

End ReadArray.

(** The registers after the clear-all key: the eight names on eight new
    arrays, in the order of the calls. *)
Definition cleared_bank (n : nat) : bank :=
  Bank (mkRegister n false) (mkRegister (n + 1) false)
       (mkRegister (n + 2) false) (mkRegister (n + 3) false)
       (mkRegister (n + 4) false) (mkRegister (n + 5) false)
       (mkRegister (n + 6) false) (mkRegister (n + 7) false).

(** M while a number with a point is keyed in: the digits [ds], the last
    one at index 0, of which [p] came after the comma. *)
Definition entered_fraction (ds : list Z) (p : Z) (w : world) : Prop :=
  points_to M (rev ds ++ replicate (22 - length ds) 0 ++ [p; 0]) w
  /\ float_active (lookup_register (registers w) M) = true
  /\ str_in (previous_key w) (lit "0123456789,") = true.

(** M holds the digits [ds], the last one at index 0, with no float and
    sign [+], whatever the context. *)
Definition holds_digits (ds : list Z) (w : world) : Prop :=
  points_to M (rev ds ++ replicate (REG_LEN_MAX - length ds) 0) w
  /\ float_active (lookup_register (registers w) M) = false.

(** The digits of [abs z], as [str] writes them. *)
Definition digits_of (z : Z) : pystr :=
  match Z.to_int z with
  | Decimal.Pos u | Decimal.Neg u => str_of_uint u
  end.

(** The sign character [read_register] puts before the digits. *)
Definition sign_char (s : Z) : N := if s =? 0 then chr "+" else chr "-".

(** An array as [np.zeros(REG_LEN_MAX)] makes it and the program keeps
    it: 24 cells, the first 22 of them decimal digits. *)
Definition digit_cells (a : ndarray) : Prop :=
  length a = REG_LEN_MAX /\ Forall (fun v => 0 <= v <= 9) (take 22 a).

(** The state the program keeps: arrays of digits, every register on an
    array of the store, and a context of one character at most. *)
Definition sound (w : world) : Prop :=
  Forall digit_cells (store w)
  /\ (forall x, (reg (lookup_register (registers w) x) < length (store w))%nat)
  /\ (length (previous_key w) <= 1)%nat
  /\ (length (previous_key_backup w) <= 1)%nat.

(** A computation that keeps the state sound, whether it returns or
    raises. *)
Definition keeps {X} (m : Py X) : Prop :=
  forall w, sound w -> sound (final (m w)).

(** [digit_cells] and [sound] as tests. *)
Definition digit_cellsb (a : ndarray) : bool :=
  (length a =? REG_LEN_MAX)%nat
  && forallb (fun v => (0 <=? v) && (v <=? 9)) (take 22 a).

Definition soundb (w : world) : bool :=
  forallb digit_cellsb (store w)
  && forallb (fun x => (reg (lookup_register (registers w) x) <? length (store w))%nat)
       [M; A; R; B; C; D; E; F]
  && (length (previous_key w) <=? 1)%nat
  && (length (previous_key_backup w) <=? 1)%nat.

(** * Properties *)

(** ** Sequencing and the store *)

Lemma bind_Ret {X Y} (m : Py X) (k : X -> Py Y) w x w' :
  m w = Ret x w' -> bind m k w = k x w'.
Proof. unfold bind. by intros ->. Qed.

Lemma bind_Raise {X Y} (m : Py X) (k : X -> Py Y) w e w' :
  m w = Raise e w' -> bind m k w = Raise e w'.
Proof. unfold bind. by intros ->. Qed.

Lemma with_store_id w : with_store (store w) w = w.
Proof. by destruct w. Qed.

Lemma with_store_twice h1 h2 w : with_store h2 (with_store h1 w) = with_store h2 w.
Proof. reflexivity. Qed.

Lemma lookup_update_register b x r : lookup_register (update_register b x r) x = r.
Proof. by destruct b, x. Qed.

Lemma array_of_points_to self a w : points_to self a w -> array_of self w = a.
Proof. unfold points_to, array_of. by intros ->. Qed.

Lemma points_to_with_store self a h w :
  h !! reg (lookup_register (registers w) self) = Some a ->
  points_to self a (with_store h w).
Proof. done. Qed.

Lemma getitem_points_to self a i v w :
  points_to self a w -> a !! i = Some v -> getitem self i w = Ret v w.
Proof.
  intros Ha Hi. unfold getitem. by rewrite (array_of_points_to _ _ _ Ha), Hi.
Qed.

Lemma setitem_points_to self a i v w :
  points_to self a w -> (i < length a)%nat ->
  setitem self i v w =
    Ret tt (with_store (<[reg (lookup_register (registers w) self) := <[i := v]> a]> (store w)) w).
Proof.
  intros Ha Hi. unfold setitem. rewrite (array_of_points_to _ _ _ Ha).
  by apply Nat.ltb_lt in Hi as ->.
Qed.

Lemma points_to_insert self a b w :
  points_to self a w ->
  points_to self b
    (with_store (<[reg (lookup_register (registers w) self) := b]> (store w)) w).
Proof.
  intros Ha. apply points_to_with_store, list_lookup_insert_eq.
  by apply lookup_lt_Some in Ha.
Qed.

Lemma copy_loop self indices : forall a w,
  points_to self a w ->
  Forall (fun i => 1 <= i < length a)%nat indices ->
  for_each indices (fun i => v <- getitem self (i - 1) ;; setitem self i v) w =
    Ret tt (with_store
              (<[reg (lookup_register (registers w) self) := copy_cells indices a]>
                 (store w)) w).
Proof.
  induction indices as [|i indices IH]; intros a w Ha Hin.
  - cbn. unfold ret. rewrite list_insert_id by done. by rewrite with_store_id.
  - apply Forall_cons in Hin as [Hi Hin].
    destruct (lookup_lt_is_Some_2 a (i - 1)) as [v Hv]; [lia|].
    cbn [for_each]. unfold bind at 1 2.
    rewrite (getitem_points_to _ _ _ _ _ Ha Hv).
    rewrite (setitem_points_to _ _ _ _ _ Ha) by lia.
    rewrite (IH (<[i := v]> a)).
    + cbn [registers with_store store]. rewrite list_insert_insert_eq.
      unfold copy_cells. cbn [fold_left]. by rewrite Hv.
    + by apply (points_to_insert _ a).
    + rewrite length_insert. done.
Qed.

Lemma copy_cells_shift a :
  length a = REG_LEN_MAX ->
  copy_cells shift_range a = take 1 a ++ take 21 a ++ drop 22 a.
Proof.
  intros Hlen. do 24 (destruct a as [|? a]; [discriminate|]).
  destruct a; [|discriminate]. reflexivity.
Qed.

Lemma update_register_twice b x r1 r2 :
  update_register (update_register b x r1) x r2 = update_register b x r2.
Proof. by destruct b, x. Qed.

Lemma is_full_points_to self a t p w :
  points_to self a w -> a !! 21%nat = Some t -> a !! 22%nat = Some p ->
  is_full self w = Ret (negb ((t =? 0) && negb (p =? 21))) w.
Proof.
  intros Ha Ht Hp. unfold is_full, float_pos, bind.
  by rewrite (getitem_points_to _ _ _ _ _ Ha Ht), (getitem_points_to _ _ _ _ _ Ha Hp).
Qed.

Lemma shift_range_bounds : Forall (fun i => 1 <= i < REG_LEN_MAX)%nat shift_range.
Proof. repeat constructor. Qed.

Lemma shift_inactive self a w :
  points_to self a w -> length a = REG_LEN_MAX ->
  float_active (lookup_register (registers w) self) = false ->
  shift self w =
    Ret tt (with_store
              (<[reg (lookup_register (registers w) self) :=
                 take 1 a ++ take 21 a ++ drop 22 a]> (store w)) w).
Proof.
  intros Ha Hlen Hfa. unfold shift.
  erewrite bind_Ret
    by (apply (copy_loop _ _ a); rewrite ?Hlen; auto using shift_range_bounds).
  unfold get_float_active, get, bind. cbn [registers with_store].
  by rewrite Hfa, copy_cells_shift.
Qed.

Lemma erase_eq self w :
  erase self w =
    Ret tt (with_registers
              (update_register (registers w) self
                 (mkRegister (length (store w)) false))
              (with_store (store w ++ [replicate REG_LEN_MAX 0]) w)).
Proof.
  unfold erase, np_zeros, set_reg, set_float_active, set_sign, modify, bind.
  cbn [registers with_registers with_store store].
  rewrite lookup_update_register, update_register_twice. cbn [reg float_active].
  unfold setitem, array_of. cbn [registers with_registers with_store store].
  rewrite lookup_update_register. cbn [reg].
  rewrite list_lookup_middle by done. cbn [default].
  change (23 <? length (replicate REG_LEN_MAX 0))%nat with true. cbv iota.
  rewrite list_insert_id; [done|]. by rewrite list_lookup_middle.
Qed.

(** ** Keys and text *)

(** Decide the tests of the [if] chain on a key that is known. *)
Ltac eval_tests :=
  repeat match goal with
    | |- context [str_in ?k ?s] =>
        let b := eval vm_compute in (str_in k s) in
        match b with
        | true => change (str_in k s) with true
        | false => change (str_in k s) with false
        end
    | |- context [str_eqb ?k ?s] =>
        let b := eval vm_compute in (str_eqb k s) in
        match b with
        | true => change (str_eqb k s) with true
        | false => change (str_eqb k s) with false
        end
    end;
  cbn [andb orb negb]; cbv iota.

Lemma str_in_digits c : str_in [c] (lit "0123456789") = isdigit c.
Proof.
  unfold str_in, str_find, isdigit.
  change (lit "0123456789") with [48; 49; 50; 51; 52; 53; 54; 55; 56; 57]%N.
  cbn [find_from startswith].
  repeat match goal with
    | |- context [N.eqb c ?n] =>
        destruct (N.eqb_spec c n) as [->|?]; [reflexivity|]; cbn [andb]
    end.
  cbn. symmetry. apply andb_false_iff.
  destruct (N.leb_spec 48 c); [right|left; reflexivity].
  apply N.leb_gt. lia.
Qed.

Lemma str_eqb_eq s t : str_eqb s t = true -> s = t.
Proof.
  revert t. induction s as [|c s IH]; intros [|d t] H; try discriminate; [done|].
  cbn in H. apply andb_true_iff in H as [Hc Hs].
  apply N.eqb_eq in Hc as ->. by rewrite (IH t Hs).
Qed.


(** ** Digit entry *)

Section Properties.
Context {FL : PyFloat}.

Lemma loop_body_key key rest w :
  stdin w = key :: rest -> len key = 1 ->
  loop_body w =
    match dispatch key (with_stdin rest w) with
    | Ret Continue w' => Ret tt w'
    | Ret Next w' => Ret tt (with_previous_key_backup key (with_previous_key key w'))
    | Raise e w' => Raise e w'
    end.
Proof.
  intros Hin Hlen. unfold loop_body, bind at 1, input. rewrite Hin, Hlen.
  cbn [Z.eqb Pos.eqb negb]. unfold bind at 1.
  destruct (dispatch key (with_stdin rest w)) as [[] w'|]; reflexivity.
Qed.

Lemma dispatch_digit key w :
  str_in key (lit "0123456789") = true ->
  dispatch key w =
    ((if str_in (previous_key w) (lit "0123456789,") then
        full <- is_full M ;;
        if negb full then
          shift M ;;
          digit <- int key ;;
          setitem_int M 0 digit
        else print (lit "error: M.reg is full")
      else
        erase M ;;
        digit <- int key ;;
        setitem_int M 0 digit) ;;
     ret Next) w.
Proof. intros Hk. unfold dispatch, bind at 1, get. by rewrite Hk. Qed.

Lemma digit_cases d :
  0 <= d <= 9 ->
  d = 0 \/ d = 1 \/ d = 2 \/ d = 3 \/ d = 4 \/ d = 5 \/ d = 6 \/ d = 7 \/ d = 8 \/ d = 9.
Proof. lia. Qed.

Lemma digit_key_facts d :
  0 <= d <= 9 ->
  len (digit_key d) = 1
  /\ str_in (digit_key d) (lit "0123456789") = true
  /\ str_in (digit_key d) (lit "0123456789,") = true
  /\ int_of_str (digit_key d) = Some d
  /\ wrap16 d = d
  /\ digit_key d = [N.of_nat (48 + Z.to_nat d)].
Proof.
  intros Hd. destruct (digit_cases d Hd) as [->|[->|[->|[->|[->|[->|[->|[->|[->| ->]]]]]]]]];
    vm_compute; repeat split.
Qed.

(** The array after one more digit went in at index 0. *)
Lemma shifted_entry d ds :
  (length ds < 22)%nat ->
  <[0%nat := d]>
    (take 1 (rev ds ++ replicate (REG_LEN_MAX - length ds) 0)
     ++ take 21 (rev ds ++ replicate (REG_LEN_MAX - length ds) 0)
     ++ drop 22 (rev ds ++ replicate (REG_LEN_MAX - length ds) 0))
  = rev (ds ++ [d]) ++ replicate (REG_LEN_MAX - length (ds ++ [d])) 0.
Proof.
  intros Hn. unfold REG_LEN_MAX.
  assert (Hr : length (rev ds) = length ds) by apply length_rev.
  rewrite (take_app_ge (rev ds) _ 21), (drop_app_ge (rev ds)) by lia.
  rewrite take_replicate, drop_replicate, rev_app_distr, length_app, Hr.
  cbn [rev app length].
  replace (take 1 (rev ds ++ replicate (24 - length ds) 0))
    with [hd 0 (rev ds ++ replicate (24 - length ds) 0)].
  2:{ destruct (rev ds); cbn; [|done].
      destruct (24 - length ds)%nat eqn:E; [lia|done]. }
  cbn [app]. unfold insert, list_insert. cbn. f_equal.
  rewrite <- app_assoc, <- replicate_add. do 2 f_equal. lia.
Qed.

Lemma entered_cells ds :
  (length ds < 22)%nat ->
  (rev ds ++ replicate (REG_LEN_MAX - length ds) 0) !! 21%nat = Some 0
  /\ (rev ds ++ replicate (REG_LEN_MAX - length ds) 0) !! 22%nat = Some 0
  /\ length (rev ds ++ replicate (REG_LEN_MAX - length ds) 0) = REG_LEN_MAX.
Proof.
  intros Hn. unfold REG_LEN_MAX.
  assert (Hr : length (rev ds) = length ds) by apply length_rev.
  rewrite !lookup_app_r, !lookup_replicate_2, length_app, length_replicate by lia.
  repeat split; lia.
Qed.

Lemma append_digit d a w :
  0 <= d <= 9 -> points_to M a w -> length a = REG_LEN_MAX ->
  a !! 21%nat = Some 0 -> a !! 22%nat = Some 0 ->
  float_active (lookup_register (registers w) M) = false ->
  (full <- is_full M ;;
   if negb full then
     shift M ;;
     digit <- int (digit_key d) ;;
     setitem_int M 0 digit
   else print (lit "error: M.reg is full")) w =
  Ret tt (with_store
            (<[reg (lookup_register (registers w) M) :=
               <[0%nat := d]> (take 1 a ++ take 21 a ++ drop 22 a)]> (store w)) w).
Proof.
  intros Hd Ha Hlen H21 H22 Hfa.
  destruct (digit_key_facts d Hd) as (_ & _ & _ & Hint & Hw & _).
  erewrite bind_Ret by (by apply (is_full_points_to _ a 0 0)).
  cbn [Z.eqb negb andb].
  erewrite bind_Ret by (by apply (shift_inactive _ a)).
  unfold int. rewrite Hint. unfold bind, ret, setitem_int. rewrite Hw.
  erewrite setitem_points_to.
  - cbn [registers with_store store]. by rewrite list_insert_insert_eq.
  - by apply (points_to_insert _ a).
  - rewrite !length_app, !length_take, length_drop, Hlen. unfold REG_LEN_MAX. lia.
Qed.

Lemma next_digit d ds rest w :
  0 <= d <= 9 -> entered ds w -> (length ds < 22)%nat ->
  stdin w = digit_key d :: rest ->
  exists w', loop_body w = Ret tt w' /\ entered (ds ++ [d]) w' /\ stdin w' = rest.
Proof.
  intros Hd (Ha & Hfa & Hpk) Hn Hin.
  destruct (digit_key_facts d Hd) as (Hlen & Hk1 & Hk2 & _).
  destruct (entered_cells ds Hn) as (H21 & H22 & Hl).
  rewrite (loop_body_key _ _ _ Hin Hlen), (dispatch_digit _ _ Hk1).
  cbn [previous_key with_stdin]. rewrite Hpk.
  erewrite bind_Ret by (by apply append_digit).
  unfold ret. eexists. split; [reflexivity|].
  split; [|reflexivity]. repeat split; [|done..].
  unfold points_to. cbn [store registers with_stdin with_store with_previous_key
                          with_previous_key_backup].
  rewrite shifted_entry by done. apply list_lookup_insert_eq.
  by apply lookup_lt_Some in Ha.
Qed.

Lemma first_digit d rest w :
  0 <= d <= 9 -> fresh_context w -> stdin w = digit_key d :: rest ->
  exists w', loop_body w = Ret tt w' /\ entered [d] w' /\ stdin w' = rest.
Proof.
  intros Hd Hctx Hin.
  destruct (digit_key_facts d Hd) as (Hlen & Hk1 & Hk2 & Hint & Hw & _).
  rewrite (loop_body_key _ _ _ Hin Hlen), (dispatch_digit _ _ Hk1).
  cbn [previous_key with_stdin].
  destruct Hctx as [Hpk | (Hpk & Ha & Hfa)].
  - (* after another key: M is erased first *)
    rewrite Hpk.
    erewrite bind_Ret.
    2:{ erewrite bind_Ret by apply erase_eq.
        unfold int. rewrite Hint. unfold bind, ret, setitem_int. rewrite Hw.
        apply (setitem_points_to _ (replicate REG_LEN_MAX 0)); [|cbn; lia].
        unfold points_to. cbn [store registers with_registers with_store].
        rewrite lookup_update_register. cbn [reg with_stdin store].
        by apply list_lookup_middle. }
    unfold ret. eexists. split; [reflexivity|].
    split; [|reflexivity]. repeat split.
    + unfold points_to.
      cbn [store registers with_stdin with_store with_registers
             with_previous_key with_previous_key_backup].
      rewrite lookup_update_register. cbn [reg].
      rewrite list_lookup_insert_eq; [done|]. rewrite length_app. cbn. lia.
    + cbn [store registers with_stdin with_store with_registers
             with_previous_key with_previous_key_backup].
      by rewrite lookup_update_register.
    + done.
  - (* at the start of the program: M is the zero register *)
    rewrite Hpk. change (str_in [] (lit "0123456789,")) with true. cbv iota.
    erewrite bind_Ret by (by apply (append_digit d (replicate REG_LEN_MAX 0))).
    unfold ret. eexists. split; [reflexivity|].
    split; [|reflexivity]. repeat split; [|done..].
    unfold points_to. cbn [store registers with_stdin with_store with_previous_key
                            with_previous_key_backup].
    apply list_lookup_insert_eq. by apply lookup_lt_Some in Ha.
Qed.

Lemma digit_char_facts d :
  0 <= d <= 9 ->
  str_of_int d = [digit_char d] /\ isdigit (digit_char d) = true
  /\ digit_value (digit_char d) = d.
Proof.
  intros Hd. destruct (digit_cases d Hd) as [->|[->|[->|[->|[->|[->|[->|[->|[->| ->]]]]]]]]];
    vm_compute; repeat split.
Qed.

Lemma concat_str_digits ds :
  Forall (fun d => 0 <= d <= 9) ds ->
  concat (map str_of_int ds) = map digit_char ds.
Proof.
  induction 1 as [|d ds Hd _ IH]; [done|].
  cbn [map concat]. rewrite IH.
  by destruct (digit_char_facts d Hd) as (-> & _).
Qed.

Lemma all_digits_chars ds :
  Forall (fun d => 0 <= d <= 9) ds -> all_digits (map digit_char ds) = true.
Proof.
  induction 1 as [|d ds Hd _ IH]; [done|].
  unfold all_digits in *. cbn [map forallb]. rewrite IH.
  by destruct (digit_char_facts d Hd) as (_ & -> & _).
Qed.

Lemma fold_digit_chars ds : forall acc,
  Forall (fun d => 0 <= d <= 9) ds ->
  fold_left (fun acc c => 10 * acc + digit_value c) (map digit_char ds) acc =
  fold_left (fun acc d => 10 * acc + d) ds acc.
Proof.
  induction ds as [|d ds IH]; intros acc Hds; [done|].
  apply Forall_cons in Hds as [Hd Hds]. cbn [map fold_left].
  destruct (digit_char_facts d Hd) as (_ & _ & ->). by apply IH.
Qed.

Lemma fold_leading_zeros k :
  fold_left (fun acc d => 10 * acc + d) (replicate k 0) 0 = 0.
Proof. induction k as [|k IH]; [done|]. exact IH. Qed.

Lemma rev_replicate {X} k (x : X) : rev (replicate k x) = replicate k x.
Proof.
  induction k as [|k IH]; [done|].
  cbn [replicate rev]. rewrite IH. symmetry. apply replicate_S_end.
Qed.

(** The text of an entered register reads as the number keyed in. *)
Lemma int_of_entered ds k :
  Forall (fun d => 0 <= d <= 9) ds -> (0 < k + length ds)%nat ->
  int_of_str
    (rev (concat (map str_of_int (rev ds ++ replicate k 0)) ++ lit "+"))
  = Some (number ds).
Proof.
  intros Hds Hlen.
  assert (Hall : Forall (fun d => 0 <= d <= 9) (replicate k 0 ++ ds)).
  { apply Forall_app. split; [|done]. apply Forall_replicate. lia. }
  rewrite concat_str_digits.
  2:{ apply Forall_app. split; [by apply Forall_rev|]. apply Forall_replicate. lia. }
  rewrite rev_app_distr, <- map_rev, rev_app_distr, rev_involutive, rev_replicate.
  change (rev (lit "+")) with [chr "+"]. cbn [app].
  unfold int_of_str. change (split_sign (chr "+" :: ?s)) with (false, s).
  destruct (map digit_char (replicate k 0 ++ ds)) eqn:E.
  { apply (f_equal length) in E.
    rewrite length_map, length_app, length_replicate in E. cbn in E. lia. }
  rewrite <- E, all_digits_chars by done. f_equal.
  unfold digits_value, number.
  by rewrite fold_digit_chars, fold_left_app, fold_leading_zeros.
Qed.

Lemma read_entered ds w :
  entered ds w -> (length ds <= 22)%nat -> Forall (fun d => 0 <= d <= 9) ds ->
  read_register M w = Ret (VInt (number ds)) w.
Proof.
  intros (Ha & Hfa & _) Hn Hds. unfold read_register, get, bind at 1.
  rewrite (array_of_points_to _ _ _ Ha).
  assert (Hr : length (rev ds) = length ds) by apply length_rev.
  erewrite bind_Ret.
  2:{ unfold sign. erewrite bind_Ret; [reflexivity|].
      apply (getitem_points_to _ _ _ 0 _ Ha). unfold REG_LEN_MAX.
      rewrite lookup_app_r, lookup_replicate_2 by lia. done. }
  cbn [Z.eqb]. unfold get_float_active, get, bind. rewrite Hfa.
  rewrite (take_app_ge (rev ds)), take_replicate by lia.
  rewrite int_of_entered; [done|done|]. unfold REG_LEN_MAX. lia.
Qed.

Lemma digits_run ds2 : forall ds1 rest w,
  entered ds1 w -> (length ds1 + length ds2 <= 22)%nat ->
  Forall (fun d => 0 <= d <= 9) ds2 ->
  stdin w = map digit_key ds2 ++ rest ->
  exists w', loop (length ds2) w = Ret tt w' /\ entered (ds1 ++ ds2) w'
             /\ stdin w' = rest.
Proof.
  induction ds2 as [|d ds2 IH]; intros ds1 rest w Hent Hn Hds Hin.
  - exists w. rewrite app_nil_r. done.
  - apply Forall_cons in Hds as [Hd Hds]. cbn [length] in Hn.
    destruct (next_digit d ds1 (map digit_key ds2 ++ rest) w) as (w1 & Hb & Hent1 & Hin1);
      [done|done|lia|done|].
    destruct (IH (ds1 ++ [d]) rest w1) as (w' & Hl & Hent' & Hin');
      [done|rewrite length_app; cbn; lia|done|done|].
    exists w'. cbn [length loop]. rewrite (bind_Ret _ _ _ _ _ Hb).
    by rewrite <- app_assoc in Hent'.
Qed.

(** C7. After at most 22 digit keys, pressed with no comma in a context
    that is neither a digit nor the comma (or at the start of the program),
    [M.read_register()] is the integer the digits form in the order of
    entry, the last digit the least significant. *)
Theorem digit_entry_reads_back (ds : list Z) (rest : list pystr) (w : world) :
  ds <> [] -> (length ds <= 22)%nat -> Forall (fun d => 0 <= d <= 9) ds ->
  fresh_context w ->
  stdin w = map digit_key ds ++ rest ->
  exists w', loop (length ds) w = Ret tt w'
             /\ read_register M w' = Ret (VInt (number ds)) w'
             /\ stdin w' = rest.
Proof.
  intros Hne Hn Hds Hctx Hin. destruct ds as [|d ds]; [done|].
  apply Forall_cons in Hds as [Hd Hds]. cbn [length] in Hn.
  destruct (first_digit d (map digit_key ds ++ rest) w) as (w1 & Hb & Hent & Hin1);
    [done..|].
  destruct (digits_run ds [d] rest w1) as (w' & Hl & Hent' & Hin');
    [done|cbn; lia|done|done|].
  exists w'. cbn [length loop]. rewrite (bind_Ret _ _ _ _ _ Hb).
  split; [done|]. split; [|done].
  apply read_entered; [done|cbn; lia|by constructor].
Qed.



Lemma loop_body_multichar key rest w :
  stdin w = key :: rest -> len key <> 1 ->
  loop_body w = Ret tt (with_stdin rest w).
Proof.
  intros Hin Hlen. unfold loop_body, bind, input. rewrite Hin.
  by apply Z.eqb_neq in Hlen as ->.
Qed.

Lemma dispatch_unknown key w :
  dispatched key = false -> dispatch key w = Ret Next w.
Proof.
  unfold dispatched. intros H.
  repeat (apply orb_false_elim in H as [H ?]).
  unfold dispatch, bind at 1, get.
  repeat match goal with
    | E : ?t = false |- _ => rewrite E; clear E
    end.
  reflexivity.
Qed.

(** C5, as the code has it.  Every line that is not one character long,
    the empty line and lines of digits such as [12] included, is skipped
    and changes nothing.  A single character the chain does not test for
    changes no register either, but it becomes [previous_key] and
    [previous_key_backup]. *)
Theorem unknown_token_step (key : pystr) (rest : list pystr) (w : world) :
  len key <> 1 \/ dispatched key = false ->
  stdin w = key :: rest ->
  loop_body w =
    Ret tt (if len key =? 1
            then with_previous_key_backup key
                   (with_previous_key key (with_stdin rest w))
            else with_stdin rest w).
Proof.
  intros Hk Hin. destruct (len key =? 1) eqn:Hlen.
  - apply Z.eqb_eq in Hlen. destruct Hk as [Hk | Hk]; [done|].
    by rewrite (loop_body_key key rest), dispatch_unknown.
  - apply Z.eqb_neq in Hlen. by apply (loop_body_multichar key).
Qed.


(** [read_register] looks at the store and the registers only, and changes
    nothing. *)
Lemma read_register_reads self w :
  read_register self w =
    match reads self w with
    | inr v => Ret v w
    | inl e => Raise e w
    end.
Proof.
  unfold reads, read_register, sign, float_pos, get_float_active, getitem, get,
    bind, ret, raise.
  repeat case_match; congruence.
Qed.

Lemma reads_with_stdin self i w : reads self (with_stdin i w) = reads self w.
Proof.
  unfold reads, read_register, sign, float_pos, get_float_active, getitem, get,
    bind, ret, raise, array_of.
  cbn [store registers with_stdin].
  repeat (case_match; simplify_eq; cbn [store registers with_stdin] in * );
    congruence.
Qed.

Lemma try_except_caught {X} (body handler : Py X) catches w e w' :
  body w = Raise e w' -> catches e = true ->
  try_except body catches handler w = handler w'.
Proof. unfold try_except. by intros -> ->. Qed.

(** C3, as the code has it.  When [M] reads as a value and [A] reads as
    zero, the division key prints the division-by-zero line and leaves the
    turn by [continue]: no register changes, and [previous_key] and
    [previous_key_backup] stay as they were. *)
Theorem divide_by_zero_aborts (m a : pyval) (rest : list pystr) (w : world) :
  stdin w = key_divide :: rest ->
  reads M w = inr m -> reads A w = inr a -> is_zero a = true ->
  loop_body w =
    Ret tt (with_stdout (stdout w ++ [Print (lit "error: division by zero")])
                        (with_stdin rest w)).
Proof.
  intros Hin Hm Ha Hz.
  rewrite (loop_body_key key_divide rest) by done.
  unfold dispatch, bind at 1, get. eval_tests.
  erewrite bind_Ret.
  2:{ erewrite try_except_caught.
      - unfold bind, print, modify, ret. reflexivity.
      - unfold bind at 1. rewrite read_register_reads, reads_with_stdin, Hm.
        unfold bind at 1. rewrite read_register_reads, reads_with_stdin, Ha.
        unfold bind at 1, py_truediv. rewrite Hz. reflexivity.
      - reflexivity. }
  reflexivity.
Qed.


(** What one processed key leaves in the two context variables. *)
Lemma processed_key_sets_both key rest w w1 :
  stdin w = key :: rest -> len key = 1 ->
  dispatch key (with_stdin rest w) = Ret Next w1 ->
  loop_body w = Ret tt (with_previous_key_backup key (with_previous_key key w1)).
Proof. intros Hin Hlen Hd. by rewrite (loop_body_key key rest), Hd. Qed.

(** C1, on the keys [5], [+], [u].  After [5] and [+] the backup is [+],
    the key just processed, not [5].  After the undo key both context
    variables hold [u]: [A] keeps the sum, but a following [7] starts a new
    number in [M] where it would extend [5] to 57 in the context of [5]. *)
Theorem undo_restores_nothing :
  previous_key (final (run [lit "5"])) = lit "5"
  /\ previous_key_backup (final (run [lit "5"; lit "+"])) = lit "+"
  /\ run [lit "5"; lit "+"; lit "u"]
     = Ret tt (final (run [lit "5"; lit "+"; lit "u"]))
  /\ previous_key (final (run [lit "5"; lit "+"; lit "u"])) = lit "u"
  /\ previous_key_backup (final (run [lit "5"; lit "+"; lit "u"])) = lit "u"
  /\ reads A (final (run [lit "5"; lit "+"; lit "u"])) = inr (VInt 5)
  /\ reads M (final (run [lit "5"; lit "7"])) = inr (VInt 57)
  /\ reads M (final (run [lit "5"; lit "+"; lit "u"; lit "7"])) = inr (VInt 7).
Proof. repeat apply conj; vm_compute; reflexivity. Qed.

(** C4, on a register of zeros.  Writing [10 ** 22], of 23 digits, raises
    nothing: the leading digit lands in the float-position cell and the
    register reads 0.  Writing a number of 25 ones raises, after all 24
    cells were overwritten. *)
Theorem overflow_is_not_rejected :
  write_register A (VInt (10 ^ 22)) (initial_world [])
  = Ret tt (final (write_register A (VInt (10 ^ 22)) (initial_world [])))
  /\ array_of A (final (write_register A (VInt (10 ^ 22)) (initial_world [])))
     = replicate 22 0 ++ [1; 0]
  /\ reads A (final (write_register A (VInt (10 ^ 22)) (initial_world [])))
     = inr (VInt 0)
  /\ write_register A (VInt 1111111111111111111111111) (initial_world [])
     = Raise (Exception (lit "Value too big for register."))
         (final (write_register A (VInt 1111111111111111111111111)
                   (initial_world [])))
  /\ array_of A (final (write_register A (VInt 1111111111111111111111111)
                          (initial_world [])))
     = replicate 24 1.
Proof. repeat apply conj; vm_compute; reflexivity. Qed.

(** C6, on the keys [5], down, [_]: after the transfer [A] and [M] refer
    to one array, so the sign key on [M] turns [A] from 5 into -5.  On the
    keys [1], [,], [5], down: [M] reads 1.5 and [A], whose [float_active]
    was not set, reads 15. *)
Theorem transfer_down_shares_the_array :
  reads A (final (run [lit "5"; key_down])) = inr (VInt 5)
  /\ run [lit "5"; key_down; lit "_"]
     = Ret tt (final (run [lit "5"; key_down; lit "_"]))
  /\ reg (lookup_register (registers (final (run [lit "5"; key_down; lit "_"]))) A)
     = reg (lookup_register (registers (final (run [lit "5"; key_down; lit "_"]))) M)
  /\ reads A (final (run [lit "5"; key_down; lit "_"])) = inr (VInt (-5))
  /\ reads M (final (run [lit "1"; lit ","; lit "5"; key_down]))
     = inr (VFloat (float_of_decimal (Decimal false 15 1)))
  /\ reads A (final (run [lit "1"; lit ","; lit "5"; key_down])) = inr (VInt 15).
Proof. repeat apply conj; vm_compute; reflexivity. Qed.

(** The secondary display key on a named register: the value is printed,
    then the statement built on [pressed_key] does not parse. *)
Lemma secondary_display_raises x v rest w :
  stdin w = lit "*" :: rest ->
  global_register (previous_key w) = Some x -> x <> M ->
  reads x w = inr v ->
  loop_body w =
    Raise SyntaxError
      (with_stdout (stdout w ++ [Print (str v)]) (with_stdin rest w)).
Proof.
  intros Hin Hx HM Hv.
  assert (Hguard : str_in (previous_key w) (lit "ARBCDEF") = true).
  { unfold global_register in Hx.
    repeat match type of Hx with
      | (if str_eqb ?p ?s then _ else _) = _ =>
          let E := fresh in
          destruct (str_eqb p s) eqn:E;
            [apply str_eqb_eq in E; rewrite E; first [reflexivity | congruence]
            |clear E]
      end.
    discriminate. }
  rewrite (loop_body_key (lit "*") rest) by done.
  unfold dispatch, bind at 1, get. eval_tests.
  cbn [previous_key with_stdin]. rewrite Hguard.
  erewrite bind_Raise; [reflexivity|].
  unfold resolve at 1. rewrite Hx. unfold bind at 1, ret.
  unfold bind at 1. rewrite read_register_reads, reads_with_stdin, Hv.
  reflexivity.
Qed.

(** C8, on the keys [5], [B], up, [B], [*]: the value of [B] is printed,
    then the turn raises [SyntaxError], and [B] still reads 5. *)
Theorem secondary_display_erases_nothing :
  run [lit "5"; lit "B"; key_up; lit "B"; lit "*"]
  = Raise SyntaxError (final (run [lit "5"; lit "B"; key_up; lit "B"; lit "*"]))
  /\ stdout (final (run [lit "5"; lit "B"; key_up; lit "B"; lit "*"]))
     = [Print (lit "5")]
  /\ reads B (final (run [lit "5"; lit "B"; key_up; lit "B"; lit "*"]))
     = inr (VInt 5).
Proof. repeat apply conj; vm_compute; reflexivity. Qed.

(** C9.  With [n_digits] at 0 the int 5 is printed as ["50"], also when
    the lozenge key displays [M]; with 2 digits it is printed as ["5000"];
    and text with three digits after the point keeps all three. *)
Theorem print_result_pads_integers :
  format_result (str (VInt 5)) 0 = lit "50"
  /\ stdout (final (print_result (VInt 5) (initial_world []))) = [Print (lit "50")]
  /\ stdout (final (run [lit "5"; key_lozenge])) = [Print (lit "50")]
  /\ format_result (str (VInt 5)) 2 = lit "5000"
  /\ format_result (lit "0.125") 2 = lit "0.125".
Proof. repeat apply conj; vm_compute; reflexivity. Qed.

(** C10, on the keys [5], [,]: [M.read_register()] raises [ValueError],
    and so does the lozenge key that would display [M]. *)
Theorem read_register_raises_after_comma :
  run [lit "5"; lit ","] = Ret tt (final (run [lit "5"; lit ","]))
  /\ reads M (final (run [lit "5"; lit ","])) = inl ValueError
  /\ run [lit "5"; lit ","; key_lozenge]
     = Raise ValueError (final (run [lit "5"; lit ","; key_lozenge]))
  /\ stdout (final (run [lit "5"; lit ","; key_lozenge])) = [].
Proof. repeat apply conj; vm_compute; reflexivity. Qed.

End Properties.

(** ** The properties at concrete inputs *)

(** C7 on the digits 1, 2, 3 keyed in after the clear-all key. *)
Lemma digit_entry_reads_back_witness :
  [1; 2; 3] <> []
  /\ (length [1; 2; 3] <= 22)%nat
  /\ Forall (fun d => 0 <= d <= 9) [1; 2; 3]
  /\ fresh_context (context_world (lit "r") (map digit_key [1; 2; 3]))
  /\ stdin (context_world (lit "r") (map digit_key [1; 2; 3]))
     = map digit_key [1; 2; 3] ++ []
  /\ exists w',
       loop (FL := integer_only) (length [1; 2; 3])
         (context_world (lit "r") (map digit_key [1; 2; 3])) = Ret tt w'
       /\ read_register (FL := integer_only) M w'
          = Ret (VInt (number [1; 2; 3])) w'
       /\ stdin w' = [].
Proof.
  assert (H1 : [1; 2; 3] <> []) by discriminate.
  assert (H2 : (length [1; 2; 3] <= 22)%nat) by (cbn; lia).
  assert (H3 : Forall (fun d => 0 <= d <= 9) [1; 2; 3])
    by (repeat constructor; lia).
  assert (H4 : fresh_context (context_world (lit "r") (map digit_key [1; 2; 3])))
    by (left; reflexivity).
  repeat apply conj; try assumption; [reflexivity|].
  apply (digit_entry_reads_back (FL := integer_only) [1; 2; 3] []
           (context_world (lit "r") (map digit_key [1; 2; 3])) H1 H2 H3 H4).
  reflexivity.
Defined.

(** C2 fails at the start of the program, by the substring test: the
    empty context is no digit, yet [previous_key in '0123456789'] holds of
    it, so the comma sets [M.float_active] and becomes [previous_key], and
    the keys comma, [5] leave a float in M where [5] alone leaves the int
    5.  After the clear-all key, with M the same zero register, the comma
    is ignored as C2 says. *)
Lemma comma_at_start_is_processed :
  is_digit_key (previous_key (initial_world [lit ","])) = false
  /\ loop_body (FL := integer_only) (initial_world [lit ","])
     = Ret tt (final (loop_body (FL := integer_only) (initial_world [lit ","])))
  /\ float_active
       (lookup_register
          (registers (final (loop_body (FL := integer_only)
                               (initial_world [lit ","])))) M) = true
  /\ previous_key (final (loop_body (FL := integer_only) (initial_world [lit ","])))
     = lit ","
  /\ reads (FL := integer_only) M (final (run (FL := integer_only) [lit ","; lit "5"]))
     = inr (VFloat (float_of_decimal (Decimal false 5 1)))
  /\ reads (FL := integer_only) M (final (run (FL := integer_only) [lit "5"]))
     = inr (VInt 5)
  /\ array_of M (context_world (lit "r") [lit ","])
     = array_of M (initial_world [lit ","])
  /\ float_active
       (lookup_register
          (registers (final (loop_body (FL := integer_only)
                               (context_world (lit "r") [lit ","])))) M) = false
  /\ previous_key
       (final (loop_body (FL := integer_only) (context_world (lit "r") [lit ","])))
     = lit "r".
Proof. repeat apply conj; vm_compute; reflexivity. Qed.


(** C3 as stated fails on the keys [5], division: [A] reads 0, the error
    line is printed, and [previous_key] is still [5], not the division
    key. *)
Lemma divide_by_zero_keeps_context :
  reads (FL := integer_only) A (final (run (FL := integer_only) [lit "5"]))
  = inr (VInt 0)
  /\ run (FL := integer_only) [lit "5"; key_divide]
     = Ret tt (final (run (FL := integer_only) [lit "5"; key_divide]))
  /\ stdout (final (run (FL := integer_only) [lit "5"; key_divide]))
     = [Print (lit "error: division by zero")]
  /\ previous_key (final (run (FL := integer_only) [lit "5"; key_divide]))
     = lit "5"
  /\ str_eqb (previous_key (final (run (FL := integer_only) [lit "5"; key_divide])))
       key_divide = false.
Proof. repeat apply conj; vm_compute; reflexivity. Qed.

(** C3 on M = 5 and A = 0. *)
Lemma divide_by_zero_aborts_witness :
  stdin (with_stdin [key_divide] (final (run (FL := integer_only) [lit "5"])))
  = key_divide :: []
  /\ reads (FL := integer_only) M
       (with_stdin [key_divide] (final (run (FL := integer_only) [lit "5"])))
     = inr (VInt 5)
  /\ reads (FL := integer_only) A
       (with_stdin [key_divide] (final (run (FL := integer_only) [lit "5"])))
     = inr (VInt 0)
  /\ is_zero (FL := integer_only) (VInt 0) = true
  /\ loop_body (FL := integer_only)
       (with_stdin [key_divide] (final (run (FL := integer_only) [lit "5"])))
     = Ret tt
         (with_stdout
            (stdout (with_stdin [key_divide]
                       (final (run (FL := integer_only) [lit "5"])))
             ++ [Print (lit "error: division by zero")])
            (with_stdin []
               (with_stdin [key_divide]
                  (final (run (FL := integer_only) [lit "5"]))))).
Proof.
  do 4 (split; [vm_compute; reflexivity|]).
  apply (divide_by_zero_aborts (FL := integer_only) (VInt 5) (VInt 0));
    vm_compute; reflexivity.
Defined.

(** C5 as stated fails on the keys [5], [x]: [x] is no key of the chain,
    yet it replaces [5] in [previous_key] and in [previous_key_backup]. *)
Lemma unknown_key_becomes_context :
  dispatched (lit "x") = false
  /\ previous_key (final (run (FL := integer_only) [lit "5"])) = lit "5"
  /\ run (FL := integer_only) [lit "5"; lit "x"]
     = Ret tt (final (run (FL := integer_only) [lit "5"; lit "x"]))
  /\ previous_key (final (run (FL := integer_only) [lit "5"; lit "x"])) = lit "x"
  /\ previous_key_backup (final (run (FL := integer_only) [lit "5"; lit "x"]))
     = lit "x".
Proof. repeat apply conj; vm_compute; reflexivity. Qed.

(** C5 after [5]: on the empty line, on the line [12], whose text the
    digit test of the chain would accept, and on the key [x]. *)
Lemma unknown_token_step_witness :
  ((len [] <> 1 \/ dispatched [] = false)
   /\ dispatched [] = true
   /\ stdin (context_world (lit "5") [[]]) = [] :: []
   /\ loop_body (FL := integer_only) (context_world (lit "5") [[]])
      = Ret tt (if len [] =? 1
                then with_previous_key_backup []
                       (with_previous_key []
                          (with_stdin [] (context_world (lit "5") [[]])))
                else with_stdin [] (context_world (lit "5") [[]])))
  /\ ((len (lit "12") <> 1 \/ dispatched (lit "12") = false)
      /\ dispatched (lit "12") = true
      /\ stdin (context_world (lit "5") [lit "12"]) = lit "12" :: []
      /\ loop_body (FL := integer_only) (context_world (lit "5") [lit "12"])
         = Ret tt (if len (lit "12") =? 1
                   then with_previous_key_backup (lit "12")
                          (with_previous_key (lit "12")
                             (with_stdin [] (context_world (lit "5") [lit "12"])))
                   else with_stdin [] (context_world (lit "5") [lit "12"])))
  /\ ((len (lit "x") <> 1 \/ dispatched (lit "x") = false)
      /\ stdin (context_world (lit "5") [lit "x"]) = lit "x" :: []
      /\ loop_body (FL := integer_only) (context_world (lit "5") [lit "x"])
         = Ret tt (if len (lit "x") =? 1
                   then with_previous_key_backup (lit "x")
                          (with_previous_key (lit "x")
                             (with_stdin [] (context_world (lit "5") [lit "x"])))
                   else with_stdin [] (context_world (lit "5") [lit "x"]))).
Proof.
  assert (H0 : len [] <> 1 \/ dispatched [] = false) by (left; discriminate).
  assert (H12 : len (lit "12") <> 1 \/ dispatched (lit "12") = false)
    by (left; discriminate).
  assert (Hx : len (lit "x") <> 1 \/ dispatched (lit "x") = false)
    by (right; reflexivity).
  split; [|split].
  - split; [exact H0|]. do 2 (split; [reflexivity|]).
    apply (unknown_token_step (FL := integer_only) [] [] _ H0). reflexivity.
  - split; [exact H12|]. do 2 (split; [reflexivity|]).
    apply (unknown_token_step (FL := integer_only) (lit "12") [] _ H12).
    reflexivity.
  - split; [exact Hx|]. split; [reflexivity|].
    apply (unknown_token_step (FL := integer_only) (lit "x") [] _ Hx).
    reflexivity.
Defined.

(** * Further properties *)

(** The head of the [if] chain, once the first [get] has run. *)
Ltac enter_dispatch key rest :=
  rewrite (loop_body_key key rest) by done;
  unfold dispatch, bind at 1, get; eval_tests;
  cbn [previous_key previous_key_backup with_stdin].

(** Bring updates of a world that is written out to one record. *)
Ltac flatten_world :=
  unfold with_store, with_registers, with_previous_key,
    with_previous_key_backup, with_n_digits, with_stdin, with_stdout;
  cbn [store registers previous_key previous_key_backup n_digits stdin stdout].

(** ** Keys that only touch the context, and keys that raise *)

Section KeyRules.
Context {FL : PyFloat}.

Lemma reads_frame self w w' :
  store w' = store w -> registers w' = registers w ->
  reads self w' = reads self w.
Proof.
  intros Hs Hr.
  unfold reads, read_register, sign, float_pos, get_float_active, getitem, get,
    bind, ret, raise, array_of.
  rewrite Hs, Hr.
  repeat (case_match; simplify_eq); congruence.
Qed.

(** The [u] key, in every state: the assignment from the backup is
    overwritten by the update of the context, so the turn only sets
    [previous_key] and [previous_key_backup] to [u]. *)
Theorem undo_key_only_sets_context (rest : list pystr) (w : world) :
  stdin w = lit "u" :: rest ->
  loop_body w =
    Ret tt (with_previous_key_backup (lit "u")
              (with_previous_key (lit "u") (with_stdin rest w))).
Proof. intros Hin. enter_dispatch (lit "u") rest. reflexivity. Qed.

(** The square-root key on a negative M: the error line is printed and
    the turn ends with [continue]; registers and context stay. *)
Theorem sqrt_negative_aborts (v : pyval) (rest : list pystr) (w : world) :
  stdin w = key_sqrt :: rest ->
  reads M w = inr v -> py_negative v = true ->
  loop_body w =
    Ret tt (with_stdout
              (stdout w ++ [Print (lit "error: squared root of negative number")])
              (with_stdin rest w)).
Proof.
  intros Hin Hv Hneg. enter_dispatch key_sqrt rest.
  unfold bind at 1. rewrite read_register_reads, reads_with_stdin, Hv, Hneg.
  reflexivity.
Qed.

(** With the empty context of the start of the program, the keys that
    interpolate [previous_key] into [exec] raise [SyntaxError]: the empty
    text is a substring of every register list. *)
Theorem display_in_empty_context_raises (key : pystr) (rest : list pystr) (w : world) :
  previous_key w = [] ->
  key = key_lozenge \/ key = lit "*" \/ key = key_up ->
  stdin w = key :: rest ->
  loop_body w = Raise SyntaxError (with_stdin rest w).
Proof.
  intros Hpk [-> | [-> | ->]] Hin.
  - enter_dispatch key_lozenge rest. rewrite Hpk. reflexivity.
  - enter_dispatch (lit "*") rest. rewrite Hpk. reflexivity.
  - enter_dispatch key_up rest. rewrite Hpk. reflexivity.
Qed.

(** The swap key after one of B, C, D, E, F never swaps: the statement
    handed to [exec] does not parse, so the turn raises [SyntaxError] and
    no register changes. *)
Theorem swap_never_completes (a : pyval) (rest : list pystr) (w : world) :
  str_in (previous_key w) (lit "BCDEF") = true ->
  reads A w = inr a ->
  stdin w = key_updown :: rest ->
  loop_body w = Raise SyntaxError (with_stdin rest w).
Proof.
  intros Hpk Ha Hin.
  assert (HA : str_eqb (previous_key w) (lit "A") = false).
  { destruct (str_eqb (previous_key w) (lit "A")) eqn:E; [|done].
    apply str_eqb_eq in E. rewrite E in Hpk. discriminate. }
  enter_dispatch key_updown rest. rewrite HA, Hpk.
  erewrite bind_Raise; [reflexivity|].
  unfold bind at 1. rewrite read_register_reads, reads_with_stdin, Ha.
  reflexivity.
Qed.

(** The [d] key stores the line it reads as text: the display of M that
    follows raises [TypeError] in [print_result]. *)
Theorem display_after_d_raises (v : pyval) (line : pystr) (rest : list pystr)
    (w : world) :
  stdin w = lit "d" :: line :: key_lozenge :: rest ->
  reads M w = inr v ->
  loop 2 w =
    Raise TypeError
      (with_previous_key_backup (lit "d")
         (with_previous_key (lit "d")
            (with_n_digits (SStr line) (with_stdin rest w)))).
Proof.
  intros Hin Hv. cbn [loop].
  erewrite bind_Ret.
  2:{ enter_dispatch (lit "d") (line :: key_lozenge :: rest).
      unfold bind, input, modify, ret. cbn [stdin with_stdin]. reflexivity. }
  erewrite bind_Raise; [reflexivity|].
  enter_dispatch key_lozenge rest.
  erewrite bind_Raise; [reflexivity|].
  unfold bind at 1. rewrite read_register_reads.
  rewrite (reads_frame M w) by reflexivity. rewrite Hv. reflexivity.
Qed.

Lemma d_key_at_end_of_input (w : world) :
  stdin w = [lit "d"] ->
  loop_body w = Raise EOFError (with_stdin [] w).
Proof. intros Hin. enter_dispatch (lit "d") (@nil pystr). reflexivity. Qed.

(** The debug key prints the eight arrays in the order M, A, R, B, C, D,
    E, F and stops at the breakpoint; store and registers stay. *)
Theorem debug_key_mutates_nothing (rest : list pystr) (w : world) :
  stdin w = lit "P" :: rest ->
  loop_body w =
    Ret tt (with_previous_key_backup (lit "P")
              (with_previous_key (lit "P")
                 (with_stdout
                    (stdout w
                     ++ [PrintArray (lit "M:") (array_of M w);
                         PrintArray (lit "A:") (array_of A w);
                         PrintArray (lit "R:") (array_of R w);
                         PrintArray (lit "B:") (array_of B w);
                         PrintArray (lit "C:") (array_of C w);
                         PrintArray (lit "D:") (array_of D w);
                         PrintArray (lit "E:") (array_of E w);
                         PrintArray (lit "F:") (array_of F w);
                         Breakpoint])
                    (with_stdin rest w)))).
Proof.
  intros Hin. enter_dispatch (lit "P") rest.
  unfold print_registers, breakpoint. cbn [for_each].
  unfold modify, get, bind, ret, array_of.
  cbn [stdout store registers with_stdout with_stdin].
  rewrite <- !app_assoc. reflexivity.
Qed.

End KeyRules.

(** ** Erasing a register *)

Lemma lookup_update_register_ne b x y r :
  x <> y -> lookup_register (update_register b x r) y = lookup_register b y.
Proof. by destruct b, x, y. Qed.

Section Registers.
Context {FL : PyFloat}.

Lemma reads_read_array self w :
  reads self w =
    read_array (array_of self w)
      (float_active (lookup_register (registers w) self)).
Proof.
  unfold reads, read_array, read_register, sign, float_pos, get_float_active,
    getitem, get, bind, ret, raise.
  repeat (case_match; simplify_eq); congruence.
Qed.

Lemma reads_points_to self a w :
  points_to self a w ->
  reads self w = read_array a (float_active (lookup_register (registers w) self)).
Proof. intros Ha. by rewrite reads_read_array, (array_of_points_to _ _ _ Ha). Qed.

Lemma read_array_zeros : read_array (replicate REG_LEN_MAX 0) false = inr (VInt 0).
Proof. reflexivity. Qed.

(** [erase] gives the register a new array: it reads 0 afterwards, and
    every other register keeps its array and its value, also one that
    shared the array. *)
Theorem erase_isolates (self other : name) (a : ndarray) (w : world) :
  other <> self -> points_to other a w ->
  exists w',
    erase self w = Ret tt w'
    /\ reads self w' = inr (VInt 0)
    /\ points_to other a w'
    /\ reads other w' = reads other w.
Proof.
  intros Hne Ha. eexists. split; [apply erase_eq|].
  assert (Ho : points_to other a
                 (with_registers
                    (update_register (registers w) self
                       (mkRegister (length (store w)) false))
                    (with_store (store w ++ [replicate REG_LEN_MAX 0]) w))).
  { unfold points_to in *. cbn [store registers with_registers with_store].
    rewrite lookup_update_register_ne by done.
    rewrite lookup_app_l; [done|]. by apply lookup_lt_Some in Ha. }
  repeat apply conj.
  - erewrite reads_points_to.
    + cbn [registers with_registers]. rewrite lookup_update_register.
      apply read_array_zeros.
    + unfold points_to. cbn [store registers with_registers with_store].
      rewrite lookup_update_register. by apply list_lookup_middle.
  - exact Ho.
  - rewrite (reads_points_to _ _ _ Ho), (reads_points_to _ _ _ Ha).
    cbn [registers with_registers]. by rewrite lookup_update_register_ne.
Qed.

End Registers.

(** ** The clear-all key *)

Section ClearAll.
Context {FL : PyFloat}.

Lemma clear_all_world rest w :
  stdin w = lit "r" :: rest ->
  loop_body w =
    Ret tt (with_previous_key_backup (lit "r")
              (with_previous_key (lit "r")
                 (with_registers (cleared_bank (length (store w)))
                    (with_store (store w ++ replicate 8 (replicate REG_LEN_MAX 0))
                       (with_stdin rest w))))).
Proof.
  intros Hin. enter_dispatch (lit "r") rest.
  destruct w as [h [] pk pkb nd inp out]. flatten_world.
  do 8 (erewrite bind_Ret by apply erase_eq; flatten_world;
        cbn [update_register]).
  unfold ret, cleared_bank. flatten_world. rewrite !length_app. cbn [length].
  rewrite <- !app_assoc. cbn [app replicate].
  do 2 f_equal. f_equal; f_equal; lia.
Qed.

(** The clear-all key: every register reads 0 afterwards, and no two
    registers share an array. *)
Theorem clear_all_resets_every_register (rest : list pystr) (w : world) :
  stdin w = lit "r" :: rest ->
  exists w',
    loop_body w = Ret tt w'
    /\ (forall x, reads x w' = inr (VInt 0))
    /\ (forall x y, x <> y ->
          reg (lookup_register (registers w') x)
          <> reg (lookup_register (registers w') y))
    /\ previous_key w' = lit "r"
    /\ stdin w' = rest.
Proof.
  intros Hin. pose proof (clear_all_world rest w Hin) as Hw.
  eexists. split; [exact Hw|]. clear Hw.
  split; [|split; [|split; reflexivity]].
  - intros x. rewrite (reads_points_to x (replicate REG_LEN_MAX 0)).
    + by destruct x.
    + unfold points_to.
      cbn [store registers with_previous_key_backup with_previous_key
             with_registers with_store].
      set (n := length (store w)).
      assert (Hk : forall k, (k < 8)%nat ->
                (store w ++ replicate 8 (replicate REG_LEN_MAX 0)) !! (n + k)%nat
                = Some (replicate REG_LEN_MAX 0)).
      { intros k Hk. rewrite lookup_app_r by lia.
        replace (n + k - length (store w))%nat with k by lia.
        by apply lookup_replicate_2. }
      destruct x; cbn [lookup_register cleared_bank reg_M reg_A reg_R reg_B
                         reg_C reg_D reg_E reg_F reg];
        [rewrite <- (Nat.add_0_r n)|..]; apply Hk; lia.
  - intros x y Hxy.
    cbn [registers with_previous_key_backup with_previous_key with_registers].
    destruct x, y; first [congruence | cbn; lia].
Qed.

End ClearAll.

(** ** A full register *)

Section FullRegister.
Context {FL : PyFloat}.

Lemma full_register_world (d t p : Z) (a : ndarray)
    (rest : list pystr) (w : world) :
  0 <= d <= 9 ->
  str_in (previous_key w) (lit "0123456789,") = true ->
  points_to M a w -> a !! 21%nat = Some t -> a !! 22%nat = Some p ->
  t <> 0 \/ p = 21 ->
  stdin w = digit_key d :: rest ->
  loop_body w =
    Ret tt (with_previous_key_backup (digit_key d)
              (with_previous_key (digit_key d)
                 (with_stdout (stdout w ++ [Print (lit "error: M.reg is full")])
                    (with_stdin rest w)))).
Proof.
  intros Hd Hpk Ha Ht Hp Hfull Hin.
  destruct (digit_key_facts d Hd) as (Hlen & Hk1 & _).
  rewrite (loop_body_key _ _ _ Hin Hlen), (dispatch_digit _ _ Hk1).
  cbn [previous_key with_stdin]. rewrite Hpk.
  erewrite bind_Ret; [reflexivity|].
  erewrite bind_Ret by (by apply (is_full_points_to _ a t p)).
  replace (negb (negb ((t =? 0) && negb (p =? 21)))) with false; [reflexivity|].
  destruct Hfull as [Hne | ->].
  - apply Z.eqb_neq in Hne. by rewrite Hne.
  - by rewrite andb_false_r.
Qed.

(** A digit key on a full M (top digit not 0, or 21 digits after the
    point): the error line is printed, and store and registers stay. *)
Theorem full_register_rejects_digit (d t p : Z) (a : ndarray)
    (rest : list pystr) (w : world) :
  0 <= d <= 9 ->
  str_in (previous_key w) (lit "0123456789,") = true ->
  points_to M a w -> a !! 21%nat = Some t -> a !! 22%nat = Some p ->
  t <> 0 \/ p = 21 ->
  stdin w = digit_key d :: rest ->
  exists w',
    loop_body w = Ret tt w'
    /\ store w' = store w
    /\ registers w' = registers w
    /\ stdout w' = stdout w ++ [Print (lit "error: M.reg is full")]
    /\ previous_key w' = digit_key d.
Proof.
  intros Hd Hpk Ha Ht Hp Hfull Hin. eexists. split.
  - by apply (full_register_world d t p a).
  - done.
Qed.

(** The world a digit key leaves when it starts a number. *)
Lemma fresh_digit_world d rest w :
  0 <= d <= 9 ->
  str_in (previous_key w) (lit "0123456789,") = false ->
  stdin w = digit_key d :: rest ->
  loop_body w =
    Ret tt (with_previous_key_backup (digit_key d)
              (with_previous_key (digit_key d)
                 (with_store (store w ++ [d :: replicate 23 0])
                    (with_registers
                       (update_register (registers w) M
                          (mkRegister (length (store w)) false))
                       (with_stdin rest w))))).
Proof.
  intros Hd Hpk Hin.
  destruct (digit_key_facts d Hd) as (Hlen & Hk1 & Hk2 & Hint & Hw & _).
  rewrite (loop_body_key _ _ _ Hin Hlen), (dispatch_digit _ _ Hk1).
  cbn [previous_key with_stdin]. rewrite Hpk.
  erewrite bind_Ret.
  2:{ erewrite bind_Ret by apply erase_eq.
      unfold int. rewrite Hint. unfold bind, ret, setitem_int. rewrite Hw.
      apply (setitem_points_to _ (replicate REG_LEN_MAX 0)); [|cbn; lia].
      unfold points_to. cbn [store registers with_registers with_store].
      rewrite lookup_update_register. cbn [reg with_stdin store].
      by apply list_lookup_middle. }
  unfold ret. cbn [store registers with_registers with_store with_stdin].
  rewrite lookup_update_register. cbn [reg].
  rewrite insert_app_r_alt by done. rewrite Nat.sub_diag. reflexivity.
Qed.

(** The world a digit key leaves when it extends the number in M. *)
Lemma append_digit_world d a rest w :
  0 <= d <= 9 ->
  str_in (previous_key w) (lit "0123456789,") = true ->
  points_to M a w -> length a = REG_LEN_MAX ->
  a !! 21%nat = Some 0 -> a !! 22%nat = Some 0 ->
  float_active (lookup_register (registers w) M) = false ->
  stdin w = digit_key d :: rest ->
  loop_body w =
    Ret tt (with_previous_key_backup (digit_key d)
              (with_previous_key (digit_key d)
                 (with_store
                    (<[reg (lookup_register (registers w) M) :=
                       <[0%nat := d]> (take 1 a ++ take 21 a ++ drop 22 a)]>
                       (store w))
                    (with_stdin rest w)))).
Proof.
  intros Hd Hpk Ha Hlen H21 H22 Hfa Hin.
  destruct (digit_key_facts d Hd) as (Hl & Hk1 & _).
  rewrite (loop_body_key _ _ _ Hin Hl), (dispatch_digit _ _ Hk1).
  cbn [previous_key with_stdin]. rewrite Hpk.
  erewrite bind_Ret by (by apply append_digit).
  reflexivity.
Qed.

(** Digit keys that extend the number print nothing. *)
Lemma digits_run_quiet ds2 : forall ds1 rest w,
  entered ds1 w -> (length ds1 + length ds2 <= 22)%nat ->
  Forall (fun d => 0 <= d <= 9) ds2 ->
  stdin w = map digit_key ds2 ++ rest ->
  exists w', loop (length ds2) w = Ret tt w' /\ entered (ds1 ++ ds2) w'
             /\ stdin w' = rest /\ stdout w' = stdout w.
Proof.
  induction ds2 as [|d ds2 IH]; intros ds1 rest w Hent Hn Hds Hin.
  - exists w. rewrite app_nil_r. done.
  - apply Forall_cons in Hds as [Hd Hds]. cbn [length] in Hn.
    assert (Hlt : (length ds1 < 22)%nat) by lia.
    destruct (entered_cells ds1 Hlt) as (H21 & H22 & Hl).
    pose proof Hent as (Ha & Hfa & Hpk).
    pose proof (append_digit_world d _ _ w Hd Hpk Ha Hl H21 H22 Hfa Hin) as Hb.
    destruct (next_digit d ds1 _ w Hd Hent Hlt Hin) as (w1 & Hb' & Hent1 & Hin1).
    assert (Hout1 : stdout w1 = stdout w).
    { rewrite Hb in Hb'. by injection Hb' as <-. }
    destruct (IH (ds1 ++ [d]) rest w1) as (w' & Hlp & Hent' & Hin' & Hout');
      [done|rewrite length_app; cbn; lia|done|done|].
    exists w'. cbn [length loop]. rewrite (bind_Ret _ _ _ _ _ Hb').
    rewrite <- app_assoc in Hent'. by rewrite Hout'.
Qed.

Lemma first_digit_quiet d rest w :
  0 <= d <= 9 -> fresh_context w -> stdin w = digit_key d :: rest ->
  exists w', loop_body w = Ret tt w' /\ entered [d] w' /\ stdin w' = rest
             /\ stdout w' = stdout w.
Proof.
  intros Hd Hctx Hin.
  destruct (first_digit d rest w Hd Hctx Hin) as (w1 & Hb & Hent & Hin1).
  exists w1. do 3 (split; [done|]).
  destruct Hctx as [Hpk | (Hpk & Ha & Hfa)].
  - rewrite (fresh_digit_world d rest w Hd Hpk Hin) in Hb. by injection Hb as <-.
  - rewrite (append_digit_world d (replicate REG_LEN_MAX 0) rest w) in Hb;
      [by injection Hb as <-|done|by rewrite Hpk|done..].
Qed.

Lemma loop_add n : forall m w,
  loop (n + m) w = bind (loop n) (fun _ => loop m) w.
Proof.
  induction n as [|n IH]; intros m w; [done|].
  cbn [Nat.add loop]. unfold bind.
  destruct (loop_body w) as [[] w1|]; [|done]. apply IH.
Qed.

(** After 22 digits of which the first is not 0, M holds them all, the
    first in the top cell. *)
Lemma entered_top_cell d ds :
  length (d :: ds) = 22%nat ->
  (rev (d :: ds) ++ replicate (REG_LEN_MAX - length (d :: ds)) 0) !! 21%nat = Some d
  /\ (rev (d :: ds) ++ replicate (REG_LEN_MAX - length (d :: ds)) 0) !! 22%nat = Some 0.
Proof.
  intros Hlen. rewrite Hlen. cbn [rev]. cbn [length] in Hlen.
  assert (Hr : length (rev ds) = 21%nat) by (rewrite length_rev; lia).
  split.
  - rewrite <- app_assoc, lookup_app_r by lia. by rewrite Hr.
  - rewrite lookup_app_r by (rewrite length_app, Hr; cbn; lia).
    rewrite length_app, Hr. done.
Qed.

(** After 22 digits of which the first is not 0, a 23rd digit key is
    rejected: the error line is printed and M reads the 22 digits. *)
Theorem twenty_third_digit_is_rejected (d0 d : Z) (ds : list Z)
    (rest : list pystr) (w : world) :
  length (d0 :: ds) = 22%nat -> Forall (fun d => 0 <= d <= 9) (d0 :: ds) ->
  d0 <> 0 -> 0 <= d <= 9 ->
  fresh_context w ->
  stdin w = map digit_key (d0 :: ds) ++ digit_key d :: rest ->
  exists w',
    loop 23 w = Ret tt w'
    /\ read_register M w' = Ret (VInt (number (d0 :: ds))) w'
    /\ stdout w' = stdout w ++ [Print (lit "error: M.reg is full")]
    /\ stdin w' = rest.
Proof.
  intros Hlen Hds Hd0 Hd Hctx Hin.
  apply Forall_cons in Hds as [Hd0' Hds]. cbn [map app] in Hin.
  destruct (first_digit_quiet d0 _ w Hd0' Hctx Hin) as (w1 & Hb1 & Hent1 & Hin1 & Ho1).
  destruct (digits_run_quiet ds [d0] (digit_key d :: rest) w1)
    as (w2 & Hl & Hent2 & Hin2 & Ho2); [done|cbn in *; lia|done|done|].
  cbn [app] in Hent2.
  destruct (entered_top_cell d0 ds Hlen) as (H21 & H22).
  pose proof Hent2 as (Ha & Hfa & Hpk).
  pose proof (full_register_world d d0 0 _ rest w2 Hd Hpk Ha H21 H22
                (or_introl Hd0) Hin2) as Hb3.
  eexists. split; [|split; [|split]].
  - replace 23%nat with (S (length ds + 1)) by (cbn in Hlen; lia).
    cbn [loop]. rewrite (bind_Ret _ _ _ _ _ Hb1), loop_add.
    rewrite (bind_Ret _ _ _ _ _ Hl). cbn [loop].
    rewrite (bind_Ret _ _ _ _ _ Hb3). reflexivity.
  - assert (Hr : read_register M w2 = Ret (VInt (number (d0 :: ds))) w2).
    { apply read_entered; [done|lia|by constructor]. }
    rewrite read_register_reads in Hr.
    destruct (reads M w2) eqn:E; [discriminate|]. injection Hr as ->.
    rewrite read_register_reads, (reads_frame M w2) by reflexivity.
    by rewrite E.
  - cbn [stdout with_previous_key_backup with_previous_key with_stdout].
    by rewrite Ho2, Ho1.
  - reflexivity.
Qed.

End FullRegister.

(** ** Transfers and the sign key *)

Section Transfers.
Context {FL : PyFloat}.

Lemma transfer_down_world rest w :
  stdin w = key_down :: rest ->
  loop_body w =
    Ret tt (with_previous_key_backup key_down
              (with_previous_key key_down
                 (with_registers
                    (update_register (registers w) A
                       (mkRegister (reg (lookup_register (registers w) M))
                          (float_active (lookup_register (registers w) A))))
                    (with_stdin rest w)))).
Proof. intros Hin. enter_dispatch key_down rest. reflexivity. Qed.

(** The down key, when A and M have the same float flag: A reads what M
    reads, and the store is not touched. *)
Theorem transfer_down_reads_as_M (rest : list pystr) (w : world) :
  float_active (lookup_register (registers w) A)
  = float_active (lookup_register (registers w) M) ->
  stdin w = key_down :: rest ->
  exists w',
    loop_body w = Ret tt w'
    /\ reads A w' = reads M w
    /\ reads M w' = reads M w
    /\ store w' = store w.
Proof.
  intros Hfa Hin. eexists. split; [by apply transfer_down_world|].
  split; [|split; [|reflexivity]].
  - rewrite !reads_read_array. unfold array_of.
    cbn [store registers with_previous_key_backup with_previous_key
           with_registers with_stdin].
    rewrite lookup_update_register. cbn [reg float_active]. by rewrite Hfa.
  - rewrite !reads_read_array. unfold array_of.
    cbn [store registers with_previous_key_backup with_previous_key
           with_registers with_stdin].
    by rewrite lookup_update_register_ne.
Qed.

Lemma read_array_single d :
  0 <= d <= 9 -> read_array (d :: replicate 23 0) false = inr (VInt d).
Proof.
  intros Hd.
  destruct (digit_cases d Hd) as [->|[->|[->|[->|[->|[->|[->|[->|[->| ->]]]]]]]]];
    reflexivity.
Qed.

(** A number keyed in after the down key does not reach A, whatever the
    float flags: the digit key erases M, which gives M a new array, and A
    keeps the old one and reads what it read after the transfer.  That is
    what M read when the flags of A and M agree. *)
Theorem new_number_after_transfer_keeps_A (d : Z) (a : ndarray)
    (rest : list pystr) (w : world) :
  0 <= d <= 9 -> points_to M a w ->
  stdin w = key_down :: digit_key d :: rest ->
  exists w1 w',
    loop_body w = Ret tt w1
    /\ loop_body w1 = Ret tt w'
    /\ loop 2 w = Ret tt w'
    /\ points_to A a w1
    /\ points_to A a w'
    /\ reads A w' = reads A w1
    /\ (float_active (lookup_register (registers w) A)
        = float_active (lookup_register (registers w) M) ->
        reads A w' = reads M w)
    /\ reads M w' = inr (VInt d)
    /\ reg (lookup_register (registers w') A)
       <> reg (lookup_register (registers w') M).
Proof.
  intros Hd Ha Hin.
  pose proof (transfer_down_world _ w Hin) as H1.
  set (w1 := with_previous_key_backup key_down
               (with_previous_key key_down
                  (with_registers
                     (update_register (registers w) A
                        (mkRegister (reg (lookup_register (registers w) M))
                           (float_active (lookup_register (registers w) A))))
                     (with_stdin (digit_key d :: rest) w)))) in *.
  assert (H2 : loop_body w1 =
                 Ret tt (with_previous_key_backup (digit_key d)
                           (with_previous_key (digit_key d)
                              (with_store (store w1 ++ [d :: replicate 23 0])
                                 (with_registers
                                    (update_register (registers w1) M
                                       (mkRegister (length (store w1)) false))
                                    (with_stdin rest w1))))))
    by (by apply (fresh_digit_world d rest)).
  pose proof (lookup_lt_Some _ _ _ Ha) as Hlt.
  assert (HA1 : points_to A a w1).
  { unfold points_to, w1.
    cbn [store registers with_previous_key_backup with_previous_key
           with_registers with_stdin].
    by rewrite lookup_update_register. }
  assert (HA' : points_to A a
                  (with_previous_key_backup (digit_key d)
                     (with_previous_key (digit_key d)
                        (with_store (store w1 ++ [d :: replicate 23 0])
                           (with_registers
                              (update_register (registers w1) M
                                 (mkRegister (length (store w1)) false))
                              (with_stdin rest w1)))))).
  { unfold points_to in *.
    cbn [store registers with_previous_key_backup with_previous_key
           with_registers with_store with_stdin].
    rewrite lookup_update_register_ne by done.
    rewrite lookup_app_l; [done|]. by apply lookup_lt_Some in HA1. }
  assert (HrA : reads A
                  (with_previous_key_backup (digit_key d)
                     (with_previous_key (digit_key d)
                        (with_store (store w1 ++ [d :: replicate 23 0])
                           (with_registers
                              (update_register (registers w1) M
                                 (mkRegister (length (store w1)) false))
                              (with_stdin rest w1)))))
                = reads A w1).
  { rewrite (reads_points_to _ _ _ HA'), (reads_points_to _ _ _ HA1).
    cbn [registers with_previous_key_backup with_previous_key
           with_registers with_store with_stdin].
    by rewrite lookup_update_register_ne. }
  exists w1. eexists. split; [exact H1|]. split; [exact H2|].
  split; [cbn [loop]; by rewrite (bind_Ret _ _ _ _ _ H1), (bind_Ret _ _ _ _ _ H2)|].
  split; [exact HA1|]. split; [exact HA'|]. split; [exact HrA|].
  repeat apply conj.
  - intros Hfa. rewrite HrA.
    rewrite (reads_points_to _ _ _ HA1), (reads_points_to _ _ _ Ha).
    unfold w1.
    cbn [registers with_previous_key_backup with_previous_key
           with_registers with_stdin].
    rewrite lookup_update_register. cbn [float_active]. by rewrite Hfa.
  - rewrite (reads_points_to M (d :: replicate 23 0)).
    + cbn [registers with_previous_key_backup with_previous_key
             with_registers with_store].
      rewrite lookup_update_register. by apply read_array_single.
    + unfold points_to.
      cbn [store registers with_previous_key_backup with_previous_key
             with_registers with_store].
      rewrite lookup_update_register. by apply list_lookup_middle.
  - cbn [store registers with_previous_key_backup with_previous_key
           with_registers with_store with_stdin].
    rewrite lookup_update_register_ne, lookup_update_register by done.
    unfold w1.
    cbn [store registers with_previous_key_backup with_previous_key
           with_registers with_store with_stdin].
    rewrite lookup_update_register. cbn [reg]. lia.
Qed.

(** The up key after the name of one of B, C, D, E, F: that register
    refers to the array of M, and reads as M when the float flags agree. *)
Theorem transfer_up_reads_as_M (x : name) (rest : list pystr) (w : world) :
  global_register (previous_key w) = Some x ->
  x = B \/ x = C \/ x = D \/ x = E \/ x = F ->
  stdin w = key_up :: rest ->
  exists w',
    loop_body w = Ret tt w'
    /\ (float_active (lookup_register (registers w) x)
        = float_active (lookup_register (registers w) M) ->
        reads x w' = reads M w)
    /\ reg (lookup_register (registers w') x)
       = reg (lookup_register (registers w') M)
    /\ store w' = store w.
Proof.
  intros Hx Hcase Hin.
  assert (Hguard : str_in (previous_key w) (lit "BCDEF") = true
                   /\ x <> M).
  { unfold global_register in Hx.
    repeat match type of Hx with
      | (if str_eqb ?p ?s then _ else _) = _ =>
          let E := fresh in
          destruct (str_eqb p s) eqn:E;
            [apply str_eqb_eq in E; rewrite E; simplify_eq;
             first [by split | by destruct Hcase as [?|[?|[?|[?|?]]]]]
            |clear E]
      end.
    discriminate. }
  destruct Hguard as [Hguard HM].
  exists (with_previous_key_backup key_up
            (with_previous_key key_up
               (with_registers
                  (update_register (registers w) x
                     (mkRegister (reg (lookup_register (registers w) M))
                        (float_active (lookup_register (registers w) x))))
                  (with_stdin rest w)))).
  split.
  - enter_dispatch key_up rest. rewrite Hguard. cbn [andb].
    unfold bind at 1, get. unfold resolve, bind at 1. rewrite Hx. reflexivity.
  - cbn [store registers with_previous_key_backup with_previous_key
           with_registers with_stdin].
    rewrite lookup_update_register, lookup_update_register_ne by done.
    repeat apply conj; [|reflexivity..].
    intros Hfa. rewrite !reads_read_array. unfold array_of.
    cbn [store registers with_previous_key_backup with_previous_key
           with_registers with_stdin].
    rewrite lookup_update_register. cbn [reg float_active]. by rewrite Hfa.
Qed.

Lemma int_of_str_negated body z :
  int_of_str (chr "+" :: body) = Some z ->
  int_of_str (chr "-" :: body) = Some (- z).
Proof.
  unfold int_of_str.
  change (split_sign (chr "+" :: body)) with (false, body).
  change (split_sign (chr "-" :: body)) with (true, body).
  destruct body; [done|]. destruct (all_digits _); [|done].
  by intros [= <-].
Qed.

(** The sign key on a positive integer M negates what M reads. *)
Theorem sign_key_negates (z : Z) (a : ndarray) (rest : list pystr) (w : world) :
  points_to M a w -> a !! 23%nat = Some 0 ->
  float_active (lookup_register (registers w) M) = false ->
  reads M w = inr (VInt z) ->
  stdin w = lit "_" :: rest ->
  exists w', loop_body w = Ret tt w' /\ reads M w' = inr (VInt (- z))
             /\ previous_key w' = lit "_".
Proof.
  intros Ha Hs Hfa Hz Hin.
  pose proof (lookup_lt_Some _ _ _ Hs) as Hlen.
  eexists. split.
  - enter_dispatch (lit "_") rest.
    erewrite bind_Ret; [reflexivity|].
    unfold set_sign. by apply (setitem_points_to _ a).
  - split; [|reflexivity].
    rewrite (reads_points_to M (<[23%nat := 1]> a)).
    + cbn [registers with_previous_key_backup with_previous_key with_store
             with_stdin].
      rewrite Hfa. rewrite (reads_points_to M a w Ha), Hfa in Hz.
      unfold read_array in *. rewrite Hs in Hz.
      rewrite list_lookup_insert_eq by done.
      rewrite take_insert_ge by lia.
      change (if 1 =? 0 then lit "+" else lit "-") with [chr "-"].
      change (if 0 =? 0 then lit "+" else lit "-") with [chr "+"] in Hz.
      rewrite rev_unit in *.
      destruct (int_of_str (chr "+" :: _)) eqn:E; [|done].
      injection Hz as ->. by rewrite (int_of_str_negated _ _ E).
    + unfold points_to.
      cbn [store registers with_previous_key_backup with_previous_key
             with_store with_stdin].
      apply list_lookup_insert_eq. by apply lookup_lt_Some in Ha.
Qed.

End Transfers.

(** ** Numbers with a point *)

Lemma wrap16_small v : -32768 <= v < 32768 -> wrap16 v = v.
Proof. intros Hv. unfold wrap16. rewrite Z.mod_small; lia. Qed.

Lemma startswith_point c s :
  startswith (c :: s) (lit ".") = N.eqb (chr ".") c.
Proof. destruct s; cbn; apply andb_true_r. Qed.

Lemma find_from_point pre post : forall i,
  Forall (fun c => isdigit c = true) pre ->
  find_from (pre ++ chr "." :: post) (lit ".") i = i + Z.of_nat (length pre).
Proof.
  induction pre as [|c pre IH]; intros i Hpre.
  - cbn [app length find_from]. rewrite startswith_point, N.eqb_refl. lia.
  - apply Forall_cons in Hpre as [Hc Hpre]. cbn [app find_from].
    assert (Hne : N.eqb (chr ".") c = false).
    { apply N.eqb_neq. intros <-. discriminate. }
    rewrite startswith_point, Hne, IH by done. cbn [length]. lia.
Qed.

Lemma all_digits_Forall s :
  all_digits s = true <-> Forall (fun c => isdigit c = true) s.
Proof. unfold all_digits. rewrite forallb_forall, List.Forall_forall. done. Qed.

Section Fractions.
Context {FL : PyFloat}.

Lemma comma_world rest w :
  str_in (previous_key w) (lit "0123456789") = true ->
  stdin w = lit "," :: rest ->
  loop_body w =
    Ret tt (with_previous_key_backup (lit ",")
              (with_previous_key (lit ",")
                 (with_registers
                    (update_register (registers w) M
                       (mkRegister (reg (lookup_register (registers w) M)) true))
                    (with_stdin rest w)))).
Proof. intros Hpk Hin. enter_dispatch (lit ",") rest. by rewrite Hpk. Qed.

Lemma comma_starts_fraction ds rest w :
  entered ds w -> (length ds <= 22)%nat ->
  str_in (previous_key w) (lit "0123456789") = true ->
  stdin w = lit "," :: rest ->
  exists w', loop_body w = Ret tt w' /\ entered_fraction ds 0 w'
             /\ stdin w' = rest.
Proof.
  intros (Ha & Hfa & _) Hn Hpk Hin. eexists.
  split; [by apply comma_world|]. split; [|reflexivity].
  repeat apply conj; [| |reflexivity].
  - unfold points_to in *.
    cbn [store registers with_previous_key_backup with_previous_key
           with_registers with_stdin].
    rewrite lookup_update_register. cbn [reg]. rewrite Ha. do 2 f_equal.
    unfold REG_LEN_MAX.
    replace (24 - length ds)%nat with ((22 - length ds) + 2)%nat by lia.
    by rewrite replicate_add.
  - cbn [registers with_previous_key_backup with_previous_key with_registers].
    by rewrite lookup_update_register.
Qed.

Lemma shift_active self a p w :
  points_to self a w -> length a = REG_LEN_MAX -> a !! 22%nat = Some p ->
  float_active (lookup_register (registers w) self) = true ->
  shift self w =
    Ret tt (with_store
              (<[reg (lookup_register (registers w) self) :=
                 <[22%nat := wrap16 (p + 1)]>
                   (take 1 a ++ take 21 a ++ drop 22 a)]> (store w)) w).
Proof.
  intros Ha Hlen Hp Hfa. unfold shift.
  erewrite bind_Ret
    by (apply (copy_loop _ _ a); rewrite ?Hlen; auto using shift_range_bounds).
  rewrite copy_cells_shift by done.
  unfold get_float_active, get, bind at 1. cbn [registers with_store]. rewrite Hfa.
  assert (Hp' : (take 1 a ++ take 21 a ++ drop 22 a) !! 22%nat = Some p).
  { rewrite !lookup_app_r; rewrite ?length_take, ?Hlen; unfold REG_LEN_MAX;
      try lia.
    rewrite lookup_drop. by rewrite <- Hp. }
  erewrite bind_Ret.
  2:{ unfold float_pos. eapply getitem_points_to; [|exact Hp'].
      by apply (points_to_insert _ a). }
  unfold set_float_pos, setitem_int.
  erewrite setitem_points_to.
  - cbn [registers with_store store]. by rewrite list_insert_insert_eq.
  - by apply (points_to_insert _ a).
  - rewrite !length_app, !length_take, length_drop, Hlen. unfold REG_LEN_MAX. lia.
Qed.

Lemma shifted_fraction d p ds :
  (length ds < 22)%nat -> 0 <= p < 21 ->
  <[0%nat := d]>
    (<[22%nat := wrap16 (p + 1)]>
       (take 1 (rev ds ++ replicate (22 - length ds) 0 ++ [p; 0])
        ++ take 21 (rev ds ++ replicate (22 - length ds) 0 ++ [p; 0])
        ++ drop 22 (rev ds ++ replicate (22 - length ds) 0 ++ [p; 0])))
  = rev (ds ++ [d]) ++ replicate (22 - length (ds ++ [d])) 0 ++ [p + 1; 0].
Proof.
  intros Hn Hp. rewrite wrap16_small by lia.
  assert (Hr : length (rev ds) = length ds) by apply length_rev.
  set (zs := replicate (22 - length ds) 0).
  assert (Hz : length zs = (22 - length ds)%nat) by apply length_replicate.
  rewrite (app_assoc (rev ds) zs).
  assert (Hl : length (rev ds ++ zs) = 22%nat) by (rewrite length_app; lia).
  rewrite (take_app_le (rev ds ++ zs) _ 21), (drop_app_length' (rev ds ++ zs))
    by lia.
  replace (take 1 ((rev ds ++ zs) ++ [p; 0])) with [hd 0 (rev ds ++ zs)].
  2:{ destruct (rev ds ++ zs); [discriminate|done]. }
  cbn [app].
  assert (Ht : length (take 21 (rev ds ++ zs)) = 21%nat)
    by (rewrite length_take; lia).
  change (<[22%nat := p + 1]> (?x :: ?l)) with (x :: <[21%nat := p + 1]> l).
  rewrite insert_app_r_alt by lia. rewrite Ht.
  change (<[0%nat := d]> (?x :: ?l)) with (d :: l).
  rewrite rev_app_distr, length_app. cbn [rev app length insert list_insert].
  rewrite Nat.sub_diag. cbn [list_insert]. f_equal.
  rewrite take_app_ge by lia. subst zs. rewrite take_replicate, <- app_assoc.
  do 3 f_equal. lia.
Qed.

Lemma fraction_cells ds p :
  (length ds < 22)%nat ->
  (rev ds ++ replicate (22 - length ds) 0 ++ [p; 0]) !! 21%nat = Some 0
  /\ (rev ds ++ replicate (22 - length ds) 0 ++ [p; 0]) !! 22%nat = Some p
  /\ length (rev ds ++ replicate (22 - length ds) 0 ++ [p; 0]) = REG_LEN_MAX.
Proof.
  intros Hn.
  assert (Hr : length (rev ds) = length ds) by apply length_rev.
  repeat apply conj.
  - rewrite lookup_app_r, lookup_app_l by (rewrite ?length_replicate; lia).
    apply lookup_replicate_2. lia.
  - rewrite !lookup_app_r by (rewrite ?length_replicate; lia).
    rewrite length_replicate, Hr.
    by replace (22 - length ds - (22 - length ds))%nat with 0%nat by lia.
  - rewrite !length_app, length_replicate. cbn [length]. unfold REG_LEN_MAX. lia.
Qed.

Lemma fraction_digit d p ds rest w :
  0 <= d <= 9 -> entered_fraction ds p w -> (length ds < 22)%nat ->
  0 <= p < 21 ->
  stdin w = digit_key d :: rest ->
  exists w', loop_body w = Ret tt w' /\ entered_fraction (ds ++ [d]) (p + 1) w'
             /\ stdin w' = rest.
Proof.
  intros Hd (Ha & Hfa & Hpk) Hn Hp Hin.
  destruct (digit_key_facts d Hd) as (Hlen & Hk1 & Hk2 & Hint & Hw & _).
  destruct (fraction_cells ds p Hn) as (H21 & H22 & Hl).
  rewrite (loop_body_key _ _ _ Hin Hlen), (dispatch_digit _ _ Hk1).
  cbn [previous_key with_stdin]. rewrite Hpk.
  set (a := rev ds ++ replicate (22 - length ds) 0 ++ [p; 0]) in *.
  erewrite bind_Ret.
  2:{ erewrite bind_Ret by (by apply (is_full_points_to _ a 0 p)).
      replace (negb (negb ((0 =? 0) && negb (p =? 21)))) with true.
      2:{ symmetry. cbn [Z.eqb andb]. rewrite negb_involutive.
          apply negb_true_iff, Z.eqb_neq. lia. }
      erewrite bind_Ret by (by apply (shift_active _ a p)).
      unfold int. rewrite Hint. unfold bind, ret, setitem_int. rewrite Hw.
      eapply setitem_points_to.
      - by apply (points_to_insert _ a).
      - rewrite length_insert, !length_app, !length_take, length_drop, Hl.
        unfold REG_LEN_MAX. lia. }
  subst a.
  unfold ret. eexists. split; [reflexivity|].
  split; [|reflexivity]. repeat apply conj; [|done..].
  unfold points_to. cbn [store registers with_stdin with_store with_previous_key
                          with_previous_key_backup].
  rewrite list_insert_insert_eq, shifted_fraction by done.
  apply list_lookup_insert_eq. by apply lookup_lt_Some in Ha.
Qed.

Lemma fraction_run ds2 : forall ds1 p rest w,
  entered_fraction ds1 p w -> (length ds1 + length ds2 <= 22)%nat ->
  0 <= p -> p + Z.of_nat (length ds2) <= 21 ->
  Forall (fun d => 0 <= d <= 9) ds2 ->
  stdin w = map digit_key ds2 ++ rest ->
  exists w', loop (length ds2) w = Ret tt w'
             /\ entered_fraction (ds1 ++ ds2) (p + Z.of_nat (length ds2)) w'
             /\ stdin w' = rest.
Proof.
  induction ds2 as [|d ds2 IH]; intros ds1 p rest w Hent Hn Hp0 Hp Hds Hin.
  - exists w. rewrite app_nil_r. cbn [length]. by rewrite Z.add_0_r.
  - apply Forall_cons in Hds as [Hd Hds]. cbn [length] in Hn, Hp.
    destruct (fraction_digit d p ds1 (map digit_key ds2 ++ rest) w)
      as (w1 & Hb & Hent1 & Hin1); [done|done|lia|lia|done|].
    destruct (IH (ds1 ++ [d]) (p + 1) rest w1) as (w' & Hl & Hent' & Hin');
      [done|rewrite length_app; cbn; lia|lia|lia|done|done|].
    exists w'. cbn [length loop]. rewrite (bind_Ret _ _ _ _ _ Hb).
    rewrite <- app_assoc in Hent'.
    replace (p + Z.of_nat (S (length ds2))) with (p + 1 + Z.of_nat (length ds2))
      by lia.
    done.
Qed.

(** The text of a register with [p] digits after the point reads as its
    digits, scaled by [p]. *)
Lemma decimal_of_entered (ds : list Z) (k : nat) :
  Forall (fun d => 0 <= d <= 9) ds -> (k <= length ds)%nat -> ds <> [] ->
  decimal_of_str
    (chr "+" :: take k (map digit_char ds) ++ lit "."
     ++ drop k (map digit_char ds))
  = Some (Decimal false (number ds) (length ds - k)).
Proof.
  intros Hds Hk Hne. unfold decimal_of_str.
  change (split_sign (chr "+" :: ?s)) with (false, s).
  assert (Hall : all_digits (map digit_char ds) = true)
    by by apply all_digits_chars.
  apply all_digits_Forall in Hall.
  assert (Hpre : Forall (fun c => isdigit c = true) (take k (map digit_char ds)))
    by by apply Forall_take.
  assert (Hpost : Forall (fun c => isdigit c = true) (drop k (map digit_char ds)))
    by by apply Forall_drop.
  assert (Hlk : length (take k (map digit_char ds)) = k)
    by (rewrite length_take, length_map; lia).
  unfold str_find. change (lit "." ++ ?s) with (chr "." :: s).
  rewrite find_from_point by done. rewrite Hlk.
  replace (0 + Z.of_nat k <? 0) with false by (symmetry; apply Z.ltb_ge; lia).
  replace (Z.to_nat (0 + Z.of_nat k)) with k by lia.
  rewrite take_app_length' by done.
  replace (S k) with (k + 1)%nat by lia.
  rewrite <- drop_drop, drop_app_length' by done. cbn [drop].
  rewrite !drop_0.
  apply all_digits_Forall in Hpre, Hpost. rewrite Hpre, Hpost.
  rewrite take_drop, length_drop, length_map, Hlk.
  replace (k + (length ds - k))%nat with (length ds) by lia.
  destruct ds as [|d ds]; [done|]. cbn [length Nat.eqb andb negb].
  do 2 f_equal. unfold digits_value, number. by apply fold_digit_chars.
Qed.

Lemma read_entered_fraction ds p w :
  entered_fraction ds p w -> 1 <= p <= 21 -> (length ds <= 22)%nat ->
  Forall (fun d => 0 <= d <= 9) ds ->
  read_register M w =
    Ret (VFloat (float_of_decimal (Decimal false (number ds) (Z.to_nat p)))) w.
Proof.
  intros (Ha & Hfa & _) Hp Hn Hds.
  rewrite read_register_reads, (reads_points_to _ _ _ Ha), Hfa.
  unfold read_array.
  assert (Hr : length (rev ds) = length ds) by apply length_rev.
  set (zs := replicate (22 - length ds) 0).
  assert (Hz : length zs = (22 - length ds)%nat) by apply length_replicate.
  rewrite (app_assoc (rev ds) zs).
  assert (Hl : length (rev ds ++ zs) = 22%nat) by (rewrite length_app; lia).
  rewrite !lookup_app_r by lia. rewrite Hl. cbn [lookup list_lookup Nat.sub].
  rewrite take_app_length' by done.
  assert (Hall : Forall (fun d => 0 <= d <= 9) (zs ++ ds)).
  { apply Forall_app. split; [|done]. apply Forall_replicate. lia. }
  rewrite concat_str_digits.
  2:{ apply Forall_app. split; [by apply Forall_rev|]. apply Forall_replicate. lia. }
  change (if 0 =? 0 then lit "+" else lit "-") with [chr "+"].
  rewrite rev_unit, <- map_rev, rev_app_distr, rev_involutive.
  subst zs. rewrite rev_replicate. set (L := replicate (22 - length ds) 0 ++ ds) in *.
  assert (HL : length L = 22%nat).
  { subst L. rewrite length_app, length_replicate. lia. }
  rewrite wrap16_small by lia.
  unfold slice_to, slice_from, slice_bound, len. cbn [length].
  rewrite length_map, HL.
  replace (- p <? 0) with true by (symmetry; apply Z.ltb_lt; lia).
  replace (Z.to_nat (Z.max 0 (Z.min (Z.of_nat 23) (- p + Z.of_nat 23))))
    with (S (22 - Z.to_nat p)) by lia.
  cbn [take drop]. rewrite <- app_comm_cons.
  rewrite decimal_of_entered; [|done|lia|].
  - do 4 f_equal.
    + subst L. unfold number. by rewrite fold_left_app, fold_leading_zeros.
    + lia.
  - intros HL0. rewrite HL0 in HL. discriminate.
Qed.

Lemma bind_ret_Next {X} (m : Py X) w x w' :
  bind m (fun _ => ret Next) w = Ret x w' -> x = Next.
Proof. unfold bind, ret. destruct (m w); congruence. Qed.

Lemma digit_turn_previous d rest w w' :
  0 <= d <= 9 -> stdin w = digit_key d :: rest ->
  loop_body w = Ret tt w' -> previous_key w' = digit_key d.
Proof.
  intros Hd Hin Hb.
  destruct (digit_key_facts d Hd) as (Hlen & Hk1 & _).
  rewrite (loop_body_key _ _ _ Hin Hlen), (dispatch_digit _ _ Hk1) in Hb.
  match type of Hb with
  | context [match ?t with Ret _ _ => _ | Raise _ _ => _ end] =>
      destruct t as [x w0|] eqn:E; [|discriminate]
  end.
  apply bind_ret_Next in E as ->. by injection Hb as <-.
Qed.

Lemma digits_run_digit ds2 : forall ds1 rest w,
  entered ds1 w -> str_in (previous_key w) (lit "0123456789") = true ->
  (length ds1 + length ds2 <= 22)%nat ->
  Forall (fun d => 0 <= d <= 9) ds2 ->
  stdin w = map digit_key ds2 ++ rest ->
  exists w', loop (length ds2) w = Ret tt w' /\ entered (ds1 ++ ds2) w'
             /\ stdin w' = rest
             /\ str_in (previous_key w') (lit "0123456789") = true.
Proof.
  induction ds2 as [|d ds2 IH]; intros ds1 rest w Hent Hpk Hn Hds Hin.
  - exists w. rewrite app_nil_r. done.
  - apply Forall_cons in Hds as [Hd Hds]. cbn [length] in Hn.
    destruct (next_digit d ds1 (map digit_key ds2 ++ rest) w)
      as (w1 & Hb & Hent1 & Hin1); [done|done|lia|done|].
    assert (Hpk1 : str_in (previous_key w1) (lit "0123456789") = true).
    { rewrite (digit_turn_previous d _ w w1 Hd Hin Hb).
      by destruct (digit_key_facts d Hd) as (_ & ? & _). }
    destruct (IH (ds1 ++ [d]) rest w1) as (w' & Hl & Hent' & Hin' & Hpk');
      [done|done|rewrite length_app; cbn; lia|done|done|].
    exists w'. cbn [length loop]. rewrite (bind_Ret _ _ _ _ _ Hb).
    by rewrite <- app_assoc in Hent'.
Qed.

(** Digits, the comma, then one digit or more: M reads the decimal
    number with that many digits after the point. *)
Theorem decimal_entry_reads_back (ds1 ds2 : list Z) (rest : list pystr)
    (w : world) :
  ds1 <> [] -> ds2 <> [] -> (length ds1 + length ds2 <= 22)%nat ->
  Forall (fun d => 0 <= d <= 9) ds1 -> Forall (fun d => 0 <= d <= 9) ds2 ->
  fresh_context w ->
  stdin w = map digit_key ds1 ++ lit "," :: map digit_key ds2 ++ rest ->
  exists w',
    loop (length ds1 + S (length ds2)) w = Ret tt w'
    /\ read_register M w' =
         Ret (VFloat (float_of_decimal
                        (Decimal false (number (ds1 ++ ds2)) (length ds2)))) w'
    /\ stdin w' = rest.
Proof.
  intros Hne1 Hne2 Hn Hds1 Hds2 Hctx Hin.
  destruct ds1 as [|d1 ds1]; [done|]. clear Hne1.
  apply Forall_cons in Hds1 as [Hd1 Hds1]. cbn [length] in Hn.
  cbn [map app] in Hin.
  destruct (first_digit d1 _ w Hd1 Hctx Hin) as (w1 & Hb1 & Hent1 & Hin1).
  assert (Hpk1 : str_in (previous_key w1) (lit "0123456789") = true).
  { rewrite (digit_turn_previous d1 _ w w1 Hd1 Hin Hb1).
    by destruct (digit_key_facts d1 Hd1) as (_ & ? & _). }
  destruct (digits_run_digit ds1 [d1]
              (lit "," :: map digit_key ds2 ++ rest) w1 Hent1 Hpk1)
    as (w2 & Hl2 & Hent2 & Hin2 & Hpk2); [cbn; lia|done|done|].
  cbn [app] in Hent2.
  destruct (comma_starts_fraction (d1 :: ds1) (map digit_key ds2 ++ rest) w2 Hent2)
    as (w3 & Hb3 & Hent3 & Hin3); [cbn; lia|done|done|].
  destruct (fraction_run ds2 (d1 :: ds1) 0 rest w3 Hent3)
    as (w4 & Hl4 & Hent4 & Hin4); [cbn; lia|lia|lia|done|done|].
  exists w4. split; [|split; [|done]].
  - cbn [length Nat.add loop]. rewrite (bind_Ret _ _ _ _ _ Hb1), loop_add.
    rewrite (bind_Ret _ _ _ _ _ Hl2). cbn [loop].
    by rewrite (bind_Ret _ _ _ _ _ Hb3).
  - rewrite (read_entered_fraction _ _ _ Hent4).
    + by rewrite Z.add_0_l, Nat2Z.id.
    + destruct ds2; [done|]. cbn [length] in *. lia.
    + rewrite length_app. cbn [length] in *. lia.
    + apply Forall_app. split; [by constructor|done].
Qed.

End Fractions.

(** ** Writing an int *)

(** ** The text of an int *)

Lemma str_of_uint_digits u : Forall (fun c => isdigit c = true) (str_of_uint u).
Proof. induction u; cbn [str_of_uint]; constructor; done. Qed.

Lemma str_of_uint_nil u : str_of_uint u = [] -> u = Decimal.Nil.
Proof. by destruct u. Qed.

Lemma digits_value_acc u : forall acc,
  fold_left (fun acc c => 10 * acc + digit_value c) (str_of_uint u) (Z.pos acc)
  = Z.pos (Pos.of_uint_acc u acc).
Proof.
  induction u; intros acc; cbn [str_of_uint fold_left Pos.of_uint_acc]; [done|..];
    rewrite <- IHu; f_equal;
    match goal with
    | |- context [digit_value ?c] =>
        let v := eval vm_compute in (digit_value c) in
        change (digit_value c) with v
    end; lia.
Qed.

Lemma digits_value_uint u :
  digits_value (str_of_uint u) = Z.of_N (Pos.of_uint u).
Proof.
  unfold digits_value.
  induction u; cbn [str_of_uint fold_left Pos.of_uint]; [done|exact IHu|..];
    match goal with
    | |- context [digit_value ?c] =>
        let v := eval vm_compute in (0 + digit_value c) in
        change (10 * 0 + digit_value c) with v
    end; apply (digits_value_acc u).
Qed.

Lemma str_of_int_split z :
  str_of_int z = (if z <? 0 then [chr "-"] else []) ++ digits_of z.
Proof. by destruct z. Qed.

Lemma digits_of_digits z : Forall (fun c => isdigit c = true) (digits_of z).
Proof. unfold digits_of. destruct (Z.to_int z); apply str_of_uint_digits. Qed.

Lemma digits_of_nonempty z : digits_of z <> [].
Proof.
  destruct z as [|p|p]; [done|..]; unfold digits_of; cbn [Z.to_int];
    intros H%str_of_uint_nil; by apply Unsigned.to_uint_nonnil in H.
Qed.

Lemma digits_of_value z : digits_value (digits_of z) = Z.abs z.
Proof.
  destruct z as [|p|p]; [done|..]; unfold digits_of; cbn [Z.to_int Z.abs];
    by rewrite digits_value_uint, Unsigned.of_to.
Qed.

Lemma find_from_absent s : forall i,
  Forall (fun c => isdigit c = true) s -> find_from s (lit ".") i = -1.
Proof.
  induction s as [|c s IH]; intros i Hs; [done|].
  apply Forall_cons in Hs as [Hc Hs]. cbn [find_from].
  rewrite startswith_point.
  assert (Hne : N.eqb (chr ".") c = false).
  { apply N.eqb_neq. intros <-. discriminate. }
  rewrite Hne. by apply IH.
Qed.

Lemma find_from_pointless s : forall i,
  Forall (fun c => c <> chr ".") s -> find_from s (lit ".") i = -1.
Proof.
  induction s as [|c s IH]; intros i Hs; [done|].
  apply Forall_cons in Hs as [Hc Hs]. cbn [find_from].
  rewrite startswith_point.
  assert (Hne : N.eqb (chr ".") c = false) by (by apply N.eqb_neq).
  rewrite Hne. by apply IH.
Qed.

Lemma digit_char_value c :
  isdigit c = true ->
  wrap16 (digit_value c) = digit_value c
  /\ 0 <= digit_value c <= 9
  /\ digit_char (digit_value c) = c.
Proof.
  unfold isdigit, digit_value, digit_char. intros [H1 H2]%andb_true_iff.
  apply N.leb_le in H1, H2. repeat apply conj; [|lia..].
  apply wrap16_small. lia.
Qed.

Lemma try_except_Ret {X} (body handler : Py X) catches w x w' :
  body w = Ret x w' -> try_except body catches handler w = Ret x w'.
Proof. unfold try_except. by intros ->. Qed.

(** The loop of [write_register] on digits: cell [j + i] takes the [i]-th
    of them. *)
Lemma write_cells self xs : forall j a w,
  points_to self a w -> (j + length xs <= length a)%nat ->
  Forall (fun c => isdigit c = true) xs ->
  for_each (imap (fun i x => ((j + i)%nat, x)) xs)
    (fun '(i, x) =>
       if isdigit x then setitem_int self i (digit_value x)
       else raise ValueError) w
  = Ret tt (with_store
              (<[reg (lookup_register (registers w) self) :=
                 take j a ++ map digit_value xs ++ drop (j + length xs) a]>
                 (store w)) w).
Proof.
  induction xs as [|x xs IH]; intros j a w Ha Hlen Hxs.
  - cbn [imap for_each map length app]. rewrite Nat.add_0_r, take_drop.
    unfold ret. rewrite list_insert_id by done. by rewrite with_store_id.
  - apply Forall_cons in Hxs as [Hx Hxs]. cbn [length] in Hlen.
    rewrite imap_cons. cbn [for_each]. rewrite Nat.add_0_r, Hx.
    destruct (digit_char_value x Hx) as (Hw & _).
    unfold setitem_int. rewrite Hw.
    erewrite bind_Ret by (apply (setitem_points_to _ a); [done|lia]).
    rewrite (imap_ext _ (fun i x => ((S j + i)%nat, x)))
      by (intros; cbn; f_equal; lia).
    rewrite (IH (S j) (<[j := digit_value x]> a)).
    + cbn [store registers with_store]. rewrite list_insert_insert_eq.
      match goal with
      | |- Ret tt (with_store (<[_ := ?x]> _) _)
           = Ret tt (with_store (<[_ := ?y]> _) _) =>
          replace x with y; [reflexivity|]
      end.
      rewrite (take_S_r _ _ (digit_value x))
        by (apply list_lookup_insert_eq; lia).
      rewrite take_insert_ge by lia. rewrite <- app_assoc. cbn [map app length].
      do 3 f_equal. rewrite drop_insert_lt by lia. f_equal. lia.
    + by apply (points_to_insert _ a).
    + rewrite length_insert. lia.
    + done.
Qed.

Section Writing.
Context {FL : PyFloat}.

Lemma write_digits_cells self ds a w :
  points_to self a w -> (length ds <= length a)%nat ->
  Forall (fun c => isdigit c = true) ds ->
  write_digits self ds w
  = Ret tt (with_store
              (<[reg (lookup_register (registers w) self) :=
                 map digit_value (rev ds) ++ drop (length ds) a]> (store w)) w).
Proof.
  intros Ha Hlen Hds. unfold write_digits.
  assert (H1 : (0 + length (rev ds) <= length a)%nat) by by rewrite length_rev.
  assert (H2 : Forall (fun c => isdigit c = true) (rev ds)) by by apply Forall_rev.
  etransitivity; [exact (write_cells self (rev ds) 0 a w Ha H1 H2)|].
  by rewrite length_rev.
Qed.

Lemma write_register_int_world (self : name) (z : Z) (a : ndarray) (w : world) :
  points_to self a w -> length a = REG_LEN_MAX ->
  (length (digits_of z) <= REG_LEN_MAX)%nat ->
  write_register self (VInt z) w
  = Ret tt (with_store
              (<[reg (lookup_register (registers w) self) :=
                 map digit_value (rev (digits_of z))
                 ++ drop (length (digits_of z))
                      (<[23%nat := if z <? 0 then 1 else 0]> a)]> (store w)) w).
Proof.
  intros Ha Hlen Hk. unfold write_register. apply try_except_Ret.
  cbn [str]. rewrite str_of_int_split.
  pose proof (digits_of_digits z) as Hds.
  pose proof (digits_of_nonempty z) as Hne.
  assert (Hdot : str_in (lit ".") (digits_of z) = false).
  { unfold str_in, str_find. by rewrite find_from_absent. }
  assert (H23 : (23 < length a)%nat) by (rewrite Hlen; unfold REG_LEN_MAX; lia).
  destruct (z <? 0).
  - cbn [app]. change (isdigit (chr "-")) with false. cbv iota.
    unfold set_sign. change (str_eqb [chr "-"] (lit "-")) with true. cbv iota.
    erewrite bind_Ret by (by apply (setitem_points_to _ a)).
    replace (slice_from (chr "-" :: digits_of z) 1) with (digits_of z).
    2:{ unfold slice_from, slice_bound, len. cbn [length].
        replace (Z.to_nat _) with 1%nat by (cbn [Z.ltb Z.compare]; lia). done. }
    rewrite Hdot. unfold bind at 1, ret.
    rewrite (write_digits_cells self (digits_of z) (<[23%nat := 1]> a)).
    + cbn [store registers with_store]. by rewrite list_insert_insert_eq.
    + by apply (points_to_insert _ a).
    + rewrite length_insert, Hlen. done.
    + done.
  - cbn [app]. destruct (digits_of z) as [|c ds] eqn:E; [done|].
    apply Forall_cons in Hds as [Hc Hds]. rewrite Hc.
    unfold set_sign.
    assert (Hm : str_eqb [c] (lit "-") = false).
    { cbn. rewrite andb_true_r. apply N.eqb_neq. intros ->. discriminate. }
    rewrite Hm.
    erewrite bind_Ret by (by apply (setitem_points_to _ a)).
    rewrite Hdot. unfold bind at 1, ret.
    rewrite (write_digits_cells self (c :: ds) (<[23%nat := 0]> a)).
    + cbn [store registers with_store]. by rewrite list_insert_insert_eq.
    + by apply (points_to_insert _ a).
    + rewrite length_insert, Hlen. done.
    + by constructor.
Qed.

Lemma str_digit_values ds :
  Forall (fun c => isdigit c = true) ds ->
  concat (map str_of_int (map digit_value ds)) = ds.
Proof.
  induction 1 as [|c ds Hc _ IH]; [done|].
  cbn [map concat]. rewrite IH.
  destruct (digit_char_value c Hc) as (_ & Hv & Hchar).
  destruct (digit_char_facts _ Hv) as (-> & _). by rewrite Hchar.
Qed.

Lemma zero_chars n : map digit_char (replicate n 0) = replicate n (chr "0").
Proof. induction n as [|n IH]; [done|]. cbn [replicate map]. by rewrite IH. Qed.

Lemma digits_value_leading_zeros n ds :
  digits_value (replicate n (chr "0") ++ ds) = digits_value ds.
Proof.
  unfold digits_value. rewrite fold_left_app. f_equal.
  induction n as [|n IH]; [done|]. exact IH.
Qed.

(** [write_register] then [read_register] on a zero register: an int of
    22 digits at most is read back. *)
Theorem write_then_read_int (self : name) (z : Z) (w : world) :
  points_to self (replicate REG_LEN_MAX 0) w ->
  float_active (lookup_register (registers w) self) = false ->
  (length (digits_of z) <= 22)%nat ->
  exists w',
    write_register self (VInt z) w = Ret tt w'
    /\ reads self w' = inr (VInt z).
Proof.
  intros Ha Hfa Hk. eexists. split.
  { apply (write_register_int_world self z _ w Ha); [done|].
    unfold REG_LEN_MAX. lia. }
  pose proof (digits_of_digits z) as Hds.
  pose proof (digits_of_nonempty z) as Hne.
  pose proof (digits_of_value z) as Hval.
  set (ds := digits_of z) in *. set (k := length ds) in *.
  erewrite reads_points_to; [|by apply (points_to_insert _ (replicate REG_LEN_MAX 0))].
  cbn [registers with_store]. rewrite Hfa. unfold read_array.
  assert (Hv : length (map digit_value (rev ds)) = k)
    by (by rewrite length_map, length_rev).
  assert (Hdrop : drop k (<[23%nat := if z <? 0 then 1 else 0]>
                            (replicate REG_LEN_MAX 0))
                  = replicate (22 - k) 0 ++ [0; if z <? 0 then 1 else 0]).
  { unfold REG_LEN_MAX.
    change (replicate 24 0) with (replicate 22 0 ++ [0; 0]).
    rewrite insert_app_r_alt by (rewrite length_replicate; lia).
    rewrite length_replicate. cbn [Nat.sub insert list_insert].
    change (<[1%nat := ?x]> [0; 0]) with [0; x].
    rewrite drop_app_le by (rewrite length_replicate; lia).
    by rewrite drop_replicate. }
  rewrite Hdrop.
  rewrite lookup_app_r, lookup_app_r by (rewrite ?length_replicate; lia).
  rewrite Hv, length_replicate.
  replace (23 - k - (22 - k))%nat with 1%nat by lia. cbn [lookup list_lookup].
  rewrite take_app_ge, take_app_ge by (rewrite ?length_replicate; lia).
  rewrite Hv, length_replicate.
  replace (22 - k - (22 - k))%nat with 0%nat by lia. cbn [take]. rewrite app_nil_r.
  rewrite map_app, concat_app, str_digit_values by by apply Forall_rev.
  rewrite (concat_str_digits (replicate (22 - k) 0))
    by (apply Forall_replicate; lia).
  rewrite !rev_app_distr, rev_involutive, <- map_rev, rev_replicate.
  rewrite zero_chars.
  assert (Hbody : forall neg : bool,
            int_of_str ((if neg then chr "-" else chr "+")
                        :: replicate (22 - k) (chr "0") ++ ds)
            = Some (if neg then - Z.abs z else Z.abs z)).
  { intros neg. unfold int_of_str.
    replace (split_sign ((if neg then chr "-" else chr "+")
                         :: replicate (22 - k) (chr "0") ++ ds))
      with (neg, replicate (22 - k) (chr "0") ++ ds) by by destruct neg.
    destruct (replicate (22 - k) (chr "0") ++ ds) eqn:E.
    { apply app_eq_nil in E as [_ E]. done. }
    rewrite <- E.
    replace (all_digits _) with true.
    2:{ symmetry. apply all_digits_Forall, Forall_app. split; [|done].
        by apply Forall_replicate. }
    by rewrite digits_value_leading_zeros, Hval. }
  destruct (z <? 0) eqn:Hz.
  - change (rev (if 1 =? 0 then lit "+" else lit "-")) with [chr "-"].
    cbn [app]. rewrite (Hbody true). do 2 f_equal. apply Z.ltb_lt in Hz. lia.
  - change (rev (if 0 =? 0 then lit "+" else lit "-")) with [chr "+"].
    cbn [app]. rewrite (Hbody false). do 2 f_equal. apply Z.ltb_ge in Hz. lia.
Qed.

(** [print_result] on an int: the text of the int followed by
    [n_digits + 1] zeros, without a point. *)
Theorem print_result_int (z n : Z) (w : world) :
  n_digits w = SInt n ->
  print_result (VInt z) w
  = Ret tt (with_stdout
              (stdout w
               ++ [Print (str_of_int z ++ replicate (Z.to_nat (n + 1)) (chr "0"))])
              w).
Proof.
  intros Hn. unfold print_result, get, bind. rewrite Hn.
  unfold print, modify, format_result. cbn [str]. do 5 f_equal.
  unfold str_find. rewrite find_from_pointless; [f_equal; lia|].
  apply Forall_rev. rewrite str_of_int_split. apply Forall_app. split.
  - destruct (z <? 0); by repeat constructor.
  - eapply Forall_impl; [apply digits_of_digits|].
    intros c Hc ->. discriminate.
Qed.

End Writing.

(** ** The states the program reaches *)

Lemma name_cases (x y : name) : x = y \/ x <> y.
Proof. destruct x, y; first [by left | by right]. Qed.

Lemma keeps_ret {X} (x : X) : keeps (ret x).
Proof. by intros w Hw. Qed.

Lemma keeps_raise {X} e : keeps (@raise X e).
Proof. by intros w Hw. Qed.

Lemma keeps_get {X} (f : world -> X) : keeps (get f).
Proof. by intros w Hw. Qed.

Lemma keeps_bind {X Y} (m : Py X) (k : X -> Py Y) :
  keeps m -> (forall x, keeps (k x)) -> keeps (bind m k).
Proof.
  intros Hm Hk w Hw. unfold bind. specialize (Hm w Hw).
  destruct (m w) as [x w'|e w']; [by apply Hk|done].
Qed.

Lemma keeps_bind_get {X Y} (f : world -> X) (k : X -> Py Y) :
  (forall w, sound w -> sound (final (k (f w) w))) -> keeps (bind (get f) k).
Proof. intros Hk w Hw. by apply Hk. Qed.

Lemma keeps_if {X} (b : bool) (m1 m2 : Py X) :
  keeps m1 -> keeps m2 -> keeps (if b then m1 else m2).
Proof. by destruct b. Qed.

Lemma keeps_try_except {X} (body handler : Py X) catches :
  keeps body -> keeps handler -> keeps (try_except body catches handler).
Proof.
  intros Hb Hh w Hw. unfold try_except. specialize (Hb w Hw).
  destruct (body w) as [x w'|e w']; [done|].
  destruct (catches e); [by apply Hh|done].
Qed.

Lemma keeps_for_each {X} (xs : list X) (body : X -> Py unit) :
  Forall (fun x => keeps (body x)) xs -> keeps (for_each xs body).
Proof.
  induction 1 as [|x xs Hx _ IH]; [apply keeps_ret|].
  cbn [for_each]. by apply keeps_bind.
Qed.

(** Changes outside the store, the registers and the context. *)
Lemma keeps_modify_io (f : world -> world) :
  (forall w, store (f w) = store w /\ registers (f w) = registers w
             /\ previous_key (f w) = previous_key w
             /\ previous_key_backup (f w) = previous_key_backup w) ->
  keeps (modify f).
Proof.
  intros Hf w (H1 & H2 & H3 & H4). destruct (Hf w) as (E1 & E2 & E3 & E4).
  unfold modify, final, sound. by rewrite E1, E2, E3, E4.
Qed.

Lemma keeps_print line : keeps (print line).
Proof. by apply keeps_modify_io. Qed.

Lemma keeps_breakpoint : keeps breakpoint.
Proof. by apply keeps_modify_io. Qed.

Lemma keeps_input : keeps input.
Proof. intros w Hw. unfold input. by destruct (stdin w). Qed.

Lemma keeps_getitem self i : keeps (getitem self i).
Proof. intros w Hw. unfold getitem. by destruct (_ !! i). Qed.

Lemma sound_array self w :
  sound w -> exists a, points_to self a w /\ digit_cells a.
Proof.
  intros (Hst & Href & _).
  destruct (lookup_lt_is_Some_2 _ _ (Href self)) as [a Ha].
  exists a. split; [done|]. by apply (Forall_lookup_1 _ _ _ _ Hst Ha).
Qed.

Lemma sound_with_store self a w :
  sound w -> digit_cells a ->
  sound (with_store (<[reg (lookup_register (registers w) self) := a]> (store w)) w).
Proof.
  intros (Hst & Href & Hpk) Ha. repeat apply conj; try apply Hpk.
  - cbn [store with_store]. by apply Forall_insert.
  - intros x. cbn [store registers with_store]. rewrite length_insert. apply Href.
Qed.

(** A store into a metadata cell. *)
Lemma keeps_setitem_meta self i v : (22 <= i)%nat -> keeps (setitem self i v).
Proof.
  intros Hi w Hw. unfold setitem.
  destruct (sound_array self w Hw) as (a & Ha & Hlen & Hd).
  rewrite (array_of_points_to _ _ _ Ha).
  destruct (i <? length a)%nat; [|done]. cbn [final].
  apply sound_with_store; [done|]. split; [by rewrite length_insert|].
  by rewrite take_insert_ge by lia.
Qed.

(** A store of a decimal digit. *)
Lemma keeps_setitem_digit self i v : 0 <= v <= 9 -> keeps (setitem self i v).
Proof.
  intros Hv w Hw. unfold setitem.
  destruct (sound_array self w Hw) as (a & Ha & Hlen & Hd).
  rewrite (array_of_points_to _ _ _ Ha).
  destruct (i <? length a)%nat eqn:Hi; [|done]. cbn [final].
  apply sound_with_store; [done|]. split; [by rewrite length_insert|].
  rewrite take_insert. case_decide; [|done].
  apply Forall_insert; done.
Qed.

Lemma keeps_set_sign self value : keeps (set_sign self value).
Proof. apply keeps_setitem_meta. lia. Qed.

Lemma keeps_set_float_pos self pos : keeps (set_float_pos self pos).
Proof. apply keeps_setitem_meta. lia. Qed.

Lemma keeps_set_float_active self b : keeps (set_float_active self b).
Proof.
  intros w (Hst & Href & Hpk). repeat apply conj; try apply Hpk; [done|].
  intros x. cbn [final set_float_active modify store registers with_registers].
  destruct (name_cases self x) as [->|Hne].
  - rewrite lookup_update_register. apply Href.
  - rewrite lookup_update_register_ne by done. apply Href.
Qed.

(** [self.reg = other.reg] *)
Lemma sound_set_reg self other w :
  sound w ->
  sound (final (set_reg self (reg (lookup_register (registers w) other)) w)).
Proof.
  intros (Hst & Href & Hpk). repeat apply conj; try apply Hpk; [done|].
  intros x. cbn [final set_reg modify store registers with_registers].
  destruct (name_cases self x) as [->|Hne].
  - rewrite lookup_update_register. apply Href.
  - rewrite lookup_update_register_ne by done. apply Href.
Qed.

Lemma zeros_digit_cells : digit_cells (replicate REG_LEN_MAX 0).
Proof. split; [done|]. apply Forall_take, Forall_replicate. lia. Qed.

Lemma keeps_erase self : keeps (erase self).
Proof.
  intros w (Hst & Href & Hpk). rewrite erase_eq. cbn [final].
  repeat apply conj; try apply Hpk.
  - cbn [store with_registers with_store]. apply Forall_app. split; [done|].
    apply Forall_singleton, zeros_digit_cells.
  - intros x. cbn [store registers with_registers with_store].
    rewrite length_app. cbn [length].
    destruct (name_cases self x) as [->|Hne].
    + rewrite lookup_update_register. cbn [reg]. lia.
    + rewrite lookup_update_register_ne by done. specialize (Href x). lia.
Qed.

(** One step of [shift]: a digit cell takes the digit below it. *)
Lemma keeps_copy self i :
  (1 <= i <= 21)%nat ->
  keeps (bind (getitem self (i - 1)) (fun v => setitem self i v)).
Proof.
  intros Hi w Hw. unfold bind, getitem.
  destruct (sound_array self w Hw) as (a & Ha & Hlen & Hd).
  rewrite (array_of_points_to _ _ _ Ha).
  destruct (a !! (i - 1)%nat) as [v|] eqn:Hv; [|done].
  apply keeps_setitem_digit; [|done].
  apply (Forall_lookup_1 _ _ (i - 1) _ Hd). rewrite lookup_take_lt by lia. done.
Qed.

Lemma keeps_shift self : keeps (shift self).
Proof.
  unfold shift. apply keeps_bind.
  - apply keeps_for_each.
    assert (H : Forall (fun i => 1 <= i <= 21)%nat shift_range)
      by (repeat constructor).
    eapply Forall_impl; [exact H|]. intros i Hi. by apply keeps_copy.
  - intros _. apply keeps_bind; [apply keeps_get|]. intros fa.
    apply keeps_if; [|apply keeps_ret].
    apply keeps_bind; [apply keeps_getitem|]. intros pos.
    apply keeps_set_float_pos.
Qed.

Lemma keeps_is_full self : keeps (is_full self).
Proof.
  unfold is_full, float_pos.
  repeat (apply keeps_bind; [apply keeps_getitem|intros ?]). apply keeps_ret.
Qed.

Lemma keeps_write_digits self value : keeps (write_digits self value).
Proof.
  unfold write_digits. apply keeps_for_each, List.Forall_forall.
  intros [i x] _. destruct (isdigit x) eqn:Hx; [|apply keeps_raise].
  destruct (digit_char_value x Hx) as (Hw & Hv & _).
  unfold setitem_int. rewrite Hw. by apply keeps_setitem_digit.
Qed.

Lemma keeps_float_pos self : keeps (float_pos self).
Proof. apply keeps_getitem. Qed.

Lemma keeps_resolve ident : keeps (resolve ident).
Proof.
  unfold resolve. destruct (global_register ident); [apply keeps_ret|].
  apply keeps_if; apply keeps_raise.
Qed.

Lemma keeps_print_registers : keeps print_registers.
Proof.
  unfold print_registers. apply keeps_for_each, List.Forall_forall.
  intros [label x] _. apply keeps_bind; [apply keeps_get|]. intros a.
  by apply keeps_modify_io.
Qed.

Lemma str_in_digits_key key :
  len key = 1 -> str_in key (lit "0123456789") = true ->
  exists d, 0 <= d <= 9 /\ int_of_str key = Some d /\ wrap16 d = d.
Proof.
  intros Hlen Hk. unfold len in Hlen.
  destruct key as [|c [|]]; [discriminate| |cbn [length] in Hlen; lia].
  rewrite str_in_digits in Hk.
  destruct (digit_char_value c Hk) as (Hw & Hv & _).
  exists (digit_value c). split; [done|]. split; [|done].
  unfold int_of_str.
  replace (split_sign [c]) with (false, [c]).
  2:{ unfold split_sign.
      replace (N.eqb c (chr "-")) with false
        by (symmetry; apply N.eqb_neq; intros ->; discriminate).
      replace (N.eqb c (chr "+")) with false
        by (symmetry; apply N.eqb_neq; intros ->; discriminate).
      done. }
  unfold all_digits. cbn [forallb]. rewrite Hk. cbn [andb].
  unfold digits_value. cbn [fold_left]. by rewrite Z.mul_0_r, Z.add_0_l.
Qed.

Section Invariant.
Context {FL : PyFloat}.

Lemma keeps_read_register self : keeps (read_register self).
Proof.
  intros w Hw. rewrite read_register_reads. by destruct (reads self w).
Qed.

Lemma keeps_print_result value : keeps (print_result value).
Proof.
  unfold print_result. apply keeps_bind; [apply keeps_get|].
  intros [z|s]; [apply keeps_print|apply keeps_raise].
Qed.

Lemma keeps_py_truediv a b : keeps (py_truediv a b).
Proof. unfold py_truediv. apply keeps_if; [apply keeps_raise|apply keeps_ret]. Qed.

Lemma keeps_py_mod a b : keeps (py_mod a b).
Proof. unfold py_mod. apply keeps_if; [apply keeps_raise|apply keeps_ret]. Qed.

Lemma keeps_gt_n_digits pos : keeps (gt_n_digits pos).
Proof.
  unfold gt_n_digits. apply keeps_bind; [apply keeps_get|].
  intros [z|s]; [apply keeps_ret|apply keeps_raise].
Qed.

Create HintDb keeps discriminated.
#[local] Hint Resolve keeps_ret keeps_raise keeps_get keeps_print keeps_input
  keeps_getitem keeps_set_sign keeps_set_float_pos keeps_set_float_active
  keeps_erase keeps_shift keeps_is_full keeps_write_digits keeps_resolve
  keeps_print_registers keeps_breakpoint keeps_read_register
  keeps_print_result keeps_py_truediv keeps_py_mod keeps_gt_n_digits
  keeps_float_pos : keeps.

(** Take a computation apart along its binds, tests and matches. *)
Ltac keeps_step :=
  lazymatch goal with
  | |- keeps (bind _ _) => apply keeps_bind; [|intros ?]
  | |- keeps (try_except _ _ _) => apply keeps_try_except
  | |- keeps (if _ then _ else _) => apply keeps_if
  | |- keeps (match ?x with _ => _ end) => destruct x
  | |- keeps (let _ := _ in _) => cbv zeta
  | |- keeps _ => solve [auto with keeps]
  end.

Lemma keeps_write_register self v : keeps (write_register self v).
Proof. unfold write_register. repeat keeps_step. Qed.

#[local] Hint Resolve keeps_write_register : keeps.

Lemma keeps_transfer_down :
  keeps (l <- get (fun w => reg (lookup_register (registers w) M)) ;;
         set_reg A l ;; ret Next).
Proof.
  apply keeps_bind_get. intros w Hw. unfold bind.
  by apply (sound_set_reg A M).
Qed.

Lemma keeps_transfer_up previous :
  keeps (l <- get (fun w => reg (lookup_register (registers w) M)) ;;
         x <- resolve previous ;;
         set_reg x l ;; ret Next).
Proof.
  apply keeps_bind_get. intros w Hw. unfold bind at 1.
  pose proof (keeps_resolve previous w Hw) as Hr.
  destruct (resolve previous w) as [x w'|e w'] eqn:E; [|done].
  assert (w' = w) as ->.
  { unfold resolve in E. destruct (global_register previous); [by injection E|].
    by destruct (is_identifier previous). }
  unfold bind. by apply (sound_set_reg x M).
Qed.

Lemma keeps_undo :
  keeps (backup <- get previous_key_backup ;;
         modify (with_previous_key backup) ;; ret Next).
Proof.
  apply keeps_bind_get. intros w (Hst & Href & Hpk & Hbk).
  by repeat apply conj.
Qed.

Lemma keeps_set_n_digits n : keeps (modify (with_n_digits n)).
Proof. by apply keeps_modify_io. Qed.

#[local] Hint Resolve keeps_transfer_down keeps_transfer_up keeps_undo
  keeps_set_n_digits : keeps.

Lemma keeps_dispatch key : len key = 1 -> keeps (dispatch key).
Proof.
  intros Hlen. unfold dispatch. apply keeps_bind; [apply keeps_get|].
  intros previous.
  destruct (str_in key (lit "0123456789")) eqn:Hk.
  - destruct (str_in_digits_key key Hlen Hk) as (d & Hd & Hint & Hw).
    assert (Hstore : keeps (bind (int key) (fun digit => setitem_int M 0 digit))).
    { unfold int. rewrite Hint. intros w Hs. unfold bind, ret, setitem_int.
      rewrite Hw. by apply keeps_setitem_digit. }
    repeat first [exact Hstore | solve [auto with keeps] | keeps_step].
  - repeat first [solve [auto with keeps] | keeps_step].
Qed.

Lemma keeps_loop_body : keeps loop_body.
Proof.
  unfold loop_body. apply keeps_bind; [apply keeps_input|]. intros key.
  destruct (len key =? 1) eqn:Hlen; [|apply keeps_ret]. cbn [negb].
  apply Z.eqb_eq in Hlen.
  intros w Hw. unfold bind at 1.
  pose proof (keeps_dispatch key Hlen w Hw) as Hd.
  destruct (dispatch key w) as [[] w'|e w']; [done| |done].
  destruct Hd as (Hst & Href & _). unfold len in Hlen.
  repeat apply conj; [done|done|..];
    cbn [final bind modify get previous_key previous_key_backup
           with_previous_key with_previous_key_backup]; lia.
Qed.

Lemma keeps_loop turns : keeps (loop turns).
Proof.
  induction turns as [|n IH]; [apply keeps_ret|].
  cbn [loop]. apply keeps_bind; [apply keeps_loop_body|]. by intros _.
Qed.

Lemma sound_initial keys : sound (initial_world keys).
Proof.
  unfold sound, initial_world.
  cbn [store registers previous_key previous_key_backup].
  split; [apply Forall_replicate, zeros_digit_cells|].
  split; [intros []; cbn; lia|]. cbn [length]. lia.
Qed.

(** Whatever the console lines and however many turns, and whether the
    run returns or raises: every array has 24 cells with decimal digits in
    the first 22, every register refers to an array of the store, and the
    context is one character at most. *)
Theorem every_run_is_sound (keys : list pystr) (turns : nat) :
  sound (final (loop turns (initial_world keys))).
Proof. apply keeps_loop, sound_initial. Qed.

End Invariant.

(** ** Reading a register in a reachable state *)

Lemma register_text vals s :
  Forall (fun v => 0 <= v <= 9) vals ->
  rev (concat (map str_of_int vals) ++ (if s =? 0 then lit "+" else lit "-"))
  = sign_char s :: map digit_char (rev vals).
Proof.
  intros Hv. rewrite concat_str_digits by done.
  rewrite rev_app_distr, <- map_rev. unfold sign_char. by destruct (s =? 0).
Qed.

Lemma split_sign_char s body :
  split_sign (sign_char s :: body) = (negb (s =? 0), body).
Proof. unfold sign_char. by destruct (s =? 0). Qed.

Lemma int_of_signed s ds :
  Forall (fun d => 0 <= d <= 9) ds -> ds <> [] ->
  int_of_str (sign_char s :: map digit_char ds)
  = Some (if s =? 0 then number ds else - number ds).
Proof.
  intros Hds Hne. unfold int_of_str. rewrite split_sign_char.
  destruct ds as [|d ds]; [done|].
  cbn [map]. change (digit_char d :: map digit_char ds)
    with (map digit_char (d :: ds)).
  rewrite all_digits_chars by done.
  unfold digits_value. rewrite fold_digit_chars by done.
  fold (number (d :: ds)). by destruct (s =? 0).
Qed.

Section Reading.
Context {FL : PyFloat}.

Lemma decimal_with_sign s t m k :
  decimal_of_str (chr "+" :: t) = Some (Decimal false m k) ->
  decimal_of_str (sign_char s :: t) = Some (Decimal (negb (s =? 0)) m k).
Proof.
  unfold decimal_of_str. rewrite split_sign_char.
  change (split_sign (chr "+" :: t)) with (false, t).
  cbv beta iota zeta.
  destruct (if str_find t (lit ".") <? 0 then _ else _) as [ipart fpart].
  destruct (all_digits ipart && all_digits fpart && _); [|intros; discriminate].
  intros H. by injection H as -> ->.
Qed.

Lemma read_array_int a s :
  digit_cells a -> a !! 23%nat = Some s ->
  read_array a false
  = inr (VInt (if s =? 0 then number (rev (take 22 a))
               else - number (rev (take 22 a)))).
Proof.
  intros [Hlen Hd] Hs. unfold read_array. rewrite Hs.
  rewrite register_text by done.
  rewrite int_of_signed; [done|by apply Forall_rev|].
  intros E. apply (f_equal length) in E.
  rewrite length_rev, length_take, Hlen in E. discriminate.
Qed.

(** [read_register] on a register whose float flag is off, in a sound
    state: the int its 22 digit cells form, negated when the sign cell is
    not 0.  It never raises. *)
Theorem sound_int_register_reads (x : name) (a : ndarray) (s : Z) (w : world) :
  sound w -> points_to x a w -> a !! 23%nat = Some s ->
  float_active (lookup_register (registers w) x) = false ->
  reads x w =
    inr (VInt (if s =? 0 then number (rev (take 22 a))
               else - number (rev (take 22 a)))).
Proof.
  intros Hw Ha Hs Hfa.
  destruct (sound_array x w Hw) as (a' & Ha' & Hd).
  assert (a' = a) as -> by (unfold points_to in *; congruence).
  rewrite (reads_points_to _ _ _ Ha), Hfa. by apply read_array_int.
Qed.

(** [read_register] on a register whose float flag is on and whose
    float position [p] is between 1 and 22, in a sound state: the decimal
    of the 22 digits with [p] of them after the point. *)
Theorem sound_float_register_reads (x : name) (a : ndarray) (s p : Z) (w : world) :
  sound w -> points_to x a w -> a !! 22%nat = Some p -> a !! 23%nat = Some s ->
  float_active (lookup_register (registers w) x) = true ->
  1 <= p <= 22 ->
  reads x w =
    inr (VFloat (float_of_decimal
                   (Decimal (negb (s =? 0)) (number (rev (take 22 a)))
                      (Z.to_nat p)))).
Proof.
  intros Hw Ha Hp Hs Hfa Hrange.
  destruct (sound_array x w Hw) as (a' & Ha' & Hlen & Hd).
  assert (a' = a) as -> by (unfold points_to in *; congruence).
  assert (Hrv : Forall (fun d => 0 <= d <= 9) (rev (take 22 a))) by by apply Forall_rev.
  assert (Hlr : length (rev (take 22 a)) = 22%nat).
  { rewrite length_rev, length_take, Hlen. unfold REG_LEN_MAX. lia. }
  assert (Hne : rev (take 22 a) <> []).
  { intros E. apply (f_equal length) in E.
    rewrite Hlr in E. discriminate. }
  rewrite (reads_points_to _ _ _ Ha), Hfa. unfold read_array. rewrite Hs, Hp.
  rewrite register_text by done.
  rewrite wrap16_small by lia.
  unfold slice_to, slice_from, slice_bound, len. cbn [length].
  rewrite length_map, Hlr.
  replace (- p <? 0) with true by (symmetry; apply Z.ltb_lt; lia).
  replace (Z.to_nat (Z.max 0 (Z.min (Z.of_nat 23) (- p + Z.of_nat 23))))
    with (S (22 - Z.to_nat p)) by lia.
  cbn [take drop]. rewrite <- app_comm_cons.
  erewrite decimal_with_sign by (apply decimal_of_entered; [done|lia|done]).
  do 4 f_equal. lia.
Qed.

(** [read_register] on a register whose float flag is on and whose
    float position is 0, in a sound state: [ValueError], whatever the
    digits. *)
Theorem float_register_without_fraction_raises (x : name) (a : ndarray)
    (w : world) :
  sound w -> points_to x a w -> a !! 22%nat = Some 0 ->
  float_active (lookup_register (registers w) x) = true ->
  reads x w = inl ValueError.
Proof.
  intros Hw Ha Hp Hfa.
  destruct (sound_array x w Hw) as (a' & Ha' & Hlen & Hd).
  assert (a' = a) as -> by (unfold points_to in *; congruence).
  destruct (lookup_lt_is_Some_2 a 23) as [s Hs];
    [rewrite Hlen; unfold REG_LEN_MAX; lia|].
  rewrite (reads_points_to _ _ _ Ha), Hfa. unfold read_array. rewrite Hs, Hp.
  rewrite register_text by done.
  change (wrap16 (- 0)) with 0.
  unfold slice_to, slice_from, slice_bound, len.
  replace (Z.to_nat _) with 0%nat by (cbn [Z.ltb Z.compare]; lia).
  cbn [take drop app]. unfold decimal_of_str.
  change (lit "." ++ ?t) with (chr "." :: t).
  change (split_sign (chr "." :: ?t)) with (false, chr "." :: t).
  unfold str_find. cbn [find_from]. rewrite startswith_point, N.eqb_refl.
  cbn [Z.ltb Z.compare Z.to_nat take drop all_digits forallb andb].
  unfold sign_char. by destruct (s =? 0).
Qed.

End Reading.

(** ** Version 1.2 against version 1.5 *)

Section Versions.
Context {FL : PyFloat}.

Lemma modified_main_body_key key rest w :
  stdin w = key :: rest -> len key = 1 ->
  Modified.main_body w =
    match Modified.dispatch key (with_stdin rest w) with
    | Ret _ w' => Ret tt (with_previous_key key w')
    | Raise e w' => Raise e w'
    end.
Proof.
  intros Hin Hlen. unfold Modified.main_body, bind at 1, input. rewrite Hin.
  rewrite Hlen. cbn [Z.eqb Pos.eqb negb]. unfold bind, modify.
  by destruct (Modified.dispatch key (with_stdin rest w)) as [[] ?|].
Qed.

Lemma modified_erase_eq self w :
  Modified.erase self w =
    Ret tt (with_registers
              (update_register (registers w) self
                 (mkRegister (length (store w)) false))
              (with_store (store w ++ [replicate REG_LEN_MAX 0]) w)).
Proof.
  unfold Modified.erase, np_zeros, set_reg, set_float_active, modify, bind.
  cbn [registers with_registers with_store store].
  by rewrite lookup_update_register, update_register_twice.
Qed.

(** The sign reset version 1.5 added to [erase] writes a 0 over the 0 of
    the new array: both versions of [erase] do the same. *)
Theorem erase_agrees_with_modified (self : name) (w : world) :
  Modified.erase self w = erase self w.
Proof. by rewrite modified_erase_eq, erase_eq. Qed.

Lemma strip_flow (m : Py unit) (f : flow) w :
  m w = match (m ;; ret f) w with
        | Ret _ w' => Ret tt w'
        | Raise e w' => Raise e w'
        end.
Proof. unfold bind, ret. by destruct (m w) as [[] ?|]. Qed.

(** On a digit key the two versions take the same steps. *)
Lemma modified_dispatch_digit key w :
  str_in key (lit "0123456789") = true ->
  Modified.dispatch key w =
    match dispatch key w with
    | Ret _ w' => Ret tt w'
    | Raise e w' => Raise e w'
    end.
Proof.
  intros Hk. rewrite (dispatch_digit _ _ Hk).
  unfold Modified.dispatch, bind at 1, get. rewrite Hk.
  destruct (str_in (previous_key w) (lit "0123456789,")).
  - apply strip_flow.
  - etrans; [|apply strip_flow].
    unfold bind at 1 3. by rewrite modified_erase_eq, erase_eq.
Qed.

(** Version 1.2, the slip its header records: after a key that is no
    digit the comma does nothing to M, but it becomes [previous_key]. *)
Lemma modified_comma_world (rest : list pystr) (w : world) :
  str_in (previous_key w) (lit "0123456789") = false ->
  stdin w = lit "," :: rest ->
  Modified.main_body w = Ret tt (with_previous_key (lit ",") (with_stdin rest w)).
Proof.
  intros Hpk Hin.
  rewrite (modified_main_body_key (lit ",") rest) by done.
  unfold Modified.dispatch, bind at 1, get. eval_tests.
  cbn [previous_key with_stdin]. rewrite Hpk. eval_tests. reflexivity.
Qed.

Lemma modified_digit_turn d rest w :
  0 <= d <= 9 -> stdin w = digit_key d :: rest ->
  Modified.main_body w =
    match dispatch (digit_key d) (with_stdin rest w) with
    | Ret _ w' => Ret tt (with_previous_key (digit_key d) w')
    | Raise e w' => Raise e w'
    end.
Proof.
  intros Hd Hin.
  destruct (digit_key_facts d Hd) as (Hlen & Hk1 & _).
  rewrite (modified_main_body_key _ _ _ Hin Hlen), (modified_dispatch_digit _ _ Hk1).
  by destruct (dispatch _ _) as [[] ?|].
Qed.

(** Version 1.2: with a number in M and a context that is no digit, the
    comma and then a digit append the digit to the number; M is not
    erased. *)
Theorem modified_comma_then_digit_appends (d : Z) (ds : list Z)
    (rest : list pystr) (w : world) :
  0 <= d <= 9 -> Forall (fun d => 0 <= d <= 9) ds -> (length ds < 22)%nat ->
  holds_digits ds w ->
  str_in (previous_key w) (lit "0123456789") = false ->
  stdin w = lit "," :: digit_key d :: rest ->
  exists w', Modified.main 2 w = Ret tt w'
             /\ reads M w' = inr (VInt (number (ds ++ [d])))
             /\ stdin w' = rest.
Proof.
  intros Hd Hds Hn (Ha & Hfa) Hpk Hin.
  destruct (digit_key_facts d Hd) as (Hlen & Hk1 & Hk2 & _).
  destruct (entered_cells ds Hn) as (H21 & H22 & Hl).
  cbn [Modified.main].
  erewrite bind_Ret by (by apply modified_comma_world).
  erewrite bind_Ret.
  2:{ rewrite (modified_digit_turn d rest) by done.
      rewrite (dispatch_digit _ _ Hk1).
      cbn [previous_key with_stdin with_previous_key]. eval_tests.
      erewrite bind_Ret by (by apply append_digit).
      reflexivity. }
  unfold ret. eexists. split; [reflexivity|]. split; [|reflexivity].
  unfold reads. erewrite read_entered; [reflexivity| |rewrite length_app; cbn; lia|].
  - repeat split.
    + unfold points_to.
      cbn [store registers with_stdin with_store with_previous_key].
      rewrite shifted_entry by done. apply list_lookup_insert_eq.
      by apply lookup_lt_Some in Ha.
    + done.
    + done.
  - apply Forall_app. split; [done|]. by apply Forall_singleton.
Qed.

Lemma startswith_app s t sub :
  startswith s sub = true -> startswith (s ++ t) sub = true.
Proof.
  revert s. induction sub as [|p sub IH]; intros s H.
  - by destruct (s ++ t).
  - destruct s as [|c s]; [done|].
    cbn in *. apply andb_true_iff in H as [-> H]. by apply IH.
Qed.

Lemma find_from_app s t sub : forall i,
  0 <= i -> 0 <= find_from s sub i -> 0 <= find_from (s ++ t) sub i.
Proof.
  induction s as [|c s IH]; intros i Hi H.
  - cbn [find_from] in H. destruct (startswith [] sub) eqn:E; [|lia].
    apply (startswith_app [] t) in E. cbn [app] in E.
    destruct t; cbn [app find_from]; by rewrite E.
  - cbn [app find_from] in *.
    destruct (startswith (c :: s) sub) eqn:E.
    + apply (startswith_app _ t) in E. cbn [app] in E. by rewrite E.
    + destruct (startswith (c :: s ++ t) sub); [done|]. apply IH; [lia|done].
Qed.

(** A substring of a text is a substring of every text that starts with
    it. *)
Lemma str_in_app sub s t : str_in sub s = true -> str_in sub (s ++ t) = true.
Proof.
  unfold str_in, str_find. intros H. apply Z.leb_le in H. apply Z.leb_le.
  by apply find_from_app.
Qed.

Lemma not_digit_context p :
  str_in p (lit "0123456789,") = false -> str_in p (lit "0123456789") = false.
Proof.
  intros H. destruct (str_in p (lit "0123456789")) eqn:E; [|done].
  apply (str_in_app _ _ (lit ",")) in E.
  change (lit "0123456789" ++ lit ",") with (lit "0123456789,") in E. congruence.
Qed.

(** Version 1.5, the same keys: the comma is ignored, so the digit starts
    a new number. *)
Theorem comma_then_digit_starts_a_number (d : Z) (rest : list pystr) (w : world) :
  0 <= d <= 9 ->
  str_in (previous_key w) (lit "0123456789,") = false ->
  stdin w = lit "," :: digit_key d :: rest ->
  exists w', loop 2 w = Ret tt w'
             /\ reads M w' = inr (VInt d)
             /\ stdin w' = rest.
Proof.
  intros Hd Hpk Hin.
  assert (Hcomma : loop_body w = Ret tt (with_stdin (digit_key d :: rest) w)).
  { rewrite (loop_body_key (lit ",") (digit_key d :: rest)) by done.
    unfold dispatch, bind at 1, get. eval_tests.
    cbn [previous_key with_stdin]. by rewrite (not_digit_context _ Hpk). }
  destruct (first_digit d rest (with_stdin (digit_key d :: rest) w))
    as (w' & Hb & Hent & Hrest); [done|by left|done|].
  exists w'. cbn [loop].
  erewrite bind_Ret by exact Hcomma. erewrite bind_Ret by exact Hb.
  split; [done|]. split; [|done].
  unfold reads. erewrite read_entered; [|done|cbn; lia|by apply Forall_singleton].
  reflexivity.
Qed.

End Versions.

(** ** Sums *)

(** ** Digits and their value *)

Lemma number_acc ds : forall acc,
  fold_left (fun acc d => 10 * acc + d) ds acc
  = acc * 10 ^ Z.of_nat (length ds) + number ds.
Proof.
  induction ds as [|d ds IH]; intros acc.
  - unfold number. cbn. lia.
  - unfold number. cbn [fold_left length].
    rewrite IH, (IH (10 * 0 + d)), Nat2Z.inj_succ, Z.pow_succ_r by lia. ring.
Qed.

Lemma number_app xs ys :
  number (xs ++ ys) = number xs * 10 ^ Z.of_nat (length ys) + number ys.
Proof. unfold number at 1. rewrite fold_left_app. apply number_acc. Qed.

Lemma number_bounds ds :
  Forall (fun d => 0 <= d <= 9) ds ->
  0 <= number ds < 10 ^ Z.of_nat (length ds).
Proof.
  induction ds as [|d ds IH] using rev_ind; intros Hds.
  - unfold number. cbn. lia.
  - apply Forall_app in Hds as [Hds Hd]. apply Forall_inv in Hd.
    specialize (IH Hds). rewrite number_app, length_app.
    cbn [length]. rewrite Nat2Z.inj_add, Z.pow_add_r by lia.
    change (number [d]) with (10 * 0 + d).
    change (Z.of_nat 1) with 1. rewrite Z.pow_1_r. lia.
Qed.

Lemma digits_value_number ds : digits_value ds = number (map digit_value ds).
Proof.
  unfold digits_value, number. generalize 0.
  induction ds as [|c ds IH]; intros acc; [done|]. cbn [map fold_left]. apply IH.
Qed.

(** Digits written over the low cells of a number that is not larger
    leave no digit of the old number in the value. *)
Lemma overwrite_low_digits (t xs : list Z) (a s : Z) :
  Forall (fun d => 0 <= d <= 9) t -> Forall (fun d => 0 <= d <= 9) xs ->
  (length xs <= length t)%nat ->
  number (rev t) = a -> number (rev xs) = s -> 0 <= a <= s ->
  number (rev (xs ++ drop (length xs) t)) = s.
Proof.
  intros Ht Hxs Hlen Ha Hs Has.
  set (k := length xs) in *.
  rewrite <- (take_drop k t), rev_app_distr, number_app in Ha.
  rewrite length_rev, length_take in Ha.
  replace (k `min` length t)%nat with k in Ha by lia.
  rewrite rev_app_distr, number_app, length_rev. fold k. rewrite Hs.
  destruct (number_bounds (rev (drop k t))) as [Hh _];
    [by apply Forall_rev, Forall_drop|].
  destruct (number_bounds (rev (take k t))) as [Hl _];
    [by apply Forall_rev, Forall_take|].
  destruct (number_bounds (rev xs)) as [_ Hb]; [by apply Forall_rev|].
  rewrite length_rev in Hb. fold k in Hb. rewrite Hs in Hb.
  assert (number (rev (drop k t)) = 0) as -> by nia.
  lia.
Qed.

Section Sums.
Context {FL : PyFloat}.

Lemma reads_int_inactive self z w :
  reads self w = inr (VInt z) ->
  float_active (lookup_register (registers w) self) = false.
Proof.
  rewrite reads_read_array. unfold read_array.
  destruct (float_active _); [|done].
  repeat case_match; intros; simplify_eq.
Qed.

Lemma sound_with_stdin i w : sound w -> sound (with_stdin i w).
Proof. by intros H. Qed.

(** [write_register] of an int that is not smaller than the int the
    register holds: the world it ends in, and what the register reads
    there. *)
Lemma write_not_smaller self a s arr w :
  points_to self arr w -> digit_cells arr ->
  reads self w = inr (VInt a) -> 0 <= a <= s ->
  (length (digits_of s) <= 22)%nat ->
  write_register self (VInt s) w
  = Ret tt (with_store
              (<[reg (lookup_register (registers w) self) :=
                 map digit_value (rev (digits_of s))
                 ++ drop (length (digits_of s)) (<[23%nat := 0]> arr)]> (store w)) w)
  /\ reads self
       (with_store
          (<[reg (lookup_register (registers w) self) :=
             map digit_value (rev (digits_of s))
             ++ drop (length (digits_of s)) (<[23%nat := 0]> arr)]> (store w)) w)
     = inr (VInt s).
Proof.
  intros Ha [Hlen Hd] Hr Has Hk.
  pose proof (reads_int_inactive _ _ _ Hr) as Hfa.
  pose proof (digits_of_digits s) as Hds.
  pose proof (digits_of_value s) as Hval.
  split.
  { rewrite (write_register_int_world self s arr w Ha Hlen)
      by (unfold REG_LEN_MAX; lia).
    replace (s <? 0) with false by (symmetry; apply Z.ltb_ge; lia). done. }
  set (ds := digits_of s) in *. set (k := length ds) in *.
  set (xs := map digit_value (rev ds)).
  assert (Hxl : length xs = k) by (unfold xs; by rewrite length_map, length_rev).
  assert (Hxd : Forall (fun d => 0 <= d <= 9) xs).
  { unfold xs. apply Forall_map, Forall_rev.
    eapply Forall_impl; [exact Hds|]. intros c Hc. cbn.
    by destruct (digit_char_value c Hc) as (_ & ? & _). }
  assert (Htake : take 22 (xs ++ drop k (<[23%nat := 0]> arr))
                  = xs ++ drop (length xs) (take 22 arr)).
  { rewrite take_app_ge by lia. rewrite Hxl. f_equal.
    rewrite take_drop_commute. replace (k + (22 - k))%nat with 22%nat by lia.
    by rewrite take_insert_ge by lia. }
  erewrite reads_points_to; [|by apply (points_to_insert _ arr)].
  cbn [registers with_store]. rewrite Hfa.
  rewrite (read_array_int _ 0).
  - change (0 =? 0) with true. cbv iota. do 2 f_equal.
    rewrite Htake.
    destruct (lookup_lt_is_Some_2 arr 23) as [s0 Hs0];
      [rewrite Hlen; unfold REG_LEN_MAX; lia|].
    rewrite (reads_points_to _ _ _ Ha), Hfa, (read_array_int arr s0) in Hr
      by done.
    destruct (number_bounds (rev (take 22 arr))) as [Hn _];
      [by apply Forall_rev|].
    apply (overwrite_low_digits _ _ a); [done|done| | | |done].
    + rewrite Hxl, length_take, Hlen. unfold REG_LEN_MAX. lia.
    + destruct (s0 =? 0); injection Hr as Hr; lia.
    + unfold xs. rewrite <- map_rev, rev_involutive, <- digits_value_number.
      rewrite Hval. lia.
  - split.
    + rewrite length_app, length_drop, length_insert, Hxl, Hlen.
      unfold REG_LEN_MAX. lia.
    + rewrite Htake. apply Forall_app. split; [done|]. by apply Forall_drop.
  - rewrite lookup_app_r by lia. rewrite Hxl, lookup_drop.
    replace (k + (23 - k))%nat with 23%nat by lia.
    apply list_lookup_insert_eq. rewrite Hlen. unfold REG_LEN_MAX. lia.
Qed.

(** [write_register] and [read_register] on ints that do not shrink: in
    a register that holds the int [a >= 0], writing [s >= a] of 22 digits
    at most makes the register read [s]. *)
Theorem write_not_smaller_reads_back (self : name) (a s : Z) (w : world) :
  sound w -> reads self w = inr (VInt a) -> 0 <= a <= s ->
  (length (digits_of s) <= 22)%nat ->
  exists w', write_register self (VInt s) w = Ret tt w'
             /\ reads self w' = inr (VInt s).
Proof.
  intros Hw Hr Has Hk.
  destruct (sound_array self w Hw) as (arr & Ha & Hd).
  destruct (write_not_smaller self a s arr w Ha Hd Hr Has Hk) as [Hwr Hrd].
  eexists. split; [exact Hwr|exact Hrd].
Qed.

(** The [+] key on two ints that are not negative: A reads their sum. *)
Theorem add_key_adds_non_negative_ints (m a : Z) (rest : list pystr) (w : world) :
  sound w -> reads M w = inr (VInt m) -> reads A w = inr (VInt a) ->
  0 <= m -> 0 <= a -> (length (digits_of (m + a)) <= 22)%nat ->
  stdin w = lit "+" :: rest ->
  exists w', loop_body w = Ret tt w'
             /\ reads A w' = inr (VInt (m + a))
             /\ previous_key w' = lit "+"
             /\ stdin w' = rest.
Proof.
  intros Hw Hm Ha Hm0 Ha0 Hk Hin.
  destruct (sound_array A w Hw) as (arr & Hp & Hd).
  destruct (write_not_smaller A a (m + a) arr (with_stdin rest w))
    as [Hwr Hrd]; [done|done|by rewrite reads_with_stdin|lia|done|].
  enter_dispatch (lit "+") rest.
  unfold bind at 1. rewrite read_register_reads, reads_with_stdin, Hm.
  unfold bind at 1. rewrite read_register_reads, reads_with_stdin, Ha.
  cbn [py_add]. unfold bind, ret. rewrite Hwr.
  eexists. split; [reflexivity|]. split; [|done].
  etrans; [|exact Hrd]. by apply reads_frame.
Qed.

(** [write_register] writes the digits of an int from index 0 up and the
    sign; the digit cells above them and the float position keep what
    they held. *)
Theorem write_register_keeps_high_cells (self : name) (z : Z) (arr : ndarray)
    (w : world) :
  points_to self arr w -> length arr = REG_LEN_MAX ->
  (length (digits_of z) <= 22)%nat ->
  exists w',
    write_register self (VInt z) w = Ret tt w'
    /\ take (length (digits_of z)) (array_of self w')
       = map digit_value (rev (digits_of z))
    /\ (forall i, (length (digits_of z) <= i < 23)%nat ->
          array_of self w' !! i = arr !! i)
    /\ array_of self w' !! 23%nat = Some (if z <? 0 then 1 else 0).
Proof.
  intros Ha Hlen Hk. eexists. split.
  { apply (write_register_int_world self z arr w Ha Hlen).
    unfold REG_LEN_MAX. lia. }
  assert (Hxl : length (map digit_value (rev (digits_of z)))
                = length (digits_of z)) by (by rewrite length_map, length_rev).
  erewrite array_of_points_to; [|by apply (points_to_insert _ arr)].
  repeat apply conj.
  - rewrite take_app_length'; done.
  - intros i Hi. rewrite lookup_app_r by lia. rewrite Hxl, lookup_drop.
    replace (length (digits_of z) + (i - length (digits_of z)))%nat with i by lia.
    apply list_lookup_insert_ne. lia.
  - rewrite lookup_app_r by lia. rewrite Hxl, lookup_drop.
    replace (length (digits_of z) + (23 - length (digits_of z)))%nat
      with 23%nat by lia.
    apply list_lookup_insert_eq. rewrite Hlen. unfold REG_LEN_MAX. lia.
Qed.

End Sums.

(** ** Writing an int in version 1.2 *)

Section WriteVersions.
Context {FL : PyFloat}.

Lemma modified_write_register_int_world self z a w :
  points_to self a w -> length a = REG_LEN_MAX ->
  (length (digits_of z) <= REG_LEN_MAX)%nat ->
  Modified.write_register self (VInt z) w
  = Ret tt (with_store
              (<[reg (lookup_register (registers w) self) :=
                 map digit_value (rev (digits_of z))
                 ++ drop (length (digits_of z))
                      (<[23%nat := if z <? 0 then 1 else 0]> a)]> (store w)) w).
Proof.
  intros Ha Hlen Hk. unfold Modified.write_register.
  cbn [str]. rewrite str_of_int_split.
  pose proof (digits_of_digits z) as Hds.
  pose proof (digits_of_nonempty z) as Hne.
  assert (Hdot : str_in (lit ".") (digits_of z) = false).
  { unfold str_in, str_find. by rewrite find_from_absent. }
  assert (H23 : (23 < length a)%nat) by (rewrite Hlen; unfold REG_LEN_MAX; lia).
  destruct (z <? 0).
  - cbn [app]. change (isdigit (chr "-")) with false. cbv iota.
    unfold set_sign. change (str_eqb [chr "-"] (lit "-")) with true. cbv iota.
    erewrite bind_Ret by (by apply (setitem_points_to _ a)).
    replace (slice_from (chr "-" :: digits_of z) 1) with (digits_of z).
    2:{ unfold slice_from, slice_bound, len. cbn [length].
        replace (Z.to_nat _) with 1%nat by (cbn [Z.ltb Z.compare]; lia). done. }
    rewrite Hdot. unfold bind at 1, ret.
    rewrite (write_digits_cells self (digits_of z) (<[23%nat := 1]> a)).
    + cbn [store registers with_store]. by rewrite list_insert_insert_eq.
    + by apply (points_to_insert _ a).
    + rewrite length_insert, Hlen. done.
    + done.
  - cbn [app]. destruct (digits_of z) as [|c ds] eqn:E; [done|].
    apply Forall_cons in Hds as [Hc Hds]. rewrite Hc.
    unfold set_sign.
    assert (Hm : str_eqb [c] (lit "-") = false).
    { cbn. rewrite andb_true_r. apply N.eqb_neq. intros ->. discriminate. }
    rewrite Hm.
    erewrite bind_Ret by (by apply (setitem_points_to _ a)).
    rewrite Hdot. unfold bind at 1, ret.
    rewrite (write_digits_cells self (c :: ds) (<[23%nat := 0]> a)).
    + cbn [store registers with_store]. by rewrite list_insert_insert_eq.
    + by apply (points_to_insert _ a).
    + rewrite length_insert, Hlen. done.
    + by constructor.
Qed.

(** The [try] and the truncation version 1.5 added to [write_register]
    change nothing for an int whose digits fit in the array. *)
Theorem write_register_int_agrees_with_modified (self : name) (z : Z)
    (a : ndarray) (w : world) :
  points_to self a w -> length a = REG_LEN_MAX ->
  (length (digits_of z) <= REG_LEN_MAX)%nat ->
  Modified.write_register self (VInt z) w = write_register self (VInt z) w.
Proof.
  intros Ha Hlen Hk.
  by rewrite (modified_write_register_int_world _ _ a), (write_register_int_world _ _ a).
Qed.

End WriteVersions.

(** ** The further properties at concrete inputs *)

Lemma digit_cellsb_cells a : digit_cellsb a = true -> digit_cells a.
Proof.
  unfold digit_cellsb, digit_cells. intros [Hl Hd]%andb_true_iff. split.
  - by apply Nat.eqb_eq.
  - apply List.Forall_forall. intros v Hv.
    rewrite forallb_forall in Hd. specialize (Hd v Hv).
    apply andb_true_iff in Hd as [H0 H9]. apply Z.leb_le in H0, H9. lia.
Qed.

Lemma soundb_sound w : soundb w = true -> sound w.
Proof.
  unfold soundb, sound.
  intros [[[Hst Href]%andb_true_iff Hpk]%andb_true_iff Hpb]%andb_true_iff.
  repeat apply conj.
  - apply List.Forall_forall. intros a Ha. apply digit_cellsb_cells.
    rewrite forallb_forall in Hst. by apply Hst.
  - intros x. rewrite forallb_forall in Href. apply Nat.ltb_lt, Href.
    destruct x; cbn; tauto.
  - by apply Nat.leb_le.
  - by apply Nat.leb_le.
Qed.

(** The [u] key as the first key. *)
Lemma undo_key_only_sets_context_witness :
  stdin (initial_world [lit "u"]) = lit "u" :: []
  /\ loop_body (FL := integer_only) (initial_world [lit "u"]) =
       Ret tt (with_previous_key_backup (lit "u")
                 (with_previous_key (lit "u")
                    (with_stdin [] (initial_world [lit "u"])))).
Proof.
  split; [reflexivity|].
  apply (undo_key_only_sets_context (FL := integer_only) []); reflexivity.
Defined.

(** The square-root key on M = -5. *)
Lemma sqrt_negative_aborts_witness :
  stdin (with_stdin [key_sqrt] (final (run (FL := integer_only) [lit "5"; lit "_"])))
  = key_sqrt :: []
  /\ reads (FL := integer_only) M
       (with_stdin [key_sqrt] (final (run (FL := integer_only) [lit "5"; lit "_"])))
     = inr (VInt (-5))
  /\ py_negative (FL := integer_only) (VInt (-5)) = true
  /\ loop_body (FL := integer_only)
       (with_stdin [key_sqrt] (final (run (FL := integer_only) [lit "5"; lit "_"])))
     = Ret tt
         (with_stdout
            (stdout (with_stdin [key_sqrt]
                       (final (run (FL := integer_only) [lit "5"; lit "_"])))
             ++ [Print (lit "error: squared root of negative number")])
            (with_stdin []
               (with_stdin [key_sqrt]
                  (final (run (FL := integer_only) [lit "5"; lit "_"]))))).
Proof.
  do 3 (split; [vm_compute; reflexivity|]).
  apply (sqrt_negative_aborts (FL := integer_only) (VInt (-5)));
    vm_compute; reflexivity.
Defined.

(** The lozenge key as the first key. *)
Lemma display_in_empty_context_raises_witness :
  previous_key (initial_world [key_lozenge]) = []
  /\ (key_lozenge = key_lozenge \/ key_lozenge = lit "*" \/ key_lozenge = key_up)
  /\ stdin (initial_world [key_lozenge]) = key_lozenge :: []
  /\ loop_body (FL := integer_only) (initial_world [key_lozenge])
     = Raise SyntaxError (with_stdin [] (initial_world [key_lozenge])).
Proof.
  split; [reflexivity|]. split; [by left|]. split; [reflexivity|].
  apply (display_in_empty_context_raises (FL := integer_only) key_lozenge []);
    [reflexivity|by left|reflexivity].
Defined.

(** The swap key after [B] at the start of the program. *)
Lemma swap_never_completes_witness :
  str_in (previous_key (context_world (lit "B") [key_updown])) (lit "BCDEF") = true
  /\ reads (FL := integer_only) A (context_world (lit "B") [key_updown])
     = inr (VInt 0)
  /\ stdin (context_world (lit "B") [key_updown]) = key_updown :: []
  /\ loop_body (FL := integer_only) (context_world (lit "B") [key_updown])
     = Raise SyntaxError (with_stdin [] (context_world (lit "B") [key_updown])).
Proof.
  do 3 (split; [vm_compute; reflexivity|]).
  apply (swap_never_completes (FL := integer_only) (VInt 0));
    vm_compute; reflexivity.
Defined.

(** The keys [d], the line [2], then the lozenge. *)
Lemma display_after_d_raises_witness :
  stdin (initial_world [lit "d"; lit "2"; key_lozenge])
  = lit "d" :: lit "2" :: key_lozenge :: []
  /\ reads (FL := integer_only) M (initial_world [lit "d"; lit "2"; key_lozenge])
     = inr (VInt 0)
  /\ loop (FL := integer_only) 2 (initial_world [lit "d"; lit "2"; key_lozenge])
     = Raise TypeError
         (with_previous_key_backup (lit "d")
            (with_previous_key (lit "d")
               (with_n_digits (SStr (lit "2"))
                  (with_stdin [] (initial_world [lit "d"; lit "2"; key_lozenge]))))).
Proof.
  do 2 (split; [vm_compute; reflexivity|]).
  apply (display_after_d_raises (FL := integer_only) (VInt 0));
    vm_compute; reflexivity.
Defined.

(** The debug key as the first key. *)
Lemma debug_key_mutates_nothing_witness :
  stdin (initial_world [lit "P"]) = lit "P" :: []
  /\ loop_body (FL := integer_only) (initial_world [lit "P"]) =
       Ret tt (with_previous_key_backup (lit "P")
                 (with_previous_key (lit "P")
                    (with_stdout
                       (stdout (initial_world [lit "P"])
                        ++ [PrintArray (lit "M:") (array_of M (initial_world [lit "P"]));
                            PrintArray (lit "A:") (array_of A (initial_world [lit "P"]));
                            PrintArray (lit "R:") (array_of R (initial_world [lit "P"]));
                            PrintArray (lit "B:") (array_of B (initial_world [lit "P"]));
                            PrintArray (lit "C:") (array_of C (initial_world [lit "P"]));
                            PrintArray (lit "D:") (array_of D (initial_world [lit "P"]));
                            PrintArray (lit "E:") (array_of E (initial_world [lit "P"]));
                            PrintArray (lit "F:") (array_of F (initial_world [lit "P"]));
                            Breakpoint])
                       (with_stdin [] (initial_world [lit "P"]))))).
Proof.
  split; [reflexivity|].
  apply (debug_key_mutates_nothing (FL := integer_only) []); reflexivity.
Defined.

(** [M.erase()] after [5] and the down key, when A shares the array of M. *)
Lemma erase_isolates_witness :
  A <> M
  /\ points_to A (5 :: replicate 23 0)
       (final (run (FL := integer_only) [lit "5"; key_down]))
  /\ exists w',
       erase M (final (run (FL := integer_only) [lit "5"; key_down])) = Ret tt w'
       /\ reads (FL := integer_only) M w' = inr (VInt 0)
       /\ points_to A (5 :: replicate 23 0) w'
       /\ reads (FL := integer_only) A w'
          = reads (FL := integer_only) A
              (final (run (FL := integer_only) [lit "5"; key_down])).
Proof.
  split; [discriminate|]. split; [vm_compute; reflexivity|].
  apply (erase_isolates (FL := integer_only) M A);
    [discriminate|vm_compute; reflexivity].
Defined.

(** The clear-all key as the first key. *)
Lemma clear_all_resets_every_register_witness :
  stdin (initial_world [lit "r"]) = lit "r" :: []
  /\ exists w',
       loop_body (FL := integer_only) (initial_world [lit "r"]) = Ret tt w'
       /\ (forall x, reads (FL := integer_only) x w' = inr (VInt 0))
       /\ (forall x y, x <> y ->
             reg (lookup_register (registers w') x)
             <> reg (lookup_register (registers w') y))
       /\ previous_key w' = lit "r"
       /\ stdin w' = [].
Proof.
  split; [reflexivity|].
  apply (clear_all_resets_every_register (FL := integer_only) []); reflexivity.
Defined.

(** The key [7] after 22 keys [1]. *)
Lemma full_register_rejects_digit_witness :
  0 <= 7 <= 9
  /\ str_in
       (previous_key
          (with_stdin [lit "7"]
             (final (run (FL := integer_only) (replicate 22 (lit "1"))))))
       (lit "0123456789,") = true
  /\ points_to M (replicate 22 1 ++ [0; 0])
       (with_stdin [lit "7"]
          (final (run (FL := integer_only) (replicate 22 (lit "1")))))
  /\ (replicate 22 1 ++ [0; 0]) !! 21%nat = Some 1
  /\ (replicate 22 1 ++ [0; 0]) !! 22%nat = Some 0
  /\ (1 <> 0 \/ 0 = 21)
  /\ stdin (with_stdin [lit "7"]
              (final (run (FL := integer_only) (replicate 22 (lit "1")))))
     = digit_key 7 :: []
  /\ exists w',
       loop_body (FL := integer_only)
         (with_stdin [lit "7"]
            (final (run (FL := integer_only) (replicate 22 (lit "1"))))) = Ret tt w'
       /\ store w'
          = store (with_stdin [lit "7"]
                     (final (run (FL := integer_only) (replicate 22 (lit "1")))))
       /\ registers w'
          = registers (with_stdin [lit "7"]
                         (final (run (FL := integer_only) (replicate 22 (lit "1")))))
       /\ stdout w'
          = stdout (with_stdin [lit "7"]
                      (final (run (FL := integer_only) (replicate 22 (lit "1")))))
            ++ [Print (lit "error: M.reg is full")]
       /\ previous_key w' = digit_key 7.
Proof.
  split; [lia|]. do 4 (split; [vm_compute; reflexivity|]).
  split; [left; lia|]. split; [vm_compute; reflexivity|].
  apply (full_register_rejects_digit (FL := integer_only) 7 1 0
           (replicate 22 1 ++ [0; 0]) []);
    [lia|vm_compute; reflexivity|vm_compute; reflexivity|reflexivity|reflexivity
    |left; lia|vm_compute; reflexivity].
Defined.

(** 22 keys [1] and then [7], after the clear-all key. *)
Lemma twenty_third_digit_is_rejected_witness :
  length (1 :: replicate 21 1) = 22%nat
  /\ Forall (fun d => 0 <= d <= 9) (1 :: replicate 21 1)
  /\ 1 <> 0
  /\ 0 <= 7 <= 9
  /\ fresh_context
       (context_world (lit "r")
          (map digit_key (1 :: replicate 21 1) ++ digit_key 7 :: []))
  /\ stdin (context_world (lit "r")
              (map digit_key (1 :: replicate 21 1) ++ digit_key 7 :: []))
     = map digit_key (1 :: replicate 21 1) ++ digit_key 7 :: []
  /\ exists w',
       loop (FL := integer_only) 23
         (context_world (lit "r")
            (map digit_key (1 :: replicate 21 1) ++ digit_key 7 :: [])) = Ret tt w'
       /\ read_register (FL := integer_only) M w'
          = Ret (VInt (number (1 :: replicate 21 1))) w'
       /\ stdout w'
          = stdout (context_world (lit "r")
                      (map digit_key (1 :: replicate 21 1) ++ digit_key 7 :: []))
            ++ [Print (lit "error: M.reg is full")]
       /\ stdin w' = [].
Proof.
  assert (H2 : Forall (fun d => 0 <= d <= 9) (1 :: replicate 21 1)).
  { apply Forall_cons. split; [lia|]. apply Forall_replicate. lia. }
  assert (H5 : fresh_context
                 (context_world (lit "r")
                    (map digit_key (1 :: replicate 21 1) ++ digit_key 7 :: [])))
    by (left; reflexivity).
  split; [reflexivity|]. split; [exact H2|]. split; [lia|]. split; [lia|].
  split; [exact H5|]. split; [reflexivity|].
  apply (twenty_third_digit_is_rejected (FL := integer_only) 1 7 (replicate 21 1) []);
    [reflexivity|exact H2|lia|lia|exact H5|reflexivity].
Defined.

(** The down key after [5]. *)
Lemma transfer_down_reads_as_M_witness :
  float_active
    (lookup_register
       (registers (with_stdin [key_down] (final (run (FL := integer_only) [lit "5"]))))
       A)
  = float_active
      (lookup_register
         (registers (with_stdin [key_down] (final (run (FL := integer_only) [lit "5"]))))
         M)
  /\ stdin (with_stdin [key_down] (final (run (FL := integer_only) [lit "5"])))
     = key_down :: []
  /\ exists w',
       loop_body (FL := integer_only)
         (with_stdin [key_down] (final (run (FL := integer_only) [lit "5"])))
       = Ret tt w'
       /\ reads (FL := integer_only) A w'
          = reads (FL := integer_only) M
              (with_stdin [key_down] (final (run (FL := integer_only) [lit "5"])))
       /\ reads (FL := integer_only) M w'
          = reads (FL := integer_only) M
              (with_stdin [key_down] (final (run (FL := integer_only) [lit "5"])))
       /\ store w'
          = store (with_stdin [key_down] (final (run (FL := integer_only) [lit "5"]))).
Proof.
  do 2 (split; [vm_compute; reflexivity|]).
  apply (transfer_down_reads_as_M (FL := integer_only) []);
    vm_compute; reflexivity.
Defined.

(** The down key and then [7], after [1], comma, [5], where M is a float
    and A is not: A keeps the array and reads 15 before and after the new
    number. *)
Lemma new_number_after_transfer_keeps_A_witness :
  0 <= 7 <= 9
  /\ points_to M (5 :: 1 :: replicate 20 0 ++ [1; 0])
       (with_stdin [key_down; lit "7"]
          (final (run (FL := integer_only) [lit "1"; lit ","; lit "5"])))
  /\ stdin
       (with_stdin [key_down; lit "7"]
          (final (run (FL := integer_only) [lit "1"; lit ","; lit "5"])))
     = key_down :: digit_key 7 :: []
  /\ exists w1 w',
       loop_body (FL := integer_only)
         (with_stdin [key_down; lit "7"]
          (final (run (FL := integer_only) [lit "1"; lit ","; lit "5"]))) = Ret tt w1
       /\ loop_body (FL := integer_only) w1 = Ret tt w'
       /\ loop (FL := integer_only) 2
            (with_stdin [key_down; lit "7"]
          (final (run (FL := integer_only) [lit "1"; lit ","; lit "5"]))) = Ret tt w'
       /\ points_to A (5 :: 1 :: replicate 20 0 ++ [1; 0]) w1
       /\ points_to A (5 :: 1 :: replicate 20 0 ++ [1; 0]) w'
       /\ reads (FL := integer_only) A w' = reads (FL := integer_only) A w1
       /\ (float_active
             (lookup_register
                (registers
                   (with_stdin [key_down; lit "7"]
          (final (run (FL := integer_only) [lit "1"; lit ","; lit "5"])))) A)
           = float_active
               (lookup_register
                  (registers
                     (with_stdin [key_down; lit "7"]
          (final (run (FL := integer_only) [lit "1"; lit ","; lit "5"])))) M) ->
           reads (FL := integer_only) A w'
           = reads (FL := integer_only) M
               (with_stdin [key_down; lit "7"]
          (final (run (FL := integer_only) [lit "1"; lit ","; lit "5"]))))
       /\ reads (FL := integer_only) M w' = inr (VInt 7)
       /\ reg (lookup_register (registers w') A)
          <> reg (lookup_register (registers w') M).
Proof.
  split; [lia|]. do 2 (split; [vm_compute; reflexivity|]).
  apply (new_number_after_transfer_keeps_A (FL := integer_only) 7
           (5 :: 1 :: replicate 20 0 ++ [1; 0]) []);
    [lia|vm_compute; reflexivity..].
Defined.

(** The up key after [5] and [B]. *)
Lemma transfer_up_reads_as_M_witness :
  global_register
    (previous_key
       (with_stdin [key_up] (final (run (FL := integer_only) [lit "5"; lit "B"]))))
  = Some B
  /\ (B = B \/ B = C \/ B = D \/ B = E \/ B = F)
  /\ stdin (with_stdin [key_up] (final (run (FL := integer_only) [lit "5"; lit "B"])))
     = key_up :: []
  /\ exists w',
       loop_body (FL := integer_only)
         (with_stdin [key_up] (final (run (FL := integer_only) [lit "5"; lit "B"])))
       = Ret tt w'
       /\ (float_active
             (lookup_register
                (registers (with_stdin [key_up] (final (run (FL := integer_only) [lit "5"; lit "B"])))) B)
           = float_active
               (lookup_register
                  (registers (with_stdin [key_up] (final (run (FL := integer_only) [lit "5"; lit "B"])))) M) ->
           reads (FL := integer_only) B w'
           = reads (FL := integer_only) M
               (with_stdin [key_up] (final (run (FL := integer_only) [lit "5"; lit "B"]))))
       /\ reg (lookup_register (registers w') B)
          = reg (lookup_register (registers w') M)
       /\ store w'
          = store (with_stdin [key_up] (final (run (FL := integer_only) [lit "5"; lit "B"]))).
Proof.
  split; [vm_compute; reflexivity|]. split; [by left|].
  split; [vm_compute; reflexivity|].
  apply (transfer_up_reads_as_M (FL := integer_only) B []);
    [vm_compute; reflexivity|by left|vm_compute; reflexivity].
Defined.

(** The sign key after [5]. *)
Lemma sign_key_negates_witness :
  points_to M (5 :: replicate 23 0)
    (with_stdin [lit "_"] (final (run (FL := integer_only) [lit "5"])))
  /\ (5 :: replicate 23 0) !! 23%nat = Some 0
  /\ float_active
       (lookup_register
          (registers (with_stdin [lit "_"] (final (run (FL := integer_only) [lit "5"]))))
          M) = false
  /\ reads (FL := integer_only) M
       (with_stdin [lit "_"] (final (run (FL := integer_only) [lit "5"])))
     = inr (VInt 5)
  /\ stdin (with_stdin [lit "_"] (final (run (FL := integer_only) [lit "5"])))
     = lit "_" :: []
  /\ exists w',
       loop_body (FL := integer_only)
         (with_stdin [lit "_"] (final (run (FL := integer_only) [lit "5"])))
       = Ret tt w'
       /\ reads (FL := integer_only) M w' = inr (VInt (- 5))
       /\ previous_key w' = lit "_".
Proof.
  do 5 (split; [vm_compute; reflexivity|]).
  apply (sign_key_negates (FL := integer_only) 5 (5 :: replicate 23 0) []);
    vm_compute; reflexivity.
Defined.

(** The keys [1], comma, [5] after the clear-all key. *)
Lemma decimal_entry_reads_back_witness :
  [1] <> []
  /\ [5] <> []
  /\ (length [1] + length [5] <= 22)%nat
  /\ Forall (fun d => 0 <= d <= 9) [1]
  /\ Forall (fun d => 0 <= d <= 9) [5]
  /\ fresh_context
       (context_world (lit "r") (map digit_key [1] ++ lit "," :: map digit_key [5] ++ []))
  /\ stdin (context_world (lit "r")
              (map digit_key [1] ++ lit "," :: map digit_key [5] ++ []))
     = map digit_key [1] ++ lit "," :: map digit_key [5] ++ []
  /\ exists w',
       loop (FL := integer_only) (length [1] + S (length [5]))
         (context_world (lit "r")
            (map digit_key [1] ++ lit "," :: map digit_key [5] ++ [])) = Ret tt w'
       /\ read_register (FL := integer_only) M w'
          = Ret (VFloat (float_of_decimal
                           (Decimal false (number ([1] ++ [5])) (length [5])))) w'
       /\ stdin w' = [].
Proof.
  assert (H1 : [1] <> []) by discriminate.
  assert (H2 : [5] <> []) by discriminate.
  assert (H3 : (length [1] + length [5] <= 22)%nat) by (cbn; lia).
  assert (H4 : Forall (fun d => 0 <= d <= 9) [1]) by (repeat constructor; lia).
  assert (H5 : Forall (fun d => 0 <= d <= 9) [5]) by (repeat constructor; lia).
  assert (H6 : fresh_context
                 (context_world (lit "r")
                    (map digit_key [1] ++ lit "," :: map digit_key [5] ++ [])))
    by (left; reflexivity).
  repeat apply conj; try assumption; [reflexivity|].
  apply (decimal_entry_reads_back (FL := integer_only) [1] [5] [] _ H1 H2 H3 H4 H5 H6).
  reflexivity.
Defined.

(** [A.write_register(-42)] at the start of the program. *)
Lemma write_then_read_int_witness :
  points_to A (replicate REG_LEN_MAX 0) (initial_world [])
  /\ float_active (lookup_register (registers (initial_world [])) A) = false
  /\ (length (digits_of (-42)) <= 22)%nat
  /\ exists w',
       write_register (FL := integer_only) A (VInt (-42)) (initial_world [])
       = Ret tt w'
       /\ reads (FL := integer_only) A w' = inr (VInt (-42)).
Proof.
  do 2 (split; [reflexivity|]). split; [vm_compute; lia|].
  apply (write_then_read_int (FL := integer_only) A (-42));
    [reflexivity|reflexivity|vm_compute; lia].
Defined.

(** [print_result(5)] at the start of the program, where [n_digits] is 0. *)
Lemma print_result_int_witness :
  n_digits (initial_world []) = SInt 0
  /\ print_result (FL := integer_only) (VInt 5) (initial_world [])
     = Ret tt (with_stdout
                 (stdout (initial_world [])
                  ++ [Print (str_of_int 5 ++ replicate (Z.to_nat (0 + 1)) (chr "0"))])
                 (initial_world [])).
Proof.
  split; [reflexivity|].
  apply (print_result_int (FL := integer_only) 5 0); reflexivity.
Defined.

(** M after the keys [5] and the sign key. *)
Lemma sound_int_register_reads_witness :
  sound (final (run (FL := integer_only) [lit "5"; lit "_"]))
  /\ points_to M (5 :: replicate 22 0 ++ [1])
       (final (run (FL := integer_only) [lit "5"; lit "_"]))
  /\ (5 :: replicate 22 0 ++ [1]) !! 23%nat = Some 1
  /\ float_active
       (lookup_register
          (registers (final (run (FL := integer_only) [lit "5"; lit "_"]))) M) = false
  /\ reads (FL := integer_only) M (final (run (FL := integer_only) [lit "5"; lit "_"]))
     = inr (VInt (if 1 =? 0
                  then number (rev (take 22 (5 :: replicate 22 0 ++ [1])))
                  else - number (rev (take 22 (5 :: replicate 22 0 ++ [1]))))).
Proof.
  assert (Hs : sound (final (run (FL := integer_only) [lit "5"; lit "_"])))
    by (apply soundb_sound; vm_compute; reflexivity).
  split; [exact Hs|]. do 3 (split; [vm_compute; reflexivity|]).
  apply (sound_int_register_reads (FL := integer_only) M _ 1 _ Hs);
    vm_compute; reflexivity.
Defined.

(** M after the keys [1], comma, [5]. *)
Lemma sound_float_register_reads_witness :
  sound (final (run (FL := integer_only) [lit "1"; lit ","; lit "5"]))
  /\ points_to M (5 :: 1 :: replicate 20 0 ++ [1; 0])
       (final (run (FL := integer_only) [lit "1"; lit ","; lit "5"]))
  /\ (5 :: 1 :: replicate 20 0 ++ [1; 0]) !! 22%nat = Some 1
  /\ (5 :: 1 :: replicate 20 0 ++ [1; 0]) !! 23%nat = Some 0
  /\ float_active
       (lookup_register
          (registers (final (run (FL := integer_only) [lit "1"; lit ","; lit "5"])))
          M) = true
  /\ 1 <= 1 <= 22
  /\ reads (FL := integer_only) M
       (final (run (FL := integer_only) [lit "1"; lit ","; lit "5"]))
     = inr (VFloat
              (float_of_decimal
                 (Decimal (negb (0 =? 0))
                    (number (rev (take 22 (5 :: 1 :: replicate 20 0 ++ [1; 0]))))
                    (Z.to_nat 1)))).
Proof.
  assert (Hs : sound (final (run (FL := integer_only) [lit "1"; lit ","; lit "5"])))
    by (apply soundb_sound; vm_compute; reflexivity).
  split; [exact Hs|]. do 4 (split; [vm_compute; reflexivity|]). split; [lia|].
  apply (sound_float_register_reads (FL := integer_only) M _ 0 1 _ Hs);
    [vm_compute; reflexivity..|lia].
Defined.

(** M after the keys [5], comma. *)
Lemma float_register_without_fraction_raises_witness :
  sound (final (run (FL := integer_only) [lit "5"; lit ","]))
  /\ points_to M (5 :: replicate 23 0)
       (final (run (FL := integer_only) [lit "5"; lit ","]))
  /\ (5 :: replicate 23 0) !! 22%nat = Some 0
  /\ float_active
       (lookup_register
          (registers (final (run (FL := integer_only) [lit "5"; lit ","]))) M) = true
  /\ reads (FL := integer_only) M (final (run (FL := integer_only) [lit "5"; lit ","]))
     = inl ValueError.
Proof.
  assert (Hs : sound (final (run (FL := integer_only) [lit "5"; lit ","])))
    by (apply soundb_sound; vm_compute; reflexivity).
  split; [exact Hs|]. do 3 (split; [vm_compute; reflexivity|]).
  apply (float_register_without_fraction_raises (FL := integer_only) M
           (5 :: replicate 23 0) _ Hs);
    vm_compute; reflexivity.
Defined.

(** Version 1.2 on the keys [5], lozenge, comma, [7]: M reads 57. *)
Lemma modified_comma_then_digit_appends_witness :
  0 <= 7 <= 9
  /\ Forall (fun d => 0 <= d <= 9) [5]
  /\ (length [5] < 22)%nat
  /\ holds_digits [5]
       (with_stdin [lit ","; lit "7"]
          (final (Modified.main (FL := integer_only) 2
                    (initial_world [lit "5"; key_lozenge]))))
  /\ str_in
       (previous_key
          (with_stdin [lit ","; lit "7"]
             (final (Modified.main (FL := integer_only) 2
                       (initial_world [lit "5"; key_lozenge])))))
       (lit "0123456789") = false
  /\ stdin (with_stdin [lit ","; lit "7"]
              (final (Modified.main (FL := integer_only) 2
                        (initial_world [lit "5"; key_lozenge]))))
     = lit "," :: digit_key 7 :: []
  /\ exists w',
       Modified.main (FL := integer_only) 2
         (with_stdin [lit ","; lit "7"]
            (final (Modified.main (FL := integer_only) 2
                      (initial_world [lit "5"; key_lozenge])))) = Ret tt w'
       /\ reads (FL := integer_only) M w' = inr (VInt (number ([5] ++ [7])))
       /\ stdin w' = [].
Proof.
  assert (H2 : Forall (fun d => 0 <= d <= 9) [5]) by (repeat constructor; lia).
  assert (H4 : holds_digits [5]
                 (with_stdin [lit ","; lit "7"]
                    (final (Modified.main (FL := integer_only) 2
                              (initial_world [lit "5"; key_lozenge])))))
    by (split; vm_compute; reflexivity).
  split; [lia|]. split; [exact H2|]. split; [cbn; lia|]. split; [exact H4|].
  do 2 (split; [vm_compute; reflexivity|]).
  apply (modified_comma_then_digit_appends (FL := integer_only) 7 [5] [] _);
    [lia|exact H2|cbn; lia|exact H4|vm_compute; reflexivity..].
Defined.

(** Version 1.5 on the keys [5], lozenge, comma, [7]: M reads 7. *)
Lemma comma_then_digit_starts_a_number_witness :
  0 <= 7 <= 9
  /\ str_in
       (previous_key
          (with_stdin [lit ","; lit "7"]
             (final (run (FL := integer_only) [lit "5"; key_lozenge]))))
       (lit "0123456789,") = false
  /\ stdin (with_stdin [lit ","; lit "7"]
              (final (run (FL := integer_only) [lit "5"; key_lozenge])))
     = lit "," :: digit_key 7 :: []
  /\ exists w',
       loop (FL := integer_only) 2
         (with_stdin [lit ","; lit "7"]
            (final (run (FL := integer_only) [lit "5"; key_lozenge]))) = Ret tt w'
       /\ reads (FL := integer_only) M w' = inr (VInt 7)
       /\ stdin w' = [].
Proof.
  split; [lia|]. do 2 (split; [vm_compute; reflexivity|]).
  apply (comma_then_digit_starts_a_number (FL := integer_only) 7 []);
    [lia|vm_compute; reflexivity..].
Defined.

(** [A.write_register(12)] when A holds 5, after the keys [5], [+]. *)
Lemma write_not_smaller_reads_back_witness :
  sound (final (run (FL := integer_only) [lit "5"; lit "+"]))
  /\ reads (FL := integer_only) A (final (run (FL := integer_only) [lit "5"; lit "+"]))
     = inr (VInt 5)
  /\ 0 <= 5 <= 12
  /\ (length (digits_of 12) <= 22)%nat
  /\ exists w',
       write_register (FL := integer_only) A (VInt 12)
         (final (run (FL := integer_only) [lit "5"; lit "+"])) = Ret tt w'
       /\ reads (FL := integer_only) A w' = inr (VInt 12).
Proof.
  assert (Hs : sound (final (run (FL := integer_only) [lit "5"; lit "+"])))
    by (apply soundb_sound; vm_compute; reflexivity).
  split; [exact Hs|]. split; [vm_compute; reflexivity|]. split; [lia|].
  split; [vm_compute; lia|].
  apply (write_not_smaller_reads_back (FL := integer_only) A 5 12 _ Hs);
    [vm_compute; reflexivity|lia|vm_compute; lia].
Defined.

(** The [+] key when M holds 7 and A holds 5, after the keys [5], [+],
    [7]. *)
Lemma add_key_adds_non_negative_ints_witness :
  sound (with_stdin [lit "+"]
           (final (run (FL := integer_only) [lit "5"; lit "+"; lit "7"])))
  /\ reads (FL := integer_only) M
       (with_stdin [lit "+"]
          (final (run (FL := integer_only) [lit "5"; lit "+"; lit "7"])))
     = inr (VInt 7)
  /\ reads (FL := integer_only) A
       (with_stdin [lit "+"]
          (final (run (FL := integer_only) [lit "5"; lit "+"; lit "7"])))
     = inr (VInt 5)
  /\ 0 <= 7
  /\ 0 <= 5
  /\ (length (digits_of (7 + 5)) <= 22)%nat
  /\ stdin (with_stdin [lit "+"]
              (final (run (FL := integer_only) [lit "5"; lit "+"; lit "7"])))
     = lit "+" :: []
  /\ exists w',
       loop_body (FL := integer_only)
         (with_stdin [lit "+"]
            (final (run (FL := integer_only) [lit "5"; lit "+"; lit "7"])))
       = Ret tt w'
       /\ reads (FL := integer_only) A w' = inr (VInt (7 + 5))
       /\ previous_key w' = lit "+"
       /\ stdin w' = [].
Proof.
  assert (Hs : sound (with_stdin [lit "+"]
                        (final (run (FL := integer_only)
                                  [lit "5"; lit "+"; lit "7"]))))
    by (apply soundb_sound; vm_compute; reflexivity).
  split; [exact Hs|]. do 2 (split; [vm_compute; reflexivity|]).
  do 2 (split; [lia|]). split; [vm_compute; lia|].
  split; [vm_compute; reflexivity|].
  apply (add_key_adds_non_negative_ints (FL := integer_only) 7 5 [] _ Hs);
    [vm_compute; reflexivity|vm_compute; reflexivity|lia|lia|vm_compute; lia
    |vm_compute; reflexivity].
Defined.

(** [A.write_register(1)] when A holds 99, after the keys [9], [9], [+]:
    the 9 at index 1 stays. *)
Lemma write_register_keeps_high_cells_witness :
  points_to A (9 :: 9 :: replicate 22 0)
    (final (run (FL := integer_only) [lit "9"; lit "9"; lit "+"]))
  /\ length (9 :: 9 :: replicate 22 0) = REG_LEN_MAX
  /\ (length (digits_of 1) <= 22)%nat
  /\ exists w',
       write_register (FL := integer_only) A (VInt 1)
         (final (run (FL := integer_only) [lit "9"; lit "9"; lit "+"])) = Ret tt w'
       /\ take (length (digits_of 1)) (array_of A w')
          = map digit_value (rev (digits_of 1))
       /\ (forall i, (length (digits_of 1) <= i < 23)%nat ->
             array_of A w' !! i = (9 :: 9 :: replicate 22 0) !! i)
       /\ array_of A w' !! 23%nat = Some (if 1 <? 0 then 1 else 0).
Proof.
  split; [vm_compute; reflexivity|]. split; [reflexivity|].
  split; [vm_compute; lia|].
  apply (write_register_keeps_high_cells (FL := integer_only) A 1
           (9 :: 9 :: replicate 22 0));
    [vm_compute; reflexivity|reflexivity|vm_compute; lia].
Defined.

(** [A.write_register(-42)] at the start of the program, in both
    versions. *)
Lemma write_register_int_agrees_with_modified_witness :
  points_to A (replicate REG_LEN_MAX 0) (initial_world [])
  /\ length (replicate REG_LEN_MAX 0) = REG_LEN_MAX
  /\ (length (digits_of (-42)) <= REG_LEN_MAX)%nat
  /\ Modified.write_register (FL := integer_only) A (VInt (-42)) (initial_world [])
     = write_register (FL := integer_only) A (VInt (-42)) (initial_world []).
Proof.
  do 2 (split; [reflexivity|]). split; [vm_compute; lia|].
  apply (write_register_int_agrees_with_modified (FL := integer_only) A (-42)
           (replicate REG_LEN_MAX 0));
    [reflexivity|reflexivity|vm_compute; lia].
Defined.

(** The [*] key after [5], [B], up, [B]. *)
Lemma secondary_display_raises_witness :
  stdin (with_stdin [lit "*"]
           (final (run (FL := integer_only) [lit "5"; lit "B"; key_up; lit "B"])))
  = lit "*" :: []
  /\ global_register
       (previous_key
          (with_stdin [lit "*"]
             (final (run (FL := integer_only) [lit "5"; lit "B"; key_up; lit "B"]))))
     = Some B
  /\ B <> M
  /\ reads (FL := integer_only) B
       (with_stdin [lit "*"]
          (final (run (FL := integer_only) [lit "5"; lit "B"; key_up; lit "B"])))
     = inr (VInt 5)
  /\ loop_body (FL := integer_only)
       (with_stdin [lit "*"]
          (final (run (FL := integer_only) [lit "5"; lit "B"; key_up; lit "B"])))
     = Raise SyntaxError
         (with_stdout
            (stdout
               (with_stdin [lit "*"]
                  (final (run (FL := integer_only)
                            [lit "5"; lit "B"; key_up; lit "B"])))
             ++ [Print (str (FL := integer_only) (VInt 5))])
            (with_stdin []
               (with_stdin [lit "*"]
                  (final (run (FL := integer_only)
                            [lit "5"; lit "B"; key_up; lit "B"]))))).
Proof.
  do 2 (split; [vm_compute; reflexivity|]). split; [discriminate|].
  split; [vm_compute; reflexivity|].
  apply (secondary_display_raises (FL := integer_only) B (VInt 5) []);
    [vm_compute; reflexivity|vm_compute; reflexivity|discriminate
    |vm_compute; reflexivity].
Defined.
